(** * Booking Orchestration Core

    A shallow embedding of the three core subsystems of the orchestrator
    (conversation state machine, attempt scheduler, calendar reservation
    engine) together with the properties stated about them.

    Conventions of the embedding.
    - A TypeScript optional field [f?: T] is an [option T]; [None] is
      [undefined].
    - Strings are Rocq strings (one character per byte).  [toLowerCase]
      folds the ASCII letters only, which is what the JavaScript method
      does on ASCII text.
    - An instant is a [Z]: the number of milliseconds since the epoch, the
      value [Date.prototype.getTime] returns.
    - A call reads the wall clock ([new Date()], [Date.now()]) as one
      instant, an explicit argument of the embedded function.
    - Identifiers drawn by [uuidv4()] are explicit arguments too. *)

From Stdlib Require Import ZArith List String Ascii Bool Lia.
Import ListNotations.

Local Open Scope string_scope.
Local Open Scope list_scope.
Local Open Scope Z_scope.

(** ** JavaScript string and truthiness helpers *)

Module Js.

(** [c.toLowerCase()] for one ASCII character. *)
Definition lowerAscii (c : ascii) : ascii :=
  let n := nat_of_ascii c in
  if (Nat.leb 65 n && Nat.leb n 90)%bool then ascii_of_nat (n + 32) else c.

(** [s.toLowerCase()] *)
Fixpoint toLowerCase (s : string) : string :=
  match s with
  | EmptyString => EmptyString
  | String c rest => String (lowerAscii c) (toLowerCase rest)
  end.

(** [s.startsWith(p)] *)
Fixpoint startsWith (s p : string) : bool :=
  match p, s with
  | EmptyString, _ => true
  | String _ _, EmptyString => false
  | String a p', String b s' => (Ascii.eqb a b && startsWith s' p')%bool
  end.

(** [s.includes(p)] *)
Fixpoint includes (s p : string) : bool :=
  (startsWith s p ||
   match s with
   | EmptyString => false
   | String _ s' => includes s' p
   end)%bool.

(** [x || ''] for an optional string. *)
Definition orEmpty (x : option string) : string :=
  match x with
  | Some s => s
  | None => ""
  end.

(** Truthiness of an optional boolean: only [true] is truthy. *)
Definition truthy (x : option bool) : bool :=
  match x with
  | Some b => b
  | None => false
  end.

(** Truthiness of an optional string: defined and not empty. *)
Definition truthyStr (x : option string) : bool :=
  match x with
  | Some EmptyString => false
  | Some _ => true
  | None => false
  end.

End Js.

(** ** Conversation state machine (agent/stateMachine.ts) *)

Module StateMachine.
Import Js.

Inductive State :=
  | IdentifyContact
  | ConsentGate
  | Qualify
  | ProposeTime
  | Confirm
  | OptOut
  | Transfer
  | Voicemail
  | End.

Inductive Need := high | medium | low.
Inductive Timing := this_quarter | next_quarter | later.
Inductive Budget := present | unknown | absent.

Record ConversationSlots := mkSlots {
  authority : option bool;
  need : option Need;
  timing : option Timing;
  budget_indicator : option Budget;
  confirmed_date : option string;
  confirmed_time : option string;
  pain_stated : option bool
}.

Record MandatoryLines := mkLines {
  identification : option bool;
  purpose : option bool;
  consent_to_proceed : option bool;
  recording_consent : option bool
}.

(** The fields of [BookingIntent] that share a name with a field of another
    interface carry the prefix [bi_]. *)
Record BookingIntent := mkIntent {
  booking_id : string;
  bi_lead_id : string;
  bi_confirmed_date : string;
  bi_confirmed_time : string;
  qualification_flags : ConversationSlots;
  bi_explicit_confirmation : bool
}.

Record ConversationContext := mkContext {
  call_id : string;
  lead_id : string;
  contact_name : option string;
  company_name : option string;
  recording_required : option bool;
  jurisdiction : option string
}.

Inductive Intent :=
  | identify
  | consent
  | qualify
  | propose
  | confirm
  | opt_out
  | transfer
  | voicemail
  | disqualify.

(** [StateMachineInput]; its [slots] field is [in_slots] here. *)
Record StateMachineInput := mkInput {
  intent : option Intent;
  text : option string;
  in_slots : option ConversationSlots;
  explicit_confirmation : option bool;
  selected_time : option string
}.

Record StateMachineState := mkState {
  current : State;
  slots : ConversationSlots;
  mandatory_lines : MandatoryLines;
  context : ConversationContext;
  booking_intent : option BookingIntent;
  history : list State
}.

Definition emptySlots : ConversationSlots :=
  mkSlots None None None None None None None.

Definition emptyLines : MandatoryLines :=
  mkLines None None None None.

Definition initialState (context : ConversationContext) : StateMachineState :=
  {| current := IdentifyContact;
     slots := emptySlots;
     mandatory_lines := emptyLines;
     context := context;
     booking_intent := None;
     history := [IdentifyContact] |}.

Definition State_eqb (a b : State) : bool :=
  match a, b with
  | IdentifyContact, IdentifyContact
  | ConsentGate, ConsentGate
  | Qualify, Qualify
  | ProposeTime, ProposeTime
  | Confirm, Confirm
  | OptOut, OptOut
  | Transfer, Transfer
  | Voicemail, Voicemail
  | End, End => true
  | _, _ => false
  end.

Definition Intent_eqb (a b : Intent) : bool :=
  match a, b with
  | identify, identify
  | consent, consent
  | qualify, qualify
  | propose, propose
  | confirm, confirm
  | opt_out, opt_out
  | transfer, transfer
  | voicemail, voicemail
  | disqualify, disqualify => true
  | _, _ => false
  end.

(** [input.intent === tag] *)
Definition intentIs (input : StateMachineInput) (tag : Intent) : bool :=
  match intent input with
  | Some i => Intent_eqb i tag
  | None => false
  end.

Definition set_identification (l : MandatoryLines) : MandatoryLines :=
  mkLines (Some true) (purpose l) (consent_to_proceed l) (recording_consent l).

Definition set_purpose (l : MandatoryLines) : MandatoryLines :=
  mkLines (identification l) (Some true) (consent_to_proceed l) (recording_consent l).

Definition set_consent_to_proceed (l : MandatoryLines) : MandatoryLines :=
  mkLines (identification l) (purpose l) (Some true) (recording_consent l).

Definition set_recording_consent (l : MandatoryLines) : MandatoryLines :=
  mkLines (identification l) (purpose l) (consent_to_proceed l) (Some true).

(** [state.context.contact_name && text.includes(contact_name.toLowerCase())] *)
Definition mentionsContact (state : StateMachineState) (text : string) : bool :=
  match contact_name (context state) with
  | Some n => (truthyStr (Some n) && includes text (toLowerCase n))%bool
  | None => false
  end.

Definition checkMandatoryLines (state : StateMachineState) (input : StateMachineInput)
  : MandatoryLines :=
  let lines := mandatory_lines state in
  let text := toLowerCase (orEmpty (text input)) in
  (* Identification check *)
  let lines :=
    if (State_eqb (current state) IdentifyContact || State_eqb (current state) ConsentGate)%bool
    then
      if (includes text "this is" || includes text "calling from"
          || mentionsContact state text)%bool
      then set_identification lines else lines
    else lines in
  (* Purpose check *)
  let lines :=
    if (State_eqb (current state) ConsentGate || State_eqb (current state) Qualify)%bool
    then
      if (includes text "schedule" || includes text "meeting"
          || includes text "discovery")%bool
      then set_purpose lines else lines
    else lines in
  (* Consent to proceed check *)
  let lines :=
    if State_eqb (current state) ConsentGate
    then
      if (intentIs input consent || includes text "yes" || includes text "sure"
          || includes text "ok")%bool
      then set_consent_to_proceed lines else lines
    else lines in
  (* Recording consent check (if required) *)
  let lines :=
    if (truthy (recording_required (context state))
        && (State_eqb (current state) ConsentGate || State_eqb (current state) Qualify))%bool
    then
      if (intentIs input consent && includes text "record")%bool
      then set_recording_consent lines else lines
    else lines in
  lines.

(** [if (v !== undefined) target = v] *)
Definition override {A : Type} (v target : option A) : option A :=
  match v with
  | Some x => Some x
  | None => target
  end.

Definition updateSlots (currentSlots : ConversationSlots) (input : StateMachineInput)
  : ConversationSlots :=
  let slots := currentSlots in
  let slots :=
    match in_slots input with
    | Some s =>
        mkSlots (override (authority s) (authority slots))
                (override (need s) (need slots))
                (override (timing s) (timing slots))
                (override (budget_indicator s) (budget_indicator slots))
                (override (confirmed_date s) (confirmed_date slots))
                (override (confirmed_time s) (confirmed_time slots))
                (override (pain_stated s) (pain_stated slots))
    | None => slots
    end in
  (* Extract from text if slots not provided *)
  let text := toLowerCase (orEmpty (text input)) in
  let slots :=
    if (includes text "decision" || includes text "authority"
        || includes text "decision maker")%bool
    then mkSlots (Some true) (need slots) (timing slots) (budget_indicator slots)
                 (confirmed_date slots) (confirmed_time slots) (pain_stated slots)
    else slots in
  let slots :=
    if (includes text "urgent" || includes text "immediately" || includes text "asap")%bool
    then mkSlots (authority slots) (need slots) (Some this_quarter) (budget_indicator slots)
                 (confirmed_date slots) (confirmed_time slots) (pain_stated slots)
    else slots in
  let slots :=
    if (includes text "next quarter" || includes text "q2" || includes text "q3"
        || includes text "q4")%bool
    then mkSlots (authority slots) (need slots) (Some next_quarter) (budget_indicator slots)
                 (confirmed_date slots) (confirmed_time slots) (pain_stated slots)
    else slots in
  slots.

Definition isTrue (x : option bool) : bool :=
  match x with
  | Some true => true
  | _ => false
  end.

Definition needIs (x : option Need) (n : Need) : bool :=
  match x, n with
  | Some high, high | Some medium, medium | Some low, low => true
  | _, _ => false
  end.

Definition timingIs (x : option Timing) (t : Timing) : bool :=
  match x, t with
  | Some this_quarter, this_quarter
  | Some next_quarter, next_quarter
  | Some later, later => true
  | _, _ => false
  end.

Definition budgetIs (x : option Budget) (b : Budget) : bool :=
  match x, b with
  | Some present, present | Some unknown, unknown | Some absent, absent => true
  | _, _ => false
  end.

Definition isQualified (slots : ConversationSlots) : bool :=
  (isTrue (authority slots)
   && (needIs (need slots) high
       || (needIs (need slots) medium && isTrue (pain_stated slots)))
   && (timingIs (timing slots) this_quarter || timingIs (timing slots) next_quarter)
   && (budgetIs (budget_indicator slots) present
       || (budgetIs (budget_indicator slots) unknown
           && isTrue (authority slots) && needIs (need slots) high)))%bool.

(** The pieces [nextState] assembles its result from: the next state tag,
    the slots (rewritten on [ProposeTime -> Confirm]), the booking intent and
    the history. *)
Record Step := mkStep {
  step_next : State;
  step_slots : ConversationSlots;
  step_intent : option BookingIntent;
  step_history : list State
}.

Definition goto (target : State) (updatedSlots : ConversationSlots)
    (bookingIntent : option BookingIntent) (history : list State) : Step :=
  mkStep target updatedSlots bookingIntent (history ++ [target]).

Definition nextState (state : StateMachineState) (input : StateMachineInput)
  : StateMachineState :=
  let updatedMandatoryLines := checkMandatoryLines state input in
  let updatedSlots := updateSlots (slots state) input in
  let history := history state in
  let stay := mkStep (current state) updatedSlots (booking_intent state) history in
  let step :=
    match current state with
    | IdentifyContact =>
        if (truthy (identification updatedMandatoryLines)
            && truthy (purpose updatedMandatoryLines))%bool
        then goto ConsentGate updatedSlots (booking_intent state) history
        else if intentIs input transfer
        then goto Transfer updatedSlots (booking_intent state) history
        else if intentIs input voicemail
        then goto Voicemail updatedSlots (booking_intent state) history
        else stay
    | ConsentGate =>
        if negb (truthy (consent_to_proceed updatedMandatoryLines))
        then stay
        else if (truthy (recording_required (context state))
                 && negb (truthy (recording_consent updatedMandatoryLines)))%bool
        then stay
        else if intentIs input opt_out
        then goto OptOut updatedSlots (booking_intent state) history
        else if intentIs input transfer
        then goto Transfer updatedSlots (booking_intent state) history
        else goto Qualify updatedSlots (booking_intent state) history
    | Qualify =>
        if intentIs input opt_out
        then goto OptOut updatedSlots (booking_intent state) history
        else if intentIs input transfer
        then goto Transfer updatedSlots (booking_intent state) history
        else if intentIs input disqualify
        then goto End updatedSlots (booking_intent state) history
        else if isQualified updatedSlots
        then goto ProposeTime updatedSlots (booking_intent state) history
        else stay
    | ProposeTime =>
        if intentIs input opt_out
        then goto OptOut updatedSlots (booking_intent state) history
        else if intentIs input transfer
        then goto Transfer updatedSlots (booking_intent state) history
        else if (intentIs input confirm && truthyStr (selected_time input)
                 && truthy (explicit_confirmation input))%bool
        then
          goto Confirm
               (mkSlots (authority updatedSlots) (need updatedSlots) (timing updatedSlots)
                        (budget_indicator updatedSlots)
                        (selected_time input) (selected_time input)
                        (pain_stated updatedSlots))
               (booking_intent state) history
        else stay
    | Confirm =>
        if (truthy (explicit_confirmation input)
            && truthyStr (confirmed_time updatedSlots)
            && truthyStr (confirmed_date updatedSlots))%bool
        then
          goto End updatedSlots
               (Some {| booking_id := ("booking-" ++ call_id (context state))%string;
                        bi_lead_id := lead_id (context state);
                        bi_confirmed_date := orEmpty (confirmed_date updatedSlots);
                        bi_confirmed_time := orEmpty (confirmed_time updatedSlots);
                        qualification_flags := updatedSlots;
                        bi_explicit_confirmation := true |})
               history
        else if intentIs input opt_out
        then goto OptOut updatedSlots (booking_intent state) history
        else if intentIs input transfer
        then goto Transfer updatedSlots (booking_intent state) history
        else stay
    | OptOut | Transfer | Voicemail | End => stay
    end in
  {| current := step_next step;
     slots := step_slots step;
     mandatory_lines := updatedMandatoryLines;
     context := context state;
     booking_intent := step_intent step;
     history := step_history step |}.

Definition isTerminalState (state : State) : bool :=
  (State_eqb state OptOut || State_eqb state Transfer
   || State_eqb state Voicemail || State_eqb state End)%bool.

(** The state after feeding a sequence of inputs, one [nextState] call each. *)
Definition transitions (state : StateMachineState) (inputs : list StateMachineInput)
  : StateMachineState :=
  fold_left nextState inputs state.

(** *** Vocabulary of the properties and the scenarios of the test suite *)

(** An input that neither confirms explicitly nor asks to leave. *)
Definition unconfirmed (i : StateMachineInput) : Prop :=
  explicit_confirmation i <> Some true
  /\ intent i <> Some opt_out
  /\ intent i <> Some transfer.

(** A state holds a booking intent only in [End]. *)
Definition intentOnlyAtEnd (s : StateMachineState) : Prop :=
  booking_intent s <> None -> current s = End.

(** The states the machine is confined to when the purpose line is never
    recorded. *)
Definition stuck (s : StateMachineState) : Prop :=
  purpose (mandatory_lines s) = None
  /\ (current s = IdentifyContact \/ current s = Transfer \/ current s = Voicemail).

Definition baseContext : ConversationContext :=
  {| call_id := "550e8400-e29b-41d4-a716-446655440000";
     lead_id := "00Q1234567890ABC";
     contact_name := Some "John Doe";
     company_name := Some "Acme Corp";
     recording_required := Some false;
     jurisdiction := None |}.

(** The opening utterance of the happy-path test. *)
Definition openingInput : StateMachineInput :=
  {| intent := Some identify;
     text := Some "Hello, this is John Doe from Acme Corp. I am calling to schedule a discovery meeting.";
     in_slots := None;
     explicit_confirmation := None;
     selected_time := None |}.

Definition intentOnly (tag : Intent) : StateMachineInput :=
  mkInput (Some tag) None None None None.

Definition textOnly (utterance : string) : StateMachineInput :=
  mkInput None (Some utterance) None None None.

Definition slotsOnly (s : ConversationSlots) : StateMachineInput :=
  mkInput None None (Some s) None None.

(** A state in [st] that holds the slots [sl], the first three mandatory
    lines delivered and no booking intent. *)
Definition stateAt (st : State) (sl : ConversationSlots) : StateMachineState :=
  {| current := st;
     slots := sl;
     mandatory_lines := mkLines (Some true) (Some true) (Some true) None;
     context := baseContext;
     booking_intent := None;
     history := [IdentifyContact; st] |}.

(** The slot assignment at the qualification boundary. *)
Definition boundarySlots (pain : bool) : ConversationSlots :=
  {| authority := Some true;
     need := Some medium;
     timing := Some this_quarter;
     budget_indicator := Some present;
     confirmed_date := None;
     confirmed_time := None;
     pain_stated := Some pain |}.

Definition confirmedSlots : ConversationSlots :=
  {| authority := Some true;
     need := Some high;
     timing := Some this_quarter;
     budget_indicator := Some present;
     confirmed_date := Some "2024-03-15T19:00:00.000Z";
     confirmed_time := Some "2024-03-15T19:00:00.000Z";
     pain_stated := None |}.

End StateMachine.


(** *** Further vocabulary for the state machine *)

Module StateMachineVocabulary.
Import Js StateMachine.

Definition getRequiredMandatoryLine (state : State) : option string :=
  match state with
  | IdentifyContact => Some "identification"
  | ConsentGate => Some "consent_to_proceed"
  | _ => None
  end.

(** The states one call of [nextState] can lead to from each state. *)
Definition successors (state : State) : list State :=
  match state with
  | IdentifyContact => [IdentifyContact; ConsentGate; Transfer; Voicemail]
  | ConsentGate => [ConsentGate; Qualify; OptOut; Transfer]
  | Qualify => [Qualify; ProposeTime; OptOut; Transfer; End]
  | ProposeTime => [ProposeTime; Confirm; OptOut; Transfer]
  | Confirm => [Confirm; End; OptOut; Transfer]
  | OptOut => [OptOut]
  | Transfer => [Transfer]
  | Voicemail => [Voicemail]
  | End => [End]
  end.

(** Every line that is satisfied in [before] is satisfied in [after]. *)
Definition keptLines (before after : MandatoryLines) : Prop :=
  (identification before = Some true -> identification after = Some true)
  /\ (purpose before = Some true -> purpose after = Some true)
  /\ (consent_to_proceed before = Some true -> consent_to_proceed after = Some true)
  /\ (recording_consent before = Some true -> recording_consent after = Some true).

Definition defined {A : Type} (x : option A) : Prop := x <> None.

(** Every slot that is filled in [before] is filled in [after]. *)
Definition keptSlots (before after : ConversationSlots) : Prop :=
  (defined (authority before) -> defined (authority after))
  /\ (defined (need before) -> defined (need after))
  /\ (defined (timing before) -> defined (timing after))
  /\ (defined (budget_indicator before) -> defined (budget_indicator after))
  /\ (defined (confirmed_date before) -> defined (confirmed_date after))
  /\ (defined (confirmed_time before) -> defined (confirmed_time after))
  /\ (defined (pain_stated before) -> defined (pain_stated after)).

(** The history ends with the current state. *)
Definition historyTracksCurrent (s : StateMachineState) : Prop :=
  exists earlier, history s = earlier ++ [current s].

(** The consent conditions under which [ConsentGate] is left. *)
Definition consentGiven (s : StateMachineState) (lines : MandatoryLines) : Prop :=
  consent_to_proceed lines = Some true
  /\ (recording_required (context s) = Some true -> recording_consent lines = Some true).

(** The value the input supplies for a slot, if it supplies slots at all. *)
Definition supplied {A : Type} (field : ConversationSlots -> option A)
    (i : StateMachineInput) : option A :=
  match in_slots i with
  | Some sl => field sl
  | None => None
  end.

(** The input leaves the two confirmed slots to the state machine. *)
Definition suppliesNoConfirmedTime (i : StateMachineInput) : Prop :=
  supplied confirmed_date i = None /\ supplied confirmed_time i = None.

(** The utterance as the heuristics read it. *)
Definition heard (i : StateMachineInput) : string := toLowerCase (orEmpty (text i)).

Definition saysNextQuarter (i : StateMachineInput) : bool :=
  (includes (heard i) "next quarter" || includes (heard i) "q2"
   || includes (heard i) "q3" || includes (heard i) "q4")%bool.

Definition saysUrgent (i : StateMachineInput) : bool :=
  (includes (heard i) "urgent" || includes (heard i) "immediately"
   || includes (heard i) "asap")%bool.

Definition saysAuthority (i : StateMachineInput) : bool :=
  (includes (heard i) "decision" || includes (heard i) "authority")%bool.

(** An input that supplies [authority: false] and a timing of [later] while
    its text speaks of a decision and of urgency. *)
Definition contradictoryInput : StateMachineInput :=
  mkInput None (Some "The decision is urgent")
          (Some (mkSlots (Some false) None (Some later) None None None None))
          None None.

(** An input that confirms the time [t] explicitly. *)
Definition confirmsTime (t : string) : StateMachineInput :=
  mkInput (Some confirm) None None (Some true) (Some t).

(** A bare explicit confirmation. *)
Definition confirmsExplicitly : StateMachineInput :=
  mkInput None None None (Some true) None.

End StateMachineVocabulary.
(** ** JavaScript [Map] and [Date] *)

(** A [Map<string, V>]: keys in insertion order, one binding per key. *)
Module JsMap.

Definition t (V : Type) : Type := list (string * V).

Fixpoint get {V : Type} (m : t V) (k : string) : option V :=
  match m with
  | [] => None
  | (k', v) :: rest => if String.eqb k' k then Some v else get rest k
  end.

(** [m.set(k, v)]: an existing key keeps its place. *)
Fixpoint set {V : Type} (m : t V) (k : string) (v : V) : t V :=
  match m with
  | [] => [(k, v)]
  | (k', v') :: rest =>
      if String.eqb k' k then (k', v) :: rest else (k', v') :: set rest k v
  end.

(** [m.delete(k)] *)
Definition delete {V : Type} (m : t V) (k : string) : t V :=
  filter (fun kv => negb (String.eqb (fst kv) k)) m.

(** [m.get(k) || []] *)
Definition getList {V : Type} (m : t (list V)) (k : string) : list V :=
  match get m k with
  | Some l => l
  | None => []
  end.

End JsMap.

(** UTC arithmetic of [Date] objects, on time values (ECMAScript 21.4.1). *)
Module JsDate.

Definition msPerMinute : Z := 1000 * 60.
Definition msPerHour : Z := 1000 * 60 * 60.
Definition msPerDay : Z := 1000 * 60 * 60 * 24.

(** [d.getUTCDay()]: 0 is Sunday; the epoch fell on a Thursday. *)
Definition getUTCDay (t : Z) : Z := (t / msPerDay + 4) mod 7.

Definition getUTCHours (t : Z) : Z := (t mod msPerDay) / msPerHour.

Definition getUTCMinutes (t : Z) : Z := (t mod msPerHour) / msPerMinute.

(** [d.setUTCDate(d.getUTCDate() + k)]: the day number moves by [k], the
    time within the day stays. *)
Definition shiftUTCDate (t k : Z) : Z := t + k * msPerDay.

(** [d.setUTCHours(h, m, s, ms)] *)
Definition setUTCHours4 (t h m s ms : Z) : Z :=
  (t - t mod msPerDay) + h * msPerHour + m * msPerMinute + s * 1000 + ms.

(** [d.setUTCHours(h)]: minutes, seconds and milliseconds stay. *)
Definition setUTCHours1 (t h : Z) : Z :=
  (t - t mod msPerDay) + h * msPerHour + t mod msPerHour.

(** [d.setUTCMinutes(m, s, ms)] *)
Definition setUTCMinutes3 (t m s ms : Z) : Z :=
  (t - t mod msPerHour) + m * msPerMinute + s * 1000 + ms.

(** [d.setUTCMinutes(m)]: seconds and milliseconds stay. *)
Definition setUTCMinutes1 (t m : Z) : Z :=
  (t - t mod msPerHour) + m * msPerMinute + t mod msPerMinute.

(** The largest time value of a [Date] (ECMAScript 21.4.1.1).  A [Date]
    built or set to an instant outside [-maxTime, maxTime] is invalid, and
    [toISOString()] on an invalid [Date] throws a [RangeError]. *)
Definition maxTime : Z := 8640000000000000.

(** [t] is the time value of a valid [Date]. *)
Definition validTime (t : Z) : Prop := - maxTime <= t <= maxTime.

End JsDate.

(** ** Attempt scheduler (attempts/strategy.ts) *)

Module Attempts.
Import JsDate.

Inductive Outcome := answered | no_answer | busy | voicemail | failed | opt_out.

(** [timestamp] is the instant its RFC 3339 string denotes
    ([new Date(attempt.timestamp).getTime()]). *)
Record AttemptRecord := mkAttempt {
  attempt_id : string;
  lead_id : string;
  attempt_no : Z;
  timestamp : Z;
  outcome : Outcome;
  region : option string;
  call_id : option string
}.

(** The timestamps of a result are instants as well ([toISOString] of a
    [Date]); the result's [attempt_no] is [result_attempt_no]. *)
Record ScheduleResult := mkResult {
  eligible : bool;
  next_attempt_ts : option Z;
  block_reason : option string;
  result_attempt_no : option Z;
  retry_after_ts : option Z
}.

Record TimeWindow := mkWindow { window_start : Z; window_end : Z }.

Definition DEFAULT_WINDOW : TimeWindow := mkWindow 13 21.

Definition REGION_TIME_WINDOWS : list (string * TimeWindow) :=
  [ ("US_EAST", mkWindow 13 21);
    ("US_WEST", mkWindow 17 1);
    ("EU", mkWindow 8 16);
    ("APAC", mkWindow 0 8);
    ("DEFAULT", DEFAULT_WINDOW) ].

Definition AttemptStore := JsMap.t (list AttemptRecord).

Definition getAttempts (attemptStore : AttemptStore) (leadId : string) : list AttemptRecord :=
  JsMap.getList attemptStore leadId.

(** [recordAttempt]: [uuid] is the identifier [uuidv4()] draws. *)
Definition recordAttempt (attemptStore : AttemptStore) (uuid : string)
    (leadId : string) (attemptNo : Z) (ts : Z) (oc : Outcome)
    (rg : option string) (cid : option string) : AttemptRecord * AttemptStore :=
  let attempts := getAttempts attemptStore leadId in
  let newAttempt := mkAttempt uuid leadId attemptNo ts oc rg cid in
  (newAttempt, JsMap.set attemptStore leadId (attempts ++ [newAttempt])).

Definition getAttemptsInWindow (attempts : list AttemptRecord) (windowStart windowEnd : Z)
  : list AttemptRecord :=
  filter (fun attempt =>
            let attemptTime := timestamp attempt in
            (windowStart <=? attemptTime) && (attemptTime <? windowEnd))%bool
         attempts.

(** [clock] is the instant [new Date()] reads. *)
Definition getAttemptsThisWeek (clock : Z) (attempts : list AttemptRecord)
  : list AttemptRecord :=
  let now := clock in
  let dayOfWeek := getUTCDay now in
  let monday := shiftUTCDate now (- ((dayOfWeek + 6) mod 7)) in
  let monday := setUTCHours4 monday 0 0 0 0 in
  let nextMonday := shiftUTCDate monday 7 in
  getAttemptsInWindow attempts monday nextMonday.

(** Insertion into a list sorted by the comparator
    [(a, b) => b.timestamp - a.timestamp]; [a] goes before the elements it
    does not compare greater than. *)
Fixpoint insertByTimestampDesc (a : AttemptRecord) (sorted : list AttemptRecord)
  : list AttemptRecord :=
  match sorted with
  | [] => [a]
  | b :: rest =>
      if timestamp b - timestamp a <=? 0
      then a :: b :: rest
      else b :: insertByTimestampDesc a rest
  end.

(** [[...attempts].sort(...)]: [Array.prototype.sort] is stable, so its
    result is the one a stable insertion sort produces. *)
Definition sortByTimestampDesc (attempts : list AttemptRecord) : list AttemptRecord :=
  fold_right insertByTimestampDesc [] attempts.

Definition getLastAttempt (attempts : list AttemptRecord) : option AttemptRecord :=
  if (Z.of_nat (List.length attempts) =? 0) then None
  else hd_error (sortByTimestampDesc attempts).

(** [diffMs / (1000 * 60 * 60) >= 24]; on an integer [diffMs] the quotient
    reaches 24 exactly when [diffMs] reaches 24 hours. *)
Definition has24HourSpacing (lastAttempt : AttemptRecord) (now : Z) : bool :=
  let lastAttemptTime := timestamp lastAttempt in
  let diffMs := now - lastAttemptTime in
  24 * msPerHour <=? diffMs.

(** [n || 0] on a number. *)
Definition orZero (n : Z) : Z := if n =? 0 then 0 else n.

Definition getNextAttemptNo (attempts : list AttemptRecord) : Z :=
  if (Z.of_nat (List.length attempts) =? 0) then 1
  else
    match getLastAttempt attempts with
    | Some lastAttempt => orZero (attempt_no lastAttempt) + 1
    | None => 0 + 1
    end.

Definition isVoicemailAllowed (attemptNo : Z) : bool := attemptNo =? 2.

Fixpoint lookupWindow (table : list (string * TimeWindow)) (region : string)
  : option TimeWindow :=
  match table with
  | [] => None
  | (k, w) :: rest => if String.eqb k region then Some w else lookupWindow rest region
  end.

(** The names a plain object inherits from [Object.prototype].  On them
    [REGION_TIME_WINDOWS[region]] is truthy and is no window: its [start]
    and [end] are [undefined], [getNextTimeInWindow] returns an invalid
    [Date] and [scheduleAttempt], outside its busy retry, throws. *)
Definition objectPrototypeNames : list string :=
  [ "constructor"; "__proto__"; "hasOwnProperty"; "isPrototypeOf";
    "propertyIsEnumerable"; "toLocaleString"; "toString"; "valueOf";
    "__defineGetter__"; "__defineSetter__"; "__lookupGetter__"; "__lookupSetter__" ].

Definition inheritedName (region : string) : bool :=
  existsb (String.eqb region) objectPrototypeNames.

(** [REGION_TIME_WINDOWS[region] || REGION_TIME_WINDOWS.DEFAULT], for region
    names that are not members of [Object.prototype]
    ([inheritedName region = false]). *)
Definition getTimeWindow (region : string) : TimeWindow :=
  match lookupWindow REGION_TIME_WINDOWS region with
  | Some w => w
  | None => DEFAULT_WINDOW
  end.

Definition getNextTimeInWindow (now : Z) (window : TimeWindow) : Z :=
  let nextTime := now in
  let currentHour := getUTCHours nextTime in
  if window_end window <? window_start window then
    (* Window wraps to next day *)
    if ((window_start window <=? currentHour) || (currentHour <? window_end window))%bool then
      setUTCMinutes3 nextTime (getUTCMinutes nextTime + 1) 0 0
    else if window_end window <=? currentHour then
      setUTCHours4 nextTime (window_start window) 0 0 0
    else
      setUTCHours4 nextTime (window_start window) 0 0 0
  else if currentHour <? window_start window then
    setUTCHours4 nextTime (window_start window) 0 0 0
  else if currentHour <? window_end window then
    setUTCMinutes3 nextTime (getUTCMinutes nextTime + 1) 0 0
  else
    setUTCHours4 (shiftUTCDate nextTime 1) (window_start window) 0 0 0.

Definition Outcome_eqb (a b : Outcome) : bool :=
  match a, b with
  | answered, answered | no_answer, no_answer | busy, busy
  | voicemail, voicemail | failed, failed | opt_out, opt_out => true
  | _, _ => false
  end.

(** [diffMs / (1000 * 60) < 15] is [diffMs < 15 * (1000 * 60)] on an
    integer [diffMs]. *)
Definition getBusyRetryTime (lastAttempt : AttemptRecord) (now : Z) : option Z :=
  if negb (Outcome_eqb (outcome lastAttempt) busy) then None
  else
    let lastAttemptTime := timestamp lastAttempt in
    let diffMs := now - lastAttemptTime in
    if diffMs <? 15 * msPerMinute then
      let retryTime := lastAttemptTime in
      Some (setUTCMinutes1 retryTime (getUTCMinutes retryTime + 15))
    else None.

Definition isSome {A : Type} (x : option A) : bool :=
  match x with
  | Some _ => true
  | None => false
  end.

(** [scheduleAttempt(leadId, region = 'DEFAULT', currentTime?)]; [clock] is
    the wall clock at the call.  This is the result of the calls that
    return: with a region that is an inherited name, or when an instant it
    computes leaves the range of [Date], the code throws instead
    ([toISOString] on an invalid [Date]). *)
Definition scheduleAttempt (attemptStore : AttemptStore) (clock : Z)
    (leadId : string) (region : option string) (currentTime : option Z)
  : ScheduleResult :=
  let region := match region with Some r => r | None => "DEFAULT" end in
  let now := match currentTime with Some t => t | None => clock end in
  let attempts := getAttempts attemptStore leadId in
  let attemptsThisWeek := getAttemptsThisWeek clock attempts in
  let lastAttempt := getLastAttempt attempts in
  (* Check weekly limit (3 attempts per week) *)
  if 3 <=? Z.of_nat (List.length attemptsThisWeek) then
    let dayOfWeek := getUTCDay now in
    let monday := shiftUTCDate now (- ((dayOfWeek + 6) mod 7)) in
    let monday := shiftUTCDate monday 7 in
    let monday := setUTCHours4 monday 0 0 0 0 in
    let window := getTimeWindow region in
    let nextTime := getNextTimeInWindow monday window in
    mkResult false (Some nextTime) (Some "WEEKLY_LIMIT_EXCEEDED") None None
  else
    let busyRetry :=
      match lastAttempt with
      | Some la =>
          match getBusyRetryTime la now with
          | Some t => if now <? t then Some (la, t) else None
          | None => None
          end
      | None => None
      end in
    match busyRetry with
    | Some (la, t) =>
        (* Same attempt number for retry *)
        mkResult true (Some t) None (Some (attempt_no la)) (Some t)
    | None =>
        let spacingBlock :=
          match lastAttempt with
          | Some la =>
              if negb (has24HourSpacing la now) then
                let isBusyRetry :=
                  (Outcome_eqb (outcome la) busy && isSome (getBusyRetryTime la now))%bool in
                if negb isBusyRetry then Some la else None
              else None
          | None => None
          end in
        match spacingBlock with
        | Some la =>
            let nextTime := timestamp la in
            let nextTime := setUTCHours1 nextTime (getUTCHours nextTime + 24) in
            let window := getTimeWindow region in
            let windowedTime := getNextTimeInWindow nextTime window in
            mkResult false (Some windowedTime) (Some "INSUFFICIENT_SPACING")
                     (Some (getNextAttemptNo attempts)) None
        | None =>
            let window := getTimeWindow region in
            let currentHour := getUTCHours now in
            let canCallNow :=
              if window_end window <? window_start window
              then ((window_start window <=? currentHour)
                    || (currentHour <? window_end window))%bool
              else ((window_start window <=? currentHour)
                    && (currentHour <? window_end window))%bool in
            if canCallNow then
              mkResult true (Some now) None (Some (getNextAttemptNo attempts)) None
            else
              let nextTime := getNextTimeInWindow now window in
              mkResult false (Some nextTime) (Some "OUTSIDE_TIME_WINDOW")
                       (Some (getNextAttemptNo attempts)) None
        end
    end.

Definition isVoicemailAllowedForLead (attemptStore : AttemptStore) (leadId : string) : bool :=
  let attempts := getAttempts attemptStore leadId in
  let nextAttemptNo := getNextAttemptNo attempts in
  isVoicemailAllowed nextAttemptNo.

Definition clearAttempts (attemptStore : AttemptStore) (leadId : string) : AttemptStore :=
  JsMap.delete attemptStore leadId.

(** *** Vocabulary of the properties and the scenarios of the test suite *)

(** Monday 00:00 UTC of the ISO week that contains [t]. *)
Definition weekStart (t : Z) : Z :=
  (t - t mod msPerDay) - ((getUTCDay t + 6) mod 7) * msPerDay.

(** [currentTime || new Date()] *)
Definition evaluationTime (clock : Z) (currentTime : option Z) : Z :=
  match currentTime with
  | Some t => t
  | None => clock
  end.

(** [region = 'DEFAULT'] *)
Definition regionOrDefault (region : option string) : string :=
  match region with
  | Some r => r
  | None => "DEFAULT"
  end.

(** Whether the hour [h] lies in the daily window: the test [canCallNow]. *)
Definition inWindow (window : TimeWindow) (h : Z) : bool :=
  if window_end window <? window_start window
  then ((window_start window <=? h) || (h <? window_end window))%bool
  else ((window_start window <=? h) && (h <? window_end window))%bool.

(** Attempts carry the numbers [n], [n + 1], ... in recording order. *)
Fixpoint numberedFrom (n : Z) (attempts : list AttemptRecord) : Prop :=
  match attempts with
  | [] => True
  | a :: rest => attempt_no a = n /\ numberedFrom (n + 1) rest
  end.

(** Each attempt is strictly later than the ones recorded before it. *)
Fixpoint chronological (attempts : list AttemptRecord) : Prop :=
  match attempts with
  | [] => True
  | a :: rest => Forall (fun b => timestamp a < timestamp b) rest /\ chronological rest
  end.

(** [a] is the most recent attempt of the history: it is recorded, and
    every other recorded attempt is strictly earlier. *)
Definition mostRecent (a : AttemptRecord) (attempts : list AttemptRecord) : Prop :=
  In a attempts /\ forall b, In b attempts -> b = a \/ timestamp b < timestamp a.

(** [recordAttempt] for lead [lead-1], keeping the store only. *)
Definition record (attemptStore : AttemptStore) (attemptNo ts : Z) (oc : Outcome)
  : AttemptStore :=
  snd (recordAttempt attemptStore "00000000-0000-4000-8000-000000000000"
                     "lead-1" attemptNo ts oc None None).

(** 2024-03-15T14:00:00.000Z, a Friday. *)
Definition friday14h : Z := 1710511200000.

(** Three unanswered attempts on Monday, Tuesday and Wednesday of that week
    at 14:00 UTC. *)
Definition threeThisWeek : AttemptStore :=
  record (record (record [] 1 1710165600000 no_answer) 2 1710252000000 no_answer)
         3 1710338400000 no_answer.

(** One unanswered attempt on Friday at 14:00 UTC. *)
Definition oneNoAnswer : AttemptStore := record [] 1 friday14h no_answer.

(** One busy attempt on Friday at 14:00 UTC. *)
Definition oneBusy : AttemptStore := record [] 1 friday14h busy.

(** Two attempts, numbered 1 and 2, recorded in the same millisecond. *)
Definition twoAtOnce : AttemptStore :=
  record (record [] 1 friday14h no_answer) 2 friday14h voicemail.

(** An unanswered attempt 1 on Thursday at 12:00 UTC and an attempt 2 with
    outcome [oc] on Friday at 14:00 UTC. *)
Definition thursdayThenFriday (oc : Outcome) : AttemptStore :=
  record (record [] 1 (friday14h - 26 * msPerHour) no_answer) 2 friday14h oc.

(** Attempt 1, unanswered, and attempt 2, busy, recorded in the same
    millisecond. *)
Definition noAnswerThenBusy : AttemptStore :=
  record (record [] 1 friday14h no_answer) 2 friday14h busy.

(** Attempt 1, busy, and attempt 2, unanswered, recorded in the same
    millisecond. *)
Definition busyThenNoAnswer : AttemptStore :=
  record (record [] 1 friday14h busy) 2 friday14h no_answer.

End Attempts.


(** *** Further vocabulary for the attempt scheduler *)

Module AttemptsVocabulary.
Import JsDate Attempts.


(** The three block reasons. *)
Definition blockReasons : list string :=
  ["WEEKLY_LIMIT_EXCEEDED"; "INSUFFICIENT_SPACING"; "OUTSIDE_TIME_WINDOW"].

(** The shape every result of [scheduleAttempt] has. *)
Definition wellShaped (r : ScheduleResult) : Prop :=
  next_attempt_ts r <> None
  /\ (eligible r = true <-> block_reason r = None)
  /\ (block_reason r = None \/ exists reason, block_reason r = Some reason /\ In reason blockReasons)
  /\ (result_attempt_no r = None <-> block_reason r = Some "WEEKLY_LIMIT_EXCEEDED")
  /\ (retry_after_ts r = None
      \/ (eligible r = true /\ retry_after_ts r = next_attempt_ts r)).

(** 2024-03-15T20:59:30.000Z, in the last minute of the US_EAST window. *)
Definition friday2059 : Z := 1710536370000.

End AttemptsVocabulary.
(** ** Contracts used by the calendar (contracts/index.ts) *)

Module Contracts.
Import Js.

Definition isDigit (c : ascii) : bool :=
  let n := nat_of_ascii c in (Nat.leb 48 n && Nat.leb n 57)%bool.

Definition isAlnum (c : ascii) : bool :=
  let n := nat_of_ascii c in
  ((Nat.leb 48 n && Nat.leb n 57) || (Nat.leb 65 n && Nat.leb n 90)
   || (Nat.leb 97 n && Nat.leb n 122))%bool.

(** Whole-string match against a template in which [d] stands for [\d] and
    every other character for itself. *)
Fixpoint matchesTemplate (template s : string) : bool :=
  match template, s with
  | EmptyString, EmptyString => true
  | String p template', String c s' =>
      ((if Ascii.eqb p "d" then isDigit c else Ascii.eqb p c)
       && matchesTemplate template' s')%bool
  | _, _ => false
  end.

(** [/^\d{4}-\d{2}-\d{2}T\d{2}:\d{2}:\d{2}(\.\d{3})?Z$/.test(s)] *)
Definition rfc3339UtcRegex (s : string) : bool :=
  (matchesTemplate "dddd-dd-ddTdd:dd:ddZ" s
   || matchesTemplate "dddd-dd-ddTdd:dd:dd.dddZ" s)%bool.

Fixpoint allChars (p : ascii -> bool) (s : string) : bool :=
  match s with
  | EmptyString => true
  | String c s' => (p c && allChars p s')%bool
  end.

(** [/^[a-zA-Z0-9]{15}$|^[a-zA-Z0-9]{18}$/] *)
Definition salesforceIdString (s : string) : bool :=
  (allChars isAlnum s
   && (Nat.eqb (String.length s) 15 || Nat.eqb (String.length s) 18))%bool.

(** [ttl_seconds] and the other numeric fields are integers. *)
Record CalendarHold := mkHold {
  tentative_id : string;
  hold_manager_id : string;
  hold_start_utc : string;
  hold_end_utc : string;
  created_by : string;
  ttl_seconds : Z
}.

Record CalendarEvent := mkEvent {
  meeting_id : string;
  manager_id : string;
  contact_email : option string;
  title : string;
  start_utc : string;
  end_utc : string;
  location : option string;
  meeting_url : option string;
  timezone : string;
  description : option string;
  invitees_emails : list string;
  source_system : string;
  iCal_uid : option string
}.

Definition nullable (check : string -> bool) (x : option string) : bool :=
  match x with
  | Some s => check s
  | None => true
  end.

Section Zod.

(** The format checks built into zod: [z.string().uuid()],
    [z.string().email()] and [z.string().url()]. *)
Variable uuidString : string -> bool.
Variable emailString : string -> bool.
Variable urlString : string -> bool.

Definition httpsUrlString (s : string) : bool :=
  (urlString s && startsWith s "https://")%bool.

(** [CalendarHoldSchema.safeParse(hold).success] *)
Definition CalendarHoldSchema (h : CalendarHold) : bool :=
  (uuidString (tentative_id h)
   && salesforceIdString (hold_manager_id h)
   && rfc3339UtcRegex (hold_start_utc h)
   && rfc3339UtcRegex (hold_end_utc h)
   && String.eqb (created_by h) "system"
   && (300 <=? ttl_seconds h) && (ttl_seconds h <=? 1800))%bool.

(** [CalendarEventSchema.safeParse(event).success] *)
Definition CalendarEventSchema (e : CalendarEvent) : bool :=
  (uuidString (meeting_id e)
   && salesforceIdString (manager_id e)
   && nullable emailString (contact_email e)
   && Nat.leb (String.length (title e)) 200
   && rfc3339UtcRegex (start_utc e)
   && rfc3339UtcRegex (end_utc e)
   && nullable httpsUrlString (meeting_url e)
   && Nat.leb 1 (String.length (timezone e))
   && forallb emailString (invitees_emails e)
   && String.eqb (source_system e) "ai-outbound"
   && match iCal_uid e with Some u => uuidString u | None => false end)%bool.

(** [preWriteGate({ type: 'calendar', payload }).valid]: the idempotency
    key is present, the schema accepts the payload, and the fields whose
    key contains [_utc] are RFC 3339 UTC strings. *)
Definition preWriteGate (payload : CalendarEvent) : bool :=
  (truthyStr (iCal_uid payload)
   && CalendarEventSchema payload
   && rfc3339UtcRegex (start_utc payload)
   && rfc3339UtcRegex (end_utc payload))%bool.

End Zod.

End Contracts.

(** ** Calendar reservation engine (calendar/service.ts) *)

Module Calendar.
Import Js Contracts.

Record HoldCacheEntry := mkEntry {
  hold : CalendarHold;
  expires_at : Z
}.

(** The four module-level maps. *)
Record Stores := mkStores {
  eventStore : JsMap.t CalendarEvent;
  holdStore : JsMap.t HoldCacheEntry;
  managerEvents : JsMap.t (list CalendarEvent);
  managerHolds : JsMap.t (list HoldCacheEntry)
}.

Definition emptyStores : Stores := mkStores [] [] [] [].

Definition BUFFER_MS : Z := 10 * 60 * 1000.

(** Results of [placeHold] and [createEvent].  Of the messages built from
    zod's error list only the fixed prefix is kept. *)
Record PlaceHoldResult := mkPlaceHoldResult {
  ph_success : bool;
  ph_tentative_id : option string;
  ph_error : option string
}.

Record CreateEventResult := mkCreateEventResult {
  ce_success : bool;
  ce_meeting_url : option string;
  ce_iCal_uid : option string;
  ce_error : option string
}.

(** What a call of [createEvent] leaves behind: the value it returns, the
    event object it was given (whose [iCal_uid] it may have filled in) and
    the stores. *)
Record CreateEventOutcome := mkOutcome {
  returned : CreateEventResult;
  event_left : CalendarEvent;
  stores_left : Stores
}.

Definition OVERLAP_ERROR : string :=
  "Time slot overlaps with existing event or hold (including 10-minute buffers)".

(** Numbers that may be [NaN] ([None]): arithmetic propagates it and every
    comparison with it is false. *)
Definition ltNum (a b : option Z) : bool :=
  match a, b with
  | Some x, Some y => x <? y
  | _, _ => false
  end.

Definition addNum (a : option Z) (k : Z) : option Z := option_map (fun x => x + k) a.

(** The overlap test of [hasOverlap], written once for events and holds. *)
Definition overlapsBuffered (startWithBuffer endWithBuffer otherStart otherEnd : option Z)
  : bool :=
  ((ltNum startWithBuffer otherEnd && ltNum otherStart endWithBuffer)
   || (ltNum otherStart endWithBuffer && ltNum startWithBuffer otherEnd))%bool.

Definition removeHold (tentativeId managerId : string)
    (mh : JsMap.t (list HoldCacheEntry)) (holds : list HoldCacheEntry)
  : JsMap.t (list HoldCacheEntry) :=
  let updatedHolds :=
    filter (fun h => negb (String.eqb (tentative_id (hold h)) tentativeId)) holds in
  if Z.of_nat (List.length updatedHolds) =? 0
  then JsMap.delete mh managerId
  else JsMap.set mh managerId updatedHolds.

(** The loop of [cleanupExpiredHolds] over the entries of [holdStore]. *)
Fixpoint cleanupLoop (now : Z) (entries : list (string * HoldCacheEntry)) (st : Stores)
  : Stores :=
  match entries with
  | [] => st
  | (tentativeId, entry) :: rest =>
      let st :=
        if expires_at entry <=? now then
          let managerId := hold_manager_id (hold entry) in
          let holds := JsMap.getList (managerHolds st) managerId in
          mkStores (eventStore st)
                   (JsMap.delete (holdStore st) tentativeId)
                   (managerEvents st)
                   (removeHold tentativeId managerId (managerHolds st) holds)
        else st in
      cleanupLoop now rest st
  end.

(** [now] is the reading of [Date.now()]. *)
Definition cleanupExpiredHolds (now : Z) (st : Stores) : Stores :=
  cleanupLoop now (holdStore st) st.

Section Service.

(** [new Date(s).getTime()]; [None] is [NaN]. *)
Variable getTime : string -> option Z.
(** [createHash('sha256').update(input).digest('hex')] *)
Variable sha256Hex : string -> string.
Variable uuidString : string -> bool.
Variable emailString : string -> bool.
Variable urlString : string -> bool.

Definition hasOverlap (now : Z) (st : Stores) (managerId startUtc endUtc : string)
    (excludeTentativeId : option string) : bool * Stores :=
  let start := getTime startUtc in
  let end_ := getTime endUtc in
  let startWithBuffer := addNum start (- BUFFER_MS) in
  let endWithBuffer := addNum end_ BUFFER_MS in
  (* Check events *)
  let events := JsMap.getList (managerEvents st) managerId in
  if existsb (fun event =>
                overlapsBuffered startWithBuffer endWithBuffer
                  (getTime (start_utc event)) (getTime (end_utc event)))
             events
  then (true, st)
  else
    (* Check holds *)
    let st := cleanupExpiredHolds now st in
    let holds := JsMap.getList (managerHolds st) managerId in
    (existsb (fun entry =>
                if (truthyStr excludeTentativeId
                    && String.eqb (tentative_id (hold entry)) (orEmpty excludeTentativeId))%bool
                then false
                else
                  overlapsBuffered startWithBuffer endWithBuffer
                    (getTime (hold_start_utc (hold entry)))
                    (getTime (hold_end_utc (hold entry))))
             holds,
     st).

(** [placeHold({ manager_id, start_utc, end_utc, ttl_seconds })]; [uuid] is
    the identifier [uuidv4()] draws. *)
Definition placeHold (now : Z) (uuid : string) (st : Stores)
    (managerId startUtc endUtc : string) (ttlSeconds : Z)
  : PlaceHoldResult * Stores :=
  (* Validate TTL *)
  if ((ttlSeconds <? 300) || (1800 <? ttlSeconds))%bool then
    (mkPlaceHoldResult false None (Some "ttl_seconds must be between 300 and 1800"), st)
  else
    (* Check for overlaps *)
    let st := cleanupExpiredHolds now st in
    let (overlap, st) := hasOverlap now st managerId startUtc endUtc None in
    if overlap then (mkPlaceHoldResult false None (Some OVERLAP_ERROR), st)
    else
      (* Create hold *)
      let tentativeId := uuid in
      let hold := mkHold tentativeId managerId startUtc endUtc "system" ttlSeconds in
      (* Validate using schema *)
      if negb (CalendarHoldSchema uuidString hold) then
        (mkPlaceHoldResult false None (Some "Validation failed: "), st)
      else
        (* Store hold *)
        let expiresAt := now + ttlSeconds * 1000 in
        let entry := mkEntry hold expiresAt in
        let holds := JsMap.getList (managerHolds st) managerId in
        (mkPlaceHoldResult true (Some tentativeId) None,
         mkStores (eventStore st)
                  (JsMap.set (holdStore st) tentativeId entry)
                  (managerEvents st)
                  (JsMap.set (managerHolds st) managerId (holds ++ [entry]))).

(** [hash.substring(from, to)] *)
Definition substring (s : string) (from to : nat) : string :=
  String.substring from (to - from) s.

Definition generateICalUid (bookingId startUtc : string) : string :=
  let input := (bookingId ++ startUtc)%string in
  let hash := sha256Hex input in
  (substring hash 0 8 ++ "-" ++ substring hash 8 12 ++ "-" ++ substring hash 12 16
   ++ "-" ++ substring hash 16 20 ++ "-" ++ substring hash 20 32)%string.

Definition withICalUid (event : CalendarEvent) (uid : string) : CalendarEvent :=
  mkEvent (meeting_id event) (manager_id event) (contact_email event) (title event)
          (start_utc event) (end_utc event) (location event) (meeting_url event)
          (timezone event) (description event) (invitees_emails event)
          (source_system event) (Some uid).

(** [Math.abs(holdStart - eventStart) < 1000] *)
Definition within1s (holdStart eventStart : option Z) : bool :=
  match holdStart, eventStart with
  | Some h, Some e => Z.abs (h - e) <? 1000
  | _, _ => false
  end.

Definition createEvent (now : Z) (st : Stores) (event : CalendarEvent)
  : CreateEventOutcome :=
  (* Generate deterministic iCal UID if not provided (before validation) *)
  let event :=
    if negb (truthyStr (iCal_uid event))
    then
      let bookingId := meeting_id event in
      withICalUid event (generateICalUid bookingId (start_utc event))
    else event in
  (* Validate using pre-write gate *)
  if negb (preWriteGate uuidString emailString urlString event) then
    mkOutcome (mkCreateEventResult false None None (Some "Validation failed: ")) event st
  else
    (* Check for overlaps (excluding the hold if it exists) *)
    let st := cleanupExpiredHolds now st in
    let holds := JsMap.getList (managerHolds st) (manager_id event) in
    let matchingHold :=
      find (fun entry =>
              within1s (getTime (hold_start_utc (hold entry))) (getTime (start_utc event)))
           holds in
    let (overlap, st) :=
      hasOverlap now st (manager_id event) (start_utc event) (end_utc event)
                 (option_map (fun entry => tentative_id (hold entry)) matchingHold) in
    if overlap then
      mkOutcome (mkCreateEventResult false None None (Some OVERLAP_ERROR)) event st
    else
      (* Validate final event with schema *)
      if negb (CalendarEventSchema uuidString emailString urlString event) then
        mkOutcome (mkCreateEventResult false None None (Some "Schema validation failed: "))
                  event st
      else
        (* Store event *)
        let validatedEvent := event in
        let eventStore' := JsMap.set (eventStore st) (meeting_id validatedEvent) validatedEvent in
        let events := JsMap.getList (managerEvents st) (manager_id validatedEvent) in
        let managerEvents' :=
          JsMap.set (managerEvents st) (manager_id validatedEvent) (events ++ [validatedEvent]) in
        (* Expire matching hold if exists *)
        let st :=
          match matchingHold with
          | Some m =>
              mkStores eventStore'
                       (JsMap.delete (holdStore st) (tentative_id (hold m)))
                       managerEvents'
                       (removeHold (tentative_id (hold m)) (manager_id validatedEvent)
                                   (managerHolds st) holds)
          | None => mkStores eventStore' (holdStore st) managerEvents' (managerHolds st)
          end in
        (* Generate fake conferencing URL *)
        let meetingUrl := ("https://meet.example.com/" ++ meeting_id validatedEvent)%string in
        mkOutcome (mkCreateEventResult true (Some meetingUrl) (iCal_uid validatedEvent) None)
                  event st.

End Service.

(** *** Vocabulary of the properties and the scenarios of the test suite *)

(** The reservations on a manager's timeline at [now]: the events and the
    holds left once the expired ones are purged, as (start, end) pairs. *)
Definition reservations (now : Z) (st : Stores) (managerId : string)
  : list (string * string) :=
  map (fun e => (start_utc e, end_utc e)) (JsMap.getList (managerEvents st) managerId)
  ++ map (fun h => (hold_start_utc (hold h), hold_end_utc (hold h)))
         (JsMap.getList (managerHolds (cleanupExpiredHolds now st)) managerId).

(** The overlap test of a candidate (startUtc, endUtc) against one
    reservation. *)
Definition conflictsWith (getTime : string -> option Z) (startUtc endUtc : string)
    (r : string * string) : bool :=
  overlapsBuffered (addNum (getTime startUtc) (- BUFFER_MS))
                   (addNum (getTime endUtc) BUFFER_MS)
                   (getTime (fst r)) (getTime (snd r)).

(** Whether [k] is the key of an entry of [entries] that has expired. *)
Definition expiredKey (now : Z) (entries : list (string * HoldCacheEntry)) (k : string)
  : bool :=
  existsb (fun kv => (String.eqb (fst kv) k && (expires_at (snd kv) <=? now))%bool) entries.

Definition MINUTE : Z := 60 * 1000.

(** The instants of the timestamps the test suite uses, standing for
    [new Date(s).getTime()] on them. *)
Definition testInstants : list (string * Z) :=
  [ ("2024-03-15T13:51:00.000Z", 1710510660000);
    ("2024-03-15T14:00:00.000Z", 1710511200000);
    ("2024-03-15T14:21:00.000Z", 1710512460000);
    ("2024-03-15T14:30:00.000Z", 1710513000000);
    ("2024-03-15T14:41:00.000Z", 1710513660000);
    ("2024-03-15T15:11:00.000Z", 1710515460000) ].

Definition testGetTime (s : string) : option Z := JsMap.get testInstants s.

(** Stand-ins for the digest and for zod's format checks in the scenarios. *)
Definition testDigest (input : string) : string :=
  "9f86d081884c7d659a2feaa0c55ad015a3bf4f1b2b0b822cd15d6c15b0f00a08".

Definition anyString (s : string) : bool := true.

Definition testManager : string := "005123456789XYZ".

Definition testEvent (meetingId : string) : CalendarEvent :=
  {| meeting_id := meetingId;
     manager_id := testManager;
     contact_email := None;
     title := "Discovery Meeting";
     start_utc := "2024-03-15T14:00:00.000Z";
     end_utc := "2024-03-15T14:30:00.000Z";
     location := None;
     meeting_url := None;
     timezone := "America/New_York";
     description := None;
     invitees_emails := ["manager@company.com"];
     source_system := "ai-outbound";
     iCal_uid := None |}.

(** The same event under another title and with other invitees. *)
Definition retitled (event : CalendarEvent) : CalendarEvent :=
  mkEvent (meeting_id event) (manager_id event) (contact_email event) "Follow-up"
          (start_utc event) (end_utc event) (location event) (meeting_url event)
          (timezone event) (description event) [] (source_system event) (iCal_uid event).

(** The stores after a hold on 14:00-14:30 is placed at instant 0. *)
Definition oneHold : Stores :=
  snd (placeHold testGetTime anyString 0 "11111111-1111-4111-8111-111111111111"
                 emptyStores testManager
                 "2024-03-15T14:00:00.000Z" "2024-03-15T14:30:00.000Z" 1800).

End Calendar.


(** *** The remaining operations of the calendar and further vocabulary *)

Module CalendarMoreOps.
Import Js Contracts Calendar.

Definition getEvent (st : Stores) (meetingId : string) : option CalendarEvent :=
  JsMap.get (eventStore st) meetingId.

Definition getManagerEvents (st : Stores) (managerId : string) : list CalendarEvent :=
  JsMap.getList (managerEvents st) managerId.

(** [getHold(tentativeId)]: the hold found once the expired holds are
    purged, and the stores the purge leaves. *)
Definition getHold (now : Z) (st : Stores) (tentativeId : string)
  : option CalendarHold * Stores :=
  let st := cleanupExpiredHolds now st in
  let entry := JsMap.get (holdStore st) tentativeId in
  (option_map hold entry, st).

(** Whether the purge at [now] drops the hold [id] from the list of
    [managerId]: some entry of [entries] under that key has expired and
    belongs to that manager. *)
Definition purged (now : Z) (entries : list (string * HoldCacheEntry))
    (managerId id : string) : bool :=
  existsb (fun kv => ((expires_at (snd kv) <=? now)
                      && String.eqb (hold_manager_id (hold (snd kv))) managerId
                      && String.eqb (fst kv) id)%bool)
          entries.

(** The interval of an event and of a cached hold. *)
Definition eventInterval (e : CalendarEvent) : string * string :=
  (start_utc e, end_utc e).

Definition holdInterval (h : HoldCacheEntry) : string * string :=
  (hold_start_utc (hold h), hold_end_utc (hold h)).

(** Whether [hasOverlap] skips the entry: it carries the excluded
    identifier. *)
Definition skipped (excludeTentativeId : option string) (entry : HoldCacheEntry) : bool :=
  (truthyStr excludeTentativeId
   && String.eqb (tentative_id (hold entry)) (orEmpty excludeTentativeId))%bool.

(** Everything on record for a manager, expired holds included. *)
Definition recorded (st : Stores) (managerId : string) : list (string * string) :=
  map (fun e => (start_utc e, end_utc e)) (JsMap.getList (managerEvents st) managerId)
  ++ map (fun h => (hold_start_utc (hold h), hold_end_utc (hold h)))
         (JsMap.getList (managerHolds st) managerId).



(** The stores [placeHold] leaves when it accepts a hold, given the purged
    stores [st1]. *)
Definition withHold (st1 : Stores) (entry : HoldCacheEntry) : Stores :=
  mkStores (eventStore st1)
           (JsMap.set (holdStore st1) (tentative_id (hold entry)) entry)
           (managerEvents st1)
           (JsMap.set (managerHolds st1) (hold_manager_id (hold entry))
                      (JsMap.getList (managerHolds st1) (hold_manager_id (hold entry))
                       ++ [entry])).

(** The event as [createEvent] leaves it: a missing UID is filled in with
    the derived one. *)
Definition filledIn (sha256Hex : string -> string) (event : CalendarEvent) : CalendarEvent :=
  if negb (truthyStr (iCal_uid event))
  then withICalUid event (generateICalUid sha256Hex (meeting_id event) (start_utc event))
  else event.

(** The hold [createEvent] takes to be the one being promoted: the first
    hold of the manager that starts within a second of the event. *)
Definition matchingHold (getTime : string -> option Z) (st1 : Stores) (event : CalendarEvent)
  : option HoldCacheEntry :=
  find (fun entry =>
          within1s (getTime (hold_start_utc (hold entry))) (getTime (start_utc event)))
       (JsMap.getList (managerHolds st1) (manager_id event)).

(** Whether the event overlaps an event of its manager, or a hold other
    than the one being promoted. *)
Definition clashes (getTime : string -> option Z) (st1 : Stores) (event : CalendarEvent)
  : bool :=
  let exclude := option_map (fun entry => tentative_id (hold entry))
                            (matchingHold getTime st1 event) in
  (existsb (fun e => conflictsWith getTime (start_utc event) (end_utc event) (eventInterval e))
           (JsMap.getList (managerEvents st1) (manager_id event))
   || existsb (fun h => negb (skipped exclude h)
                        && conflictsWith getTime (start_utc event) (end_utc event)
                             (holdInterval h))
              (JsMap.getList (managerHolds st1) (manager_id event)))%bool.

(** The stores [createEvent] leaves when it accepts the event, given the
    purged stores [st1]. *)
Definition withEvent (getTime : string -> option Z) (st1 : Stores) (event : CalendarEvent)
  : Stores :=
  let eventStore' := JsMap.set (eventStore st1) (meeting_id event) event in
  let managerEvents' :=
    JsMap.set (managerEvents st1) (manager_id event)
              (JsMap.getList (managerEvents st1) (manager_id event) ++ [event]) in
  match matchingHold getTime st1 event with
  | Some m =>
      mkStores eventStore'
               (JsMap.delete (holdStore st1) (tentative_id (hold m)))
               managerEvents'
               (removeHold (tentative_id (hold m)) (manager_id event) (managerHolds st1)
                           (JsMap.getList (managerHolds st1) (manager_id event)))
  | None => mkStores eventStore' (holdStore st1) managerEvents' (managerHolds st1)
  end.

Definition meetingUrlOf (event : CalendarEvent) : string :=
  ("https://meet.example.com/" ++ meeting_id event)%string.

Definition TTL_ERROR : string := "ttl_seconds must be between 300 and 1800".

Definition testHoldId : string := "11111111-1111-4111-8111-111111111111".

Definition otherHoldId : string := "22222222-2222-4222-8222-222222222222".

End CalendarMoreOps.
(** *** Availability of a manager (calendar/service.ts, continued) *)

Module CalendarAvailability.
Import Js Contracts Calendar.

(** [AvailabilityWindow]; its fields [from] and [to] are [window_from] and
    [window_to] here. *)
Record AvailabilityWindow := mkWindow {
  window_from : string;
  window_to : string
}.

(** [AvailabilitySlot]; its fields [start_utc] and [end_utc] carry the
    prefix [slot_]. *)
Record AvailabilitySlot := mkSlot {
  slot_start_utc : string;
  slot_end_utc : string;
  available : bool
}.

(** How a call ends: it returns, it throws, or the loop was cut short by
    the bound put on its iterations. *)
Inductive Completion (A : Type) :=
  | Returned (a : A)
  | Thrown
  | Unfinished.

Arguments Returned {A} a.
Arguments Thrown {A}.
Arguments Unfinished {A}.

Definition slotDuration : Z := 30 * 60 * 1000.

Section Availability.

(** [new Date(s).getTime()]; [None] is [NaN]. *)
Variable getTime : string -> option Z.
(** [new Date(t).toISOString()]; [None] is the [RangeError] thrown for a
    time value outside the range of [Date]. *)
Variable toISOString : Z -> option string.

(** The [while (current < to)] loop, run for at most [fuel] tests of its
    condition. *)
Fixpoint slotLoop (fuel : nat) (now : Z) (st : Stores) (managerId : string)
    (current to : Z) (slots : list AvailabilitySlot)
  : Completion (list AvailabilitySlot * Stores) :=
  match fuel with
  | O => Unfinished
  | S fuel =>
      if current <? to then
        match toISOString current with
        | None => Thrown
        | Some slotStart =>
            match toISOString (current + slotDuration) with
            | None => Thrown
            | Some slotEnd =>
                (* Check if slot is available (no overlaps) *)
                let (overlap, st) :=
                  hasOverlap getTime now st managerId slotStart slotEnd None in
                slotLoop fuel now st managerId (current + slotDuration) to
                         (slots ++ [mkSlot slotStart slotEnd (negb overlap)])
            end
        end
      else Returned (slots, st)
  end.

(** A bound on the number of times the loop tests its condition. *)
Definition loopBound (from to : Z) : nat :=
  S (Z.to_nat ((to - from) / slotDuration + 1)).

(** [getAvailability(managerId, window)].  A window bound that does not
    parse compares false with everything, so the loop is not entered. *)
Definition getAvailability (now : Z) (st : Stores) (managerId : string)
    (window : AvailabilityWindow)
  : Completion (list AvailabilitySlot * Stores) :=
  let st := cleanupExpiredHolds now st in
  match getTime (window_from window), getTime (window_to window) with
  | Some from, Some to => slotLoop (loopBound from to) now st managerId from to []
  | _, _ => Returned ([], st)
  end.

(** *** Vocabulary of the properties *)

(** The number of half-hour slots it takes to cover [from, to). *)
Definition slotCount (from to : Z) : nat :=
  Z.to_nat ((to - from + slotDuration - 1) / slotDuration).

Definition isoOrEmpty (t : Z) : string :=
  match toISOString t with
  | Some s => s
  | None => EmptyString
  end.

(** The slot that starts at [t], as reported against the reservations of
    the manager. *)
Definition slotAt (now : Z) (st : Stores) (managerId : string) (t : Z) : AvailabilitySlot :=
  let slotStart := isoOrEmpty t in
  let slotEnd := isoOrEmpty (t + slotDuration) in
  mkSlot slotStart slotEnd
         (negb (existsb (conflictsWith getTime slotStart slotEnd)
                        (reservations now st managerId))).

Fixpoint slotsFrom (n : nat) (now : Z) (st : Stores) (managerId : string) (t : Z)
  : list AvailabilitySlot :=
  match n with
  | O => []
  | S n => slotAt now st managerId t :: slotsFrom n now st managerId (t + slotDuration)
  end.

End Availability.

(** [toISOString] on the instants of the test suite. *)
Definition testToISOString (t : Z) : option string :=
  option_map fst (find (fun kv => snd kv =? t) testInstants).

Definition testWindow : AvailabilityWindow :=
  mkWindow "2024-03-15T14:00:00.000Z" "2024-03-15T14:30:00.000Z".

End CalendarAvailability.
(** ** Call orchestration (agent/orchestrator.ts) *)

(** The three regular expressions the orchestrator matches transcripts
    against, on ASCII text. *)
Module JsRegExp.

Definition isDigitChar (c : ascii) : bool :=
  let n := nat_of_ascii c in (Nat.leb 48 n && Nat.leb n 57)%bool.

(** [\w] *)
Definition isWordChar (c : ascii) : bool :=
  let n := nat_of_ascii c in
  ((Nat.leb 48 n && Nat.leb n 57) || (Nat.leb 65 n && Nat.leb n 90)
   || (Nat.leb 97 n && Nat.leb n 122) || Nat.eqb n 95)%bool.

(** [\s], the ASCII part of it: tab, line feed, vertical tab, form feed,
    carriage return and space. *)
Definition isSpaceChar (c : ascii) : bool :=
  let n := nat_of_ascii c in
  ((Nat.leb 9 n && Nat.leb n 13) || Nat.eqb n 32)%bool.

Definition headIsWord (s : string) : bool :=
  match s with
  | String c _ => isWordChar c
  | EmptyString => false
  end.

Fixpoint standaloneFrom (prevIsWord : bool) (d : ascii) (s : string) : bool :=
  match s with
  | EmptyString => false
  | String c rest =>
      ((Ascii.eqb c d && negb prevIsWord && negb (headIsWord rest))
       || standaloneFrom (isWordChar c) d rest)%bool
  end.

(** [s.match(/\bd\b/)] for a digit [d]: the digit occurs with no word
    character on either side. *)
Definition matchesStandalone (d : ascii) (s : string) : bool :=
  standaloneFrom false d s.

Definition clockAt (s : string) : bool :=
  match s with
  | String a (String b (String c (String d _))) =>
      (isDigitChar a && Ascii.eqb b ":" && isDigitChar c && isDigitChar d)%bool
  | _ => false
  end.

(** [s.match(/\d{1,2}:\d{2}/)]: a digit, a colon and two digits occur in a
    row. *)
Fixpoint matchesClock (s : string) : bool :=
  (clockAt s ||
   match s with
   | EmptyString => false
   | String _ rest => matchesClock rest
   end)%bool.

Fixpoint skipSpaces (s : string) : string :=
  match s with
  | EmptyString => EmptyString
  | String c rest => if isSpaceChar c then skipSpaces rest else s
  end.

Definition meridiemHead (s : string) : bool :=
  match s with
  | String a (String m _) =>
      ((Ascii.eqb (Js.lowerAscii a) "a" || Ascii.eqb (Js.lowerAscii a) "p")
       && Ascii.eqb (Js.lowerAscii m) "m")%bool
  | _ => false
  end.

Definition meridiemAt (s : string) : bool :=
  match s with
  | String d rest => (isDigitChar d && meridiemHead (skipSpaces rest))%bool
  | EmptyString => false
  end.

(** [s.match(/\d{1,2}\s*(am|pm)/i)]: a digit occurs that is followed, after
    any white space, by "am" or "pm" in either case. *)
Fixpoint matchesMeridiem (s : string) : bool :=
  (meridiemAt s ||
   match s with
   | EmptyString => false
   | String _ rest => matchesMeridiem rest
   end)%bool.

End JsRegExp.

Module Orchestrator.
Import Js JsRegExp StateMachine.

(** [CallSession].  The fields that share a name with a field of another
    interface carry the prefix [session_]; the speech providers, the audio
    stream and [mandatory_lines_sent], which no function below reads, are
    left out. *)
Record CallSession := mkSession {
  session_call_id : string;
  session_lead_id : string;
  session_manager_id : option string;
  state_machine : StateMachineState;
  is_active : bool
}.

(** The module state: the [callSessions] map, and the calls made to
    [emitOptOut(leadId, callId)] of the analytics bus, oldest first. *)
Record World := mkWorld {
  callSessions : JsMap.t CallSession;
  optOutsEmitted : list (string * string)
}.

Definition emptyWorld : World := mkWorld [] [].

(** The keyword tests shared by [extractIntent] and
    [extractTimeFromTranscript]. *)
Definition saysFirst (lower : string) : bool :=
  (includes lower "first" || includes lower "option 1" || includes lower "one"
   || matchesStandalone "1" lower)%bool.

Definition saysSecond (lower : string) : bool :=
  (includes lower "second" || includes lower "option 2" || includes lower "two"
   || matchesStandalone "2" lower)%bool.

Definition saysAgreed (lower : string) : bool :=
  (includes lower "yes" || includes lower "sure" || includes lower "that works"
   || includes lower "sounds good")%bool.

Definition extractIntent (text : string) (state : State) : option Intent :=
  let lower := toLowerCase text in
  (* Opt-out keywords *)
  if (includes lower "stop" || includes lower "remove" || includes lower "do not call"
      || includes lower "dont call" || includes lower "opt out"
      || includes lower "unsubscribe")%bool
  then Some opt_out
  (* Consent keywords *)
  else if ((includes lower "yes" || includes lower "sure" || includes lower "ok"
            || includes lower "okay")
           && State_eqb state ConsentGate)%bool
  then Some consent
  (* Transfer keywords *)
  else if (includes lower "transfer" || includes lower "speak to"
           || includes lower "human")%bool
  then Some transfer
  (* Confirmation keywords *)
  else if ((includes lower "yes" || includes lower "confirm"
            || includes lower "sounds good" || includes lower "that works")
           && State_eqb state Confirm)%bool
  then Some confirm
  (* Time selection keywords *)
  else if State_eqb state ProposeTime
  then
    if saysFirst lower then Some confirm
    else if saysSecond lower then Some confirm
    else if saysAgreed lower then Some confirm
    else if (matchesClock lower || matchesMeridiem lower)%bool then Some confirm
    else None
  else None.

(** [proposedTimes[1] || proposedTimes[0]] *)
Definition secondOrFirst (proposedTimes : list string) : option string :=
  if truthyStr (nth_error proposedTimes 1)
  then nth_error proposedTimes 1
  else nth_error proposedTimes 0.

Definition extractTimeFromTranscript (text : string) (proposedTimes : option (list string))
  : option string :=
  match proposedTimes with
  | None => None
  | Some [] => None
  | Some times =>
      let lower := toLowerCase text in
      (* Check for explicit option selection *)
      if saysFirst lower then nth_error times 0
      else if saysSecond lower then secondOrFirst times
      else if saysAgreed lower then nth_error times 0
      else None
  end.

Definition extractQualificationSlots (text : string) : ConversationSlots :=
  let lower := toLowerCase text in
  {| authority :=
       if (includes lower "decision" || includes lower "authority"
           || includes lower "decision maker" || includes lower "i decide"
           || includes lower "i make")%bool
       then Some true else None;
     need :=
       if (includes lower "urgent" || includes lower "critical"
           || includes lower "important" || includes lower "need")%bool
       then Some high
       else if (includes lower "interested" || includes lower "consider")%bool
       then Some medium else None;
     timing :=
       if (includes lower "urgent" || includes lower "immediately"
           || includes lower "asap" || includes lower "this month"
           || includes lower "this quarter")%bool
       then Some this_quarter
       else if (includes lower "next quarter" || includes lower "q2"
                || includes lower "q3" || includes lower "q4")%bool
       then Some next_quarter else None;
     budget_indicator :=
       if (includes lower "budget"
           && (includes lower "have" || includes lower "approved"))%bool
       then Some present else None;
     confirmed_date := None;
     confirmed_time := None;
     pain_stated :=
       if (includes lower "problem" || includes lower "challenge"
           || includes lower "issue" || includes lower "struggling")%bool
       then Some true else None |}.

Definition createCallSession (w : World) (callId leadId : string)
    (managerId : option string) : CallSession * World :=
  let context :=
    {| call_id := callId;
       lead_id := leadId;
       contact_name := None;
       company_name := None;
       recording_required := Some false;
       jurisdiction := None |} in
  let stateMachine := initialState context in
  let session :=
    {| session_call_id := callId;
       session_lead_id := leadId;
       session_manager_id := managerId;
       state_machine := stateMachine;
       is_active := true |} in
  (session, mkWorld (JsMap.set (callSessions w) callId session) (optOutsEmitted w)).

Definition getCallSession (w : World) (callId : string) : option CallSession :=
  JsMap.get (callSessions w) callId.

(** What [processTranscript] returns; its [intent] field is [tr_intent]
    here, and [prompt], which is never set, is left out. *)
Record TranscriptResult := mkResult {
  state : StateMachineState;
  tr_intent : option BookingIntent;
  should_speak : bool
}.

(** The input [processTranscript] hands to the state machine. *)
Definition transcriptInput (text : string) (currentState : State)
    (proposedTimes : option (list string)) : StateMachineInput :=
  let intent := extractIntent text currentState in
  let slots := extractQualificationSlots text in
  let selectedTime :=
    match proposedTimes with
    | Some _ => extractTimeFromTranscript text proposedTimes
    | None => None
    end in
  {| intent := intent;
     text := Some text;
     in_slots := Some slots;
     explicit_confirmation :=
       Some (match intent, selectedTime with
             | Some confirm, Some _ => true
             | _, _ => false
             end);
     selected_time := selectedTime |}.

(** [processTranscript(callId, transcript, proposedTimes)], of which only
    [transcript.text] is read; [None] is the thrown error.  The session
    object is updated in place, so the map holds the updated session under
    the same key. *)
Definition processTranscript (w : World) (callId : string) (text : string)
    (proposedTimes : option (list string)) : option (TranscriptResult * World) :=
  match JsMap.get (callSessions w) callId with
  | None => None
  | Some session =>
      if negb (is_active session) then None
      else
        let currentState := current (state_machine session) in
        let input := transcriptInput text currentState proposedTimes in
        (* Update state machine *)
        let sm := nextState (state_machine session) input in
        (* Handle opt-out *)
        let optedOut := State_eqb (current sm) OptOut in
        let session' :=
          mkSession (session_call_id session) (session_lead_id session)
                    (session_manager_id session) sm
                    (if optedOut then false else is_active session) in
        let emitted :=
          if optedOut
          then optOutsEmitted w ++ [(session_lead_id session, callId)]
          else optOutsEmitted w in
        let shouldSpeak := negb (State_eqb (current sm) currentState) in
        Some (mkResult sm (booking_intent sm) shouldSpeak,
              mkWorld (JsMap.set (callSessions w) callId session') emitted)
  end.

Definition endCallSession (w : World) (callId : string) : World :=
  match JsMap.get (callSessions w) callId with
  | Some session =>
      mkWorld (JsMap.set (callSessions w) callId
                 (mkSession (session_call_id session) (session_lead_id session)
                            (session_manager_id session) (state_machine session) false))
              (optOutsEmitted w)
  | None => w
  end.

(** *** Vocabulary of the properties *)

(** One call to [processTranscript] on a call: the text heard and the
    proposed times passed along. *)
Definition Turn : Type := (string * option (list string))%type.

(** The turns of one call fed in order; the results, oldest first, and the
    world they leave, or [None] as soon as one call throws. *)
Fixpoint processAll (w : World) (callId : string) (turns : list Turn)
  : option (list TranscriptResult * World) :=
  match turns with
  | [] => Some ([], w)
  | (text, proposedTimes) :: rest =>
      match processTranscript w callId text proposedTimes with
      | None => None
      | Some (r, w') =>
          match processAll w' callId rest with
          | None => None
          | Some (rs, w'') => Some (r :: rs, w'')
          end
      end
  end.

Definition optOutKeyword (lower : string) : bool :=
  (includes lower "stop" || includes lower "remove" || includes lower "do not call"
   || includes lower "dont call" || includes lower "opt out"
   || includes lower "unsubscribe")%bool.

(** A world whose only session, for the call of [baseContext], is active
    and stands in state [st] with the slots [sl]. *)
Definition worldAt (st : State) (sl : ConversationSlots) : World :=
  mkWorld [(call_id baseContext,
            mkSession (call_id baseContext) (lead_id baseContext) None (stateAt st sl) true)]
          [].

(** What holds of a session for as long as the purpose line is not
    recorded. *)
Definition confined (w : World) (callId : string) : Prop :=
  exists s,
    getCallSession w callId = Some s
    /\ is_active s = true
    /\ purpose (mandatory_lines (state_machine s)) = None
    /\ (current (state_machine s) = IdentifyContact
        \/ current (state_machine s) = Transfer)
    /\ booking_intent (state_machine s) = None.

Definition twoTimes : list string :=
  ["2024-03-15T19:00:00.000Z"; "2024-03-15T20:00:00.000Z"].

End Orchestrator.
(** * Properties of the conversation state machine *)

Module StateMachineProps.
Import Js StateMachine.

Lemma intentIs_true (i : StateMachineInput) (tag : Intent) :
  intentIs i tag = true <-> intent i = Some tag.
Proof.
  unfold intentIs. destruct (intent i) as [j|].
  - destruct j, tag; simpl; split; intro H; try reflexivity; try discriminate.
  - split; discriminate.
Qed.

Lemma intentIs_false (i : StateMachineInput) (tag : Intent) :
  intentIs i tag = false <-> intent i <> Some tag.
Proof.
  rewrite <- intentIs_true. destruct (intentIs i tag); split; congruence.
Qed.

Lemma truthy_true (x : option bool) : truthy x = true <-> x = Some true.
Proof.
  destruct x as [[|]|]; simpl; split; congruence.
Qed.

Lemma truthy_false (x : option bool) : truthy x = false <-> x <> Some true.
Proof.
  rewrite <- truthy_true. destruct (truthy x); split; congruence.
Qed.

(** One unconfirmed input leaves a [Confirm] state where it is and produces
    no intent. *)
Lemma Confirm_stays (s : StateMachineState) (i : StateMachineInput) :
  current s = Confirm ->
  unconfirmed i ->
  current (nextState s i) = Confirm
  /\ booking_intent (nextState s i) = booking_intent s.
Proof.
  intros Hc (He & Ho & Ht).
  apply truthy_false in He. apply intentIs_false in Ho. apply intentIs_false in Ht.
  unfold nextState. rewrite Hc, He, Ho, Ht. simpl. split; reflexivity.
Qed.

Lemma Confirm_stays_many (inputs : list StateMachineInput) :
  forall s,
    current s = Confirm ->
    Forall unconfirmed inputs ->
    current (transitions s inputs) = Confirm
    /\ booking_intent (transitions s inputs) = booking_intent s.
Proof.
  induction inputs as [|i rest IH]; intros s Hc Hall.
  - split; [exact Hc | reflexivity].
  - inversion Hall as [|? ? Hi Hrest]; subst.
    destruct (Confirm_stays s i Hc Hi) as [Hc' Hb'].
    destruct (IH (nextState s i) Hc' Hrest) as [Hc'' Hb''].
    split; [exact Hc'' | ].
    unfold transitions in *. simpl. rewrite Hb''. exact Hb'.
Qed.

(** Where a booking intent can come from: a step either hands on the intent
    it was given or it is the [Confirm -> End] step taken on an explicitly
    confirming input, whose intent carries the flag. *)
Lemma booking_intent_origin (s : StateMachineState) (i : StateMachineInput) :
  booking_intent (nextState s i) = booking_intent s
  \/ (current s = Confirm
      /\ explicit_confirmation i = Some true
      /\ current (nextState s i) = End
      /\ exists b, booking_intent (nextState s i) = Some b
                   /\ bi_explicit_confirmation b = true).
Proof.
  unfold nextState.
  destruct (current s) eqn:Hc; simpl;
    repeat match goal with
           | |- context [if ?c then _ else _] => destruct c eqn:?; simpl
           end;
    try (left; reflexivity).
  right.
  repeat match goal with
         | H : (_ && _)%bool = true |- _ => apply andb_prop in H; destruct H
         end.
  split; [reflexivity|].
  split; [apply truthy_true; assumption|].
  split; [reflexivity|].
  eexists. split; reflexivity.
Qed.

(** A booking intent is only ever held in [End]: the property holds of the
    initial state and every step keeps it. *)
Lemma intent_only_at_End_step (s : StateMachineState) (i : StateMachineInput) :
  intentOnlyAtEnd s -> intentOnlyAtEnd (nextState s i).
Proof.
  unfold intentOnlyAtEnd. intros Hs Hb.
  destruct (booking_intent_origin s i) as [Hsame | (_ & _ & Hend & _)]; [|exact Hend].
  rewrite Hsame in Hb. specialize (Hs Hb).
  unfold nextState. rewrite Hs. reflexivity.
Qed.

Lemma intent_only_at_End_initial (ctx : ConversationContext) :
  intentOnlyAtEnd (initialState ctx).
Proof. intros H. exfalso. apply H. reflexivity. Qed.

(** C1. From a state in [Confirm] that holds no booking intent, any number
    of inputs without [explicit_confirmation == true] (and without an
    opt_out or transfer intent) leave the state in [Confirm] with the
    booking intent undefined; and a booking intent that a transition
    produces always has [explicit_confirmation == true]. *)
Theorem C1_no_booking_without_explicit_confirmation :
  (forall (s : StateMachineState) (inputs : list StateMachineInput),
      current s = Confirm ->
      booking_intent s = None ->
      Forall unconfirmed inputs ->
      current (transitions s inputs) = Confirm
      /\ booking_intent (transitions s inputs) = None)
  /\ (forall (s : StateMachineState) (i : StateMachineInput) (b : BookingIntent),
         booking_intent (nextState s i) = Some b ->
         booking_intent s = Some b \/ bi_explicit_confirmation b = true).
Proof.
  split.
  - intros s inputs Hc Hb Hall.
    destruct (Confirm_stays_many inputs s Hc Hall) as [Hc' Hb'].
    split; [exact Hc' | congruence].
  - intros s i b Hb.
    destruct (booking_intent_origin s i) as [Hsame | (_ & _ & _ & b' & Hb' & Hflag)].
    + left. congruence.
    + right. congruence.
Qed.

Lemma C1_witness :
  let s := stateAt Confirm confirmedSlots in
  let inputs := [textOnly "That sounds good"; textOnly "ok"; intentOnly confirm] in
  current (transitions s inputs) = Confirm
  /\ booking_intent (transitions s inputs) = None.
Proof.
  apply (proj1 C1_no_booking_without_explicit_confirmation).
  - reflexivity.
  - reflexivity.
  - repeat constructor; simpl; discriminate.
Defined.

(** ** Leaving [IdentifyContact] *)

(** The purpose line is only looked for in [ConsentGate] and [Qualify]. *)
Lemma checkMandatoryLines_purpose (s : StateMachineState) (i : StateMachineInput) :
  current s <> ConsentGate ->
  current s <> Qualify ->
  purpose (checkMandatoryLines s i) = purpose (mandatory_lines s).
Proof.
  intros H1 H2. unfold checkMandatoryLines.
  destruct (current s); try congruence; simpl;
    repeat match goal with
           | |- context [if ?c then _ else _] => destruct c; simpl
           end;
    reflexivity.
Qed.

(** From [IdentifyContact] the machine advances to [ConsentGate] exactly
    when both lines are satisfied after the input has been read. *)
Lemma IdentifyContact_advances_iff (s : StateMachineState) (i : StateMachineInput) :
  current s = IdentifyContact ->
  (current (nextState s i) = ConsentGate
   <-> identification (checkMandatoryLines s i) = Some true
       /\ purpose (checkMandatoryLines s i) = Some true).
Proof.
  intros Hc. unfold nextState. rewrite Hc.
  rewrite <- !truthy_true.
  destruct (truthy (identification (checkMandatoryLines s i)));
    destruct (truthy (purpose (checkMandatoryLines s i))); simpl;
    repeat match goal with
           | |- context [if ?c then _ else _] => destruct c; simpl
           end;
    split; try tauto; try discriminate; intros [? ?]; discriminate.
Qed.

(** When the two lines are not both satisfied the machine stays in
    [IdentifyContact], unless a transfer or voicemail intent takes it out. *)
Lemma IdentifyContact_stays (s : StateMachineState) (i : StateMachineInput) :
  current s = IdentifyContact ->
  current (nextState s i) <> ConsentGate ->
  intent i <> Some transfer ->
  intent i <> Some voicemail ->
  current (nextState s i) = IdentifyContact.
Proof.
  intros Hc Hno Ht Hv. revert Hno.
  apply intentIs_false in Ht. apply intentIs_false in Hv.
  unfold nextState. rewrite Hc, Ht, Hv.
  destruct (truthy (identification (checkMandatoryLines s i))
            && truthy (purpose (checkMandatoryLines s i)))%bool; simpl;
    [intros H; exfalso; apply H; reflexivity | reflexivity].
Qed.

Lemma stuck_step (s : StateMachineState) (i : StateMachineInput) :
  stuck s -> stuck (nextState s i).
Proof.
  intros [Hp Hc].
  assert (Hp' : purpose (checkMandatoryLines s i) = None).
  { rewrite checkMandatoryLines_purpose; [exact Hp | | ];
      destruct Hc as [Hc | [Hc | Hc]]; rewrite Hc; discriminate. }
  unfold stuck, nextState. simpl. split; [exact Hp'|].
  destruct Hc as [Hc | [Hc | Hc]]; rewrite Hc; simpl; try tauto.
  rewrite Hp'. simpl. rewrite andb_false_r.
  repeat match goal with
         | |- context [if ?c then _ else _] => destruct c; simpl
         end; tauto.
Qed.

Lemma stuck_many (inputs : list StateMachineInput) :
  forall s, stuck s -> stuck (transitions s inputs).
Proof.
  induction inputs as [|i rest IH]; intros s Hs; [exact Hs|].
  apply (IH (nextState s i)). apply stuck_step. exact Hs.
Qed.

(** C2. What the code does from the initial state: whatever the inputs, the
    purpose line is never recorded, so the machine never reaches
    [ConsentGate]; the opening utterance of the test suite, which names the
    caller and the purpose, leaves it in [IdentifyContact]. *)
Theorem C2_initial_state_never_reaches_ConsentGate :
  (forall (ctx : ConversationContext) (inputs : list StateMachineInput),
      let s := transitions (initialState ctx) inputs in
      current s <> ConsentGate
      /\ purpose (mandatory_lines s) = None
      /\ (current s = IdentifyContact \/ current s = Transfer \/ current s = Voicemail))
  /\ (let s := nextState (initialState baseContext) openingInput in
      current s = IdentifyContact
      /\ identification (mandatory_lines s) = Some true
      /\ purpose (mandatory_lines s) = None).
Proof.
  split.
  - intros ctx inputs s.
    assert (Hs : stuck s).
    { apply stuck_many. split; [reflexivity | left; reflexivity]. }
    destruct Hs as [Hp Hc]. split; [|split; assumption].
    destruct Hc as [Hc | [Hc | Hc]]; rewrite Hc; discriminate.
  - vm_compute. repeat split; reflexivity.
Qed.

(** ** Terminal exits *)

Ltac split_ifs :=
  repeat match goal with
         | |- context [if ?c then _ else _] => destruct c eqn:?; simpl
         end.

(** C4, as the claim words it, fails: a voicemail intent in [Qualify] leaves
    the machine in [Qualify]. *)
Lemma C4_counterexample :
  let s := stateAt Qualify emptySlots in
  let i := intentOnly voicemail in
  isTerminalState (current s) = false
  /\ intent i = Some voicemail
  /\ current (nextState s i) = Qualify.
Proof.
  vm_compute. repeat split; reflexivity.
Qed.

(** C4, amended. An opt_out or transfer intent moves at once to [OptOut] or
    [Transfer] from [Qualify] and [ProposeTime], from [Confirm] unless the
    input completes the confirmation, and from [ConsentGate] once consent to
    proceed (and recording consent where required) is satisfied.  From
    [IdentifyContact] a transfer or voicemail intent moves at once to
    [Transfer] or [Voicemail] while identification and purpose are not both
    satisfied.  A voicemail intent leads to [Voicemail] from no other
    non-terminal state. *)
Theorem C4_terminal_exits (s : StateMachineState) (i : StateMachineInput) :
  let lines := checkMandatoryLines s i in
  let sl := updateSlots (slots s) i in
  ((current s = Qualify \/ current s = ProposeTime) ->
   (intent i = Some opt_out -> current (nextState s i) = OptOut)
   /\ (intent i = Some transfer -> current (nextState s i) = Transfer))
  /\ (current s = Confirm ->
      (truthy (explicit_confirmation i) && truthyStr (confirmed_time sl)
       && truthyStr (confirmed_date sl))%bool = false ->
      (intent i = Some opt_out -> current (nextState s i) = OptOut)
      /\ (intent i = Some transfer -> current (nextState s i) = Transfer))
  /\ (current s = ConsentGate ->
      consent_to_proceed lines = Some true ->
      (recording_required (context s) = Some true ->
       recording_consent lines = Some true) ->
      (intent i = Some opt_out -> current (nextState s i) = OptOut)
      /\ (intent i = Some transfer -> current (nextState s i) = Transfer))
  /\ (current s = IdentifyContact ->
      (truthy (identification lines) && truthy (purpose lines))%bool = false ->
      (intent i = Some transfer -> current (nextState s i) = Transfer)
      /\ (intent i = Some voicemail -> current (nextState s i) = Voicemail))
  /\ (current s = ConsentGate \/ current s = Qualify
      \/ current s = ProposeTime \/ current s = Confirm ->
      intent i = Some voicemail ->
      current (nextState s i) <> Voicemail).
Proof.
  intros lines sl. subst lines sl.
  repeat split.
  - intros Ho. apply intentIs_true in Ho.
    destruct H as [Hc | Hc]; unfold nextState; rewrite Hc, Ho; reflexivity.
  - intros Ht. pose proof Ht as Ht'. apply intentIs_true in Ht.
    assert (Ho : intentIs i opt_out = false) by (apply intentIs_false; congruence).
    destruct H as [Hc | Hc]; unfold nextState; rewrite Hc, Ho, Ht; reflexivity.
  - intros Ho. apply intentIs_true in Ho.
    unfold nextState. rewrite H, H0, Ho. reflexivity.
  - intros Ht. pose proof Ht as Ht'. apply intentIs_true in Ht.
    assert (Ho : intentIs i opt_out = false) by (apply intentIs_false; congruence).
    unfold nextState. rewrite H, H0, Ho, Ht. reflexivity.
  - intros Ho. apply intentIs_true in Ho.
    unfold nextState. rewrite H, H0, Ho. simpl.
    destruct (truthy (recording_required (context s))) eqn:Hr; simpl; [|reflexivity].
    apply truthy_true in Hr. rewrite (H1 Hr). reflexivity.
  - intros Ht. pose proof Ht as Ht'. apply intentIs_true in Ht.
    assert (Ho : intentIs i opt_out = false) by (apply intentIs_false; congruence).
    unfold nextState. rewrite H, H0, Ho, Ht. simpl.
    destruct (truthy (recording_required (context s))) eqn:Hr; simpl; [|reflexivity].
    apply truthy_true in Hr. rewrite (H1 Hr). reflexivity.
  - intros Ht. apply intentIs_true in Ht.
    unfold nextState. rewrite H, H0, Ht. reflexivity.
  - intros Hv. pose proof Hv as Hv'. apply intentIs_true in Hv.
    assert (Ht : intentIs i transfer = false) by (apply intentIs_false; congruence).
    unfold nextState. rewrite H, H0, Ht, Hv. reflexivity.
  - intros Hs Hv. unfold nextState.
    destruct Hs as [Hc | [Hc | [Hc | Hc]]]; rewrite Hc; simpl; split_ifs; discriminate.
Qed.

Lemma C4_witness :
  let s := stateAt ProposeTime confirmedSlots in
  current (nextState s (intentOnly opt_out)) = OptOut.
Proof.
  intros s.
  apply (proj1 (C4_terminal_exits s (intentOnly opt_out)) (or_intror eq_refl)).
  reflexivity.
Defined.

(** ** Qualification *)

(** [isQualified] is the qualification predicate. *)
Lemma isQualified_spec (sl : ConversationSlots) :
  isQualified sl = true
  <-> authority sl = Some true
      /\ (need sl = Some high \/ (need sl = Some medium /\ pain_stated sl = Some true))
      /\ (timing sl = Some this_quarter \/ timing sl = Some next_quarter)
      /\ (budget_indicator sl = Some present
          \/ (budget_indicator sl = Some unknown
              /\ authority sl = Some true /\ need sl = Some high)).
Proof.
  unfold isQualified.
  destruct (authority sl) as [[|]|], (need sl) as [[| |]|], (pain_stated sl) as [[|]|],
    (timing sl) as [[| |]|], (budget_indicator sl) as [[| |]|]; simpl;
    split; try discriminate; try (intros _; repeat split; auto; fail);
    intros (Ha & Hn & Ht & Hb); try discriminate;
    try reflexivity;
    repeat match goal with
           | H : _ \/ _ |- _ => destruct H
           | H : _ /\ _ |- _ => destruct H
           end; discriminate.
Qed.

(** C9. In [Qualify], the boundary assignment with [pain_stated = false]
    does not trigger [Qualify -> ProposeTime] and the same assignment with
    [pain_stated = true] does; absent an opt_out, transfer or disqualify
    intent, the transition fires exactly when the qualification predicate
    holds of the updated slots, and otherwise the state stays [Qualify]. *)
Theorem C9_qualification_boundary :
  (current (nextState (stateAt Qualify emptySlots) (slotsOnly (boundarySlots false)))
   = Qualify
   /\ current (nextState (stateAt Qualify emptySlots) (slotsOnly (boundarySlots true)))
      = ProposeTime)
  /\ (forall (s : StateMachineState) (i : StateMachineInput),
         current s = Qualify ->
         intent i <> Some opt_out ->
         intent i <> Some transfer ->
         intent i <> Some disqualify ->
         let sl := updateSlots (slots s) i in
         (current (nextState s i) = ProposeTime
          <-> authority sl = Some true
              /\ (need sl = Some high
                  \/ (need sl = Some medium /\ pain_stated sl = Some true))
              /\ (timing sl = Some this_quarter \/ timing sl = Some next_quarter)
              /\ (budget_indicator sl = Some present
                  \/ (budget_indicator sl = Some unknown
                      /\ authority sl = Some true /\ need sl = Some high)))
         /\ (current (nextState s i) = ProposeTime \/ current (nextState s i) = Qualify)).
Proof.
  split; [split; reflexivity|].
  intros s i Hc Ho Ht Hd sl.
  apply intentIs_false in Ho. apply intentIs_false in Ht. apply intentIs_false in Hd.
  rewrite <- isQualified_spec. subst sl.
  unfold nextState. rewrite Hc, Ho, Ht, Hd.
  destruct (isQualified (updateSlots (slots s) i)); simpl; split;
    try (split; congruence); auto.
Qed.

Lemma C9_witness :
  let s := stateAt Qualify (boundarySlots true) in
  let i := textOnly "We need this urgently" in
  current (nextState s i) = ProposeTime \/ current (nextState s i) = Qualify.
Proof.
  intros s i.
  apply (proj2 C9_qualification_boundary s i); [reflexivity | discriminate ..].
Defined.

End StateMachineProps.

(** * Properties of the attempt scheduler *)

Module AttemptsProps.
Import JsDate Attempts.

Ltac unfold_ms :=
  change msPerDay with 86400000 in *;
  change msPerHour with 3600000 in *;
  change msPerMinute with 60000 in *.

Ltac euclid := unfold_ms; Z.to_euclidean_division_equations; lia.

(** ** Date arithmetic *)

Lemma add_15_minutes (t : Z) :
  setUTCMinutes1 t (getUTCMinutes t + 15) = t + 15 * msPerMinute.
Proof. unfold setUTCMinutes1, getUTCMinutes. euclid. Qed.

Lemma add_24_hours (t : Z) :
  setUTCHours1 t (getUTCHours t + 24) = t + 24 * msPerHour.
Proof. unfold setUTCHours1, getUTCHours. euclid. Qed.

Lemma next_minute (t : Z) :
  setUTCMinutes3 t (getUTCMinutes t + 1) 0 0 = t - t mod msPerMinute + msPerMinute.
Proof. unfold setUTCMinutes3, getUTCMinutes. euclid. Qed.

(** [weekStart t] is a Monday midnight at or before [t], less than a week
    back. *)
Lemma weekStart_spec (t : Z) :
  weekStart t <= t < weekStart t + 7 * msPerDay
  /\ weekStart t mod msPerDay = 0
  /\ getUTCDay (weekStart t) = 1.
Proof. unfold weekStart, getUTCDay. repeat split; euclid. Qed.

Lemma getAttemptsThisWeek_eq (clock : Z) (attempts : list AttemptRecord) :
  getAttemptsThisWeek clock attempts
  = getAttemptsInWindow attempts (weekStart clock) (weekStart clock + 7 * msPerDay).
Proof.
  unfold getAttemptsThisWeek.
  assert (H : setUTCHours4 (shiftUTCDate clock (- ((getUTCDay clock + 6) mod 7))) 0 0 0 0
              = weekStart clock).
  { unfold setUTCHours4, shiftUTCDate, weekStart, getUTCDay. euclid. }
  rewrite H. unfold shiftUTCDate. reflexivity.
Qed.

(** The Monday [scheduleAttempt] computes when the weekly cap applies. *)
Lemma next_monday_eq (now : Z) :
  setUTCHours4
    (shiftUTCDate (shiftUTCDate now (- ((getUTCDay now + 6) mod 7))) 7) 0 0 0 0
  = weekStart now + 7 * msPerDay.
Proof. unfold setUTCHours4, shiftUTCDate, weekStart, getUTCDay. euclid. Qed.

(** ** Regional windows *)

Lemma getTimeWindow_cases (region : string) :
  getTimeWindow region = mkWindow 13 21
  \/ getTimeWindow region = mkWindow 17 1
  \/ getTimeWindow region = mkWindow 8 16
  \/ getTimeWindow region = mkWindow 0 8.
Proof.
  unfold getTimeWindow, REGION_TIME_WINDOWS, lookupWindow, DEFAULT_WINDOW.
  repeat match goal with
         | |- context [if ?c then _ else _] => destruct c
         end; tauto.
Qed.

(** Inside the window the next time is the start of the following minute. *)
Lemma getNextTimeInWindow_inside (t : Z) (w : TimeWindow) :
  inWindow w (getUTCHours t) = true ->
  getNextTimeInWindow t w = t - t mod msPerMinute + msPerMinute.
Proof.
  unfold inWindow, getNextTimeInWindow. intros H.
  destruct (window_end w <? window_start w).
  - rewrite H. apply next_minute.
  - apply andb_prop in H. destruct H as [H1 H2].
    apply Z.leb_le in H1. rewrite H2.
    destruct (Z.ltb_spec (getUTCHours t) (window_start w)); [lia|].
    apply next_minute.
Qed.

(** Outside the window the next time is the first opening of the window
    after [t]. *)
Lemma getNextTimeInWindow_outside (t : Z) (w : TimeWindow) :
  0 <= window_start w < 24 ->
  inWindow w (getUTCHours t) = false ->
  t < getNextTimeInWindow t w <= t + msPerDay
  /\ getNextTimeInWindow t w mod msPerDay = window_start w * msPerHour.
Proof.
  unfold inWindow, getNextTimeInWindow. intros Hs H.
  destruct (window_end w <? window_start w).
  - rewrite H. apply orb_false_elim in H. destruct H as [H1 H2].
    apply Z.leb_gt in H1. clear H2.
    assert (Hgoal : t < setUTCHours4 t (window_start w) 0 0 0 <= t + msPerDay
                    /\ setUTCHours4 t (window_start w) 0 0 0 mod msPerDay
                       = window_start w * msPerHour).
    { unfold setUTCHours4, getUTCHours in *. split; euclid. }
    destruct (window_end w <=? getUTCHours t); exact Hgoal.
  - destruct (Z.ltb_spec (getUTCHours t) (window_start w)) as [Hlt | Hge].
    + unfold setUTCHours4, getUTCHours in *. split; euclid.
    + destruct (Z.leb_spec (window_start w) (getUTCHours t)) as [_ | ?]; [|lia].
      simpl in H. rewrite H.
      unfold setUTCHours4, shiftUTCDate, getUTCHours in *. split; euclid.
Qed.

Lemma table_window_start (region : string) :
  0 <= window_start (getTimeWindow region) < 24.
Proof.
  destruct (getTimeWindow_cases region) as [H | [H | [H | H]]]; rewrite H; simpl; lia.
Qed.

(** ** The last attempt *)

Lemma sort_nil (l : list AttemptRecord) :
  sortByTimestampDesc l = [] -> l = [].
Proof.
  destruct l as [|x l]; [reflexivity|]. simpl.
  destruct (sortByTimestampDesc l) as [|b rest]; simpl; [discriminate|].
  destruct (timestamp b - timestamp x <=? 0); discriminate.
Qed.

(** The head of the sorted copy is a recorded attempt that no other attempt
    is later than. *)
Lemma sort_head_latest (l : list AttemptRecord) :
  forall a,
    hd_error (sortByTimestampDesc l) = Some a ->
    In a l /\ Forall (fun b => timestamp b <= timestamp a) l.
Proof.
  induction l as [|x l IH]; intros a Ha; [discriminate|].
  simpl in Ha.
  destruct (sortByTimestampDesc l) as [|b rest] eqn:Hs.
  - apply sort_nil in Hs. subst l. simpl in Ha. inversion Ha; subst.
    split; [left; reflexivity | constructor; [lia | constructor]].
  - destruct (IH b eq_refl) as [Hin Hall]. simpl in Ha.
    destruct (Z.leb_spec (timestamp b - timestamp x) 0) as [Hle | Hgt];
      simpl in Ha; inversion Ha; subst.
    + split; [left; reflexivity|].
      constructor; [lia|].
      eapply Forall_impl; [|exact Hall]. simpl. intros; lia.
    + split; [right; exact Hin|].
      constructor; [lia | exact Hall].
Qed.

Lemma getLastAttempt_latest (l : list AttemptRecord) (a : AttemptRecord) :
  getLastAttempt l = Some a ->
  In a l /\ Forall (fun b => timestamp b <= timestamp a) l.
Proof.
  unfold getLastAttempt.
  destruct (Z.of_nat (List.length l) =? 0); [discriminate|].
  apply sort_head_latest.
Qed.

Lemma getLastAttempt_nonempty (l : list AttemptRecord) :
  l <> [] -> exists a, getLastAttempt l = Some a.
Proof.
  intros Hl. unfold getLastAttempt.
  destruct l as [|x l]; [congruence|].
  change (Z.of_nat (List.length (x :: l)) =? 0) with false.
  destruct (sortByTimestampDesc (x :: l)) as [|b rest] eqn:Hs.
  - apply sort_nil in Hs. discriminate.
  - exists b. reflexivity.
Qed.

(** When timestamps strictly increase in recording order, the last attempt
    is the one recorded last. *)
Lemma getLastAttempt_chronological (l : list AttemptRecord) (z : AttemptRecord) :
  chronological (l ++ [z]) ->
  getLastAttempt (l ++ [z]) = Some z.
Proof.
  intros Hch.
  destruct (getLastAttempt_nonempty (l ++ [z])) as [a Ha].
  { destruct l; discriminate. }
  rewrite Ha. f_equal.
  destruct (getLastAttempt_latest _ _ Ha) as [Hin Hall].
  apply in_app_or in Hin. destruct Hin as [Hin | [Hin | []]]; [|congruence].
  exfalso.
  assert (Hz : timestamp z <= timestamp a).
  { rewrite Forall_forall in Hall. apply Hall. apply in_or_app. right. left. reflexivity. }
  clear Ha Hall. induction l as [|x l IH]; [contradiction|].
  simpl in Hch. destruct Hch as [Hx Hrest].
  destruct Hin as [Heq | Hin].
  - subst x. rewrite Forall_forall in Hx.
    specialize (Hx z). assert (In z (l ++ [z])) by (apply in_or_app; right; left; reflexivity).
    specialize (Hx H). lia.
  - apply IH; assumption.
Qed.

(** When one attempt is strictly later than every other, the last attempt
    is that one, wherever it was recorded. *)
Lemma getLastAttempt_mostRecent (l : list AttemptRecord) (a : AttemptRecord) :
  mostRecent a l -> getLastAttempt l = Some a.
Proof.
  intros [Hin Hlater].
  destruct (getLastAttempt_nonempty l) as [a' Ha'].
  { intros ->. contradiction. }
  rewrite Ha'. f_equal.
  destruct (getLastAttempt_latest _ _ Ha') as [Hin' Hall].
  destruct (Hlater a' Hin') as [Heq | Hlt]; [exact Heq|].
  rewrite Forall_forall in Hall. specialize (Hall a Hin). lia.
Qed.

(** A history whose timestamps strictly increase has a most recent
    attempt: the one recorded last. *)
Lemma chronological_mostRecent (l : list AttemptRecord) (z : AttemptRecord) :
  chronological (l ++ [z]) -> mostRecent z (l ++ [z]).
Proof.
  intros Hch. split; [apply in_or_app; right; left; reflexivity|].
  intros b Hb. apply in_app_or in Hb. destruct Hb as [Hb | [Hb | []]];
    [right | left; congruence].
  induction l as [|x l IH]; [contradiction|].
  simpl in Hch. destruct Hch as [Hx Hrest].
  destruct Hb as [<- | Hb]; [|exact (IH Hrest Hb)].
  rewrite Forall_forall in Hx. apply Hx. apply in_or_app. right. left. reflexivity.
Qed.

Lemma numberedFrom_last (l : list AttemptRecord) (z : AttemptRecord) :
  forall n, numberedFrom n (l ++ [z]) -> attempt_no z = n + Z.of_nat (List.length l).
Proof.
  induction l as [|x l IH]; intros n H; simpl in *.
  - destruct H as [H _]. lia.
  - destruct H as [_ H]. rewrite (IH _ H). lia.
Qed.

(** For attempts numbered from 1 whose timestamps strictly increase, the
    next attempt number is the number of attempts plus one, so voicemail is
    allowed exactly after one recorded attempt. *)
Lemma voicemail_gate_chronological (l : list AttemptRecord) :
  numberedFrom 1 l ->
  chronological l ->
  getNextAttemptNo l = Z.of_nat (List.length l) + 1
  /\ (isVoicemailAllowed (getNextAttemptNo l) = true <-> List.length l = 1%nat).
Proof.
  intros Hn Hc.
  assert (H : getNextAttemptNo l = Z.of_nat (List.length l) + 1).
  { destruct l as [|x l0]; [reflexivity|].
    destruct (@exists_last _ (x :: l0)) as [l' [z Hl]]; [discriminate|].
    rewrite Hl in *. clear Hl x l0. unfold getNextAttemptNo.
    rewrite (getLastAttempt_chronological l' z Hc).
    rewrite (numberedFrom_last l' z 1 Hn).
    rewrite length_app. simpl List.length.
    pose proof (Nat2Z.is_nonneg (List.length l')) as Hpos.
    rewrite Nat2Z.inj_add. change (Z.of_nat 1) with 1.
    destruct (Z.eqb_spec (Z.of_nat (List.length l') + 1) 0); [lia|].
    unfold orZero.
    destruct (Z.eqb_spec (1 + Z.of_nat (List.length l')) 0); lia. }
  split; [exact H|].
  rewrite H. unfold isVoicemailAllowed. rewrite Z.eqb_eq. lia.
Qed.

(** ** Weekly cap *)

(** From a midnight, the next time in a regional window: one minute later
    when the window is open at 00:00, else the window's opening that day. *)
Lemma getNextTimeInWindow_midnight (m : Z) (region : string) :
  m mod msPerDay = 0 ->
  let window := getTimeWindow region in
  getNextTimeInWindow m window
  = if inWindow window 0 then m + msPerMinute else m + window_start window * msPerHour.
Proof.
  intros Hm window. subst window.
  assert (Hh : getUTCHours m = 0) by (unfold getUTCHours; euclid).
  destruct (inWindow (getTimeWindow region) 0) eqn:Hin.
  - rewrite getNextTimeInWindow_inside by (rewrite Hh; exact Hin). euclid.
  - destruct (getTimeWindow_cases region) as [H | [H | [H | H]]];
      rewrite H in *; try discriminate;
      unfold getNextTimeInWindow; rewrite Hh; simpl;
      unfold setUTCHours4; euclid.
Qed.

(** C5, as the claim words it, fails: for the APAC window, which opens at
    00:00 UTC, and for the US_WEST window, still open at 00:00 UTC, the
    suggested time is 00:01 on the following Monday, not the start of a
    window.  The lead has three attempts in the week of the evaluation
    time, which is also the week of the wall clock. *)
Lemma C5_counterexample :
  let attempts := getAttempts threeThisWeek "lead-1" in
  let nextMonday := weekStart friday14h + 7 * msPerDay in
  let apac := scheduleAttempt threeThisWeek friday14h "lead-1" (Some "APAC") (Some friday14h) in
  let west := scheduleAttempt threeThisWeek friday14h "lead-1" (Some "US_WEST") (Some friday14h) in
  List.length (getAttemptsInWindow attempts (weekStart friday14h) nextMonday) = 3%nat
  /\ block_reason apac = Some "WEEKLY_LIMIT_EXCEEDED"
  /\ next_attempt_ts apac = Some (nextMonday + msPerMinute)
  /\ nextMonday + window_start (getTimeWindow "APAC") * msPerHour = nextMonday
  /\ next_attempt_ts west = Some (nextMonday + msPerMinute)
  /\ nextMonday + window_start (getTimeWindow "US_WEST") * msPerHour
     = nextMonday + 17 * msPerHour.
Proof.
  vm_compute. repeat split; reflexivity.
Qed.

(** C5, amended. For a region that is not a name inherited from
    [Object.prototype], when the evaluation time lies in the ISO week of
    the wall clock, that week's Monday and the eight days after it are in
    the range of [Date], and the lead has three or more attempts
    timestamped within that week, [scheduleAttempt] returns
    [eligible: false] with block reason WEEKLY_LIMIT_EXCEEDED;
    [next_attempt_ts] is a valid instant on the following Monday: at 00:01
    UTC when the region's window is open at 00:00 UTC, else at the hour
    the window opens. *)
Theorem C5_weekly_cap (attemptStore : AttemptStore) (clock now : Z)
    (leadId : string) (region : option string) :
  inheritedName (regionOrDefault region) = false ->
  validTime (weekStart now) ->
  weekStart now + 8 * msPerDay <= maxTime ->
  weekStart clock = weekStart now ->
  (3 <= List.length (getAttemptsInWindow (getAttempts attemptStore leadId)
                       (weekStart now) (weekStart now + 7 * msPerDay)))%nat ->
  let nextMonday := weekStart now + 7 * msPerDay in
  let window := getTimeWindow (regionOrDefault region) in
  let ts := if inWindow window 0
            then nextMonday + msPerMinute
            else nextMonday + window_start window * msPerHour in
  scheduleAttempt attemptStore clock leadId region (Some now)
  = mkResult false (Some ts) (Some "WEEKLY_LIMIT_EXCEEDED") None None
  /\ nextMonday <= ts < nextMonday + msPerDay
  /\ getUTCDay ts = 1
  /\ validTime ts.
Proof.
  intros _ [Hlow _] Hhigh Hweek Hcount nextMonday window ts.
  pose proof (weekStart_spec now) as (_ & Hmod & Hday).
  assert (Hnm : nextMonday mod msPerDay = 0) by (subst nextMonday; euclid).
  assert (Hts : nextMonday <= ts < nextMonday + msPerDay /\ getUTCDay ts = 1).
  { subst ts window.
    pose proof (table_window_start (regionOrDefault region)) as Hs.
    unfold getUTCDay in *.
    destruct (inWindow (getTimeWindow (regionOrDefault region)) 0);
      split; subst nextMonday; euclid. }
  split.
  - unfold scheduleAttempt.
    rewrite getAttemptsThisWeek_eq, Hweek.
    destruct (Z.leb_spec 3 (Z.of_nat (List.length
               (getAttemptsInWindow (getAttempts attemptStore leadId)
                  (weekStart now) (weekStart now + 7 * msPerDay))))) as [_ | Hlt]; [|lia].
    rewrite next_monday_eq.
    fold nextMonday. fold (regionOrDefault region).
    rewrite (getNextTimeInWindow_midnight nextMonday (regionOrDefault region) Hnm).
    reflexivity.
  - destruct Hts as [Hbounds Hmonday].
    split; [exact Hbounds|]. split; [exact Hmonday|].
    unfold validTime. subst nextMonday. unfold msPerDay in *. lia.
Qed.

Lemma C5_witness :
  let r := scheduleAttempt threeThisWeek (friday14h + 5 * msPerMinute) "lead-1"
             (Some "US_EAST") (Some friday14h) in
  eligible r = false
  /\ block_reason r = Some "WEEKLY_LIMIT_EXCEEDED"
  /\ next_attempt_ts r = Some 1710766800000.
Proof.
  intros r.
  destruct (C5_weekly_cap threeThisWeek (friday14h + 5 * msPerMinute) friday14h
              "lead-1" (Some "US_EAST")) as [Hr _].
  - reflexivity.
  - vm_compute. split; discriminate.
  - vm_compute. discriminate.
  - reflexivity.
  - vm_compute. lia.
  - subst r. rewrite Hr. repeat split; reflexivity.
Defined.

(** ** Busy short-retry and minimum spacing *)

Lemma getBusyRetryTime_busy (a : AttemptRecord) (now : Z) :
  outcome a = busy ->
  getBusyRetryTime a now
  = if now - timestamp a <? 15 * msPerMinute
    then Some (timestamp a + 15 * msPerMinute) else None.
Proof.
  intros Hb. unfold getBusyRetryTime. rewrite Hb. simpl.
  rewrite add_15_minutes. reflexivity.
Qed.

Lemma getBusyRetryTime_not_busy (a : AttemptRecord) (now : Z) :
  outcome a <> busy -> getBusyRetryTime a now = None.
Proof.
  intros Hb. unfold getBusyRetryTime.
  destruct (outcome a); try reflexivity. congruence.
Qed.

(** The busy retry, on the attempt [scheduleAttempt] takes for the last
    one. *)
Lemma scheduleAttempt_busy_retry (attemptStore : AttemptStore) (clock : Z)
    (leadId : string) (region : option string) (currentTime : option Z)
    (a : AttemptRecord) :
  let now := evaluationTime clock currentTime in
  let attempts := getAttempts attemptStore leadId in
  getLastAttempt attempts = Some a ->
  outcome a = busy ->
  now - timestamp a < 15 * msPerMinute ->
  (List.length (getAttemptsThisWeek clock attempts) < 3)%nat ->
  scheduleAttempt attemptStore clock leadId region currentTime
  = mkResult true (Some (timestamp a + 15 * msPerMinute)) None
             (Some (attempt_no a)) (Some (timestamp a + 15 * msPerMinute)).
Proof.
  intros now attempts Hlast Hbusy Hdiff Hweek.
  unfold scheduleAttempt.
  fold (evaluationTime clock currentTime). fold now. fold attempts.
  destruct (Z.leb_spec 3 (Z.of_nat (List.length (getAttemptsThisWeek clock attempts))))
    as [Hge | _]; [lia|].
  rewrite Hlast, (getBusyRetryTime_busy a now Hbusy).
  destruct (Z.ltb_spec (now - timestamp a) (15 * msPerMinute)) as [_ | ?]; [|lia].
  destruct (Z.ltb_spec now (timestamp a + 15 * msPerMinute)) as [_ | ?]; [|lia].
  reflexivity.
Qed.

(** C6. Where the claim holds and where the code leaves it.  When one
    attempt is strictly later than every other recorded attempt, it is a
    busy one at [T], fewer than 15 minutes have passed, the weekly cap does
    not apply and the instants ([T], [T] + 15 minutes, the evaluation time)
    are in the range of [Date], the lead is eligible with the attempt
    number of the busy attempt and [retry_after_ts] exactly [T] + 15
    minutes, whatever the region; the 24-hour rule is not consulted.  But
    when the busy attempt shares its timestamp with an attempt recorded
    before it, the earlier record is taken for the last attempt: five
    minutes after an unanswered attempt 1 and a busy attempt 2 recorded in
    the same millisecond, the call is blocked as INSUFFICIENT_SPACING. *)
Theorem C6_busy_short_retry :
  (forall (attemptStore : AttemptStore) (clock : Z) (leadId : string)
          (region : option string) (currentTime : option Z) (a : AttemptRecord),
      let now := evaluationTime clock currentTime in
      let attempts := getAttempts attemptStore leadId in
      mostRecent a attempts ->
      outcome a = busy ->
      now - timestamp a < 15 * msPerMinute ->
      (List.length (getAttemptsThisWeek clock attempts) < 3)%nat ->
      validTime now ->
      validTime (timestamp a) ->
      timestamp a + 15 * msPerMinute <= maxTime ->
      scheduleAttempt attemptStore clock leadId region currentTime
      = mkResult true (Some (timestamp a + 15 * msPerMinute)) None
                 (Some (attempt_no a)) (Some (timestamp a + 15 * msPerMinute))
      /\ validTime (timestamp a + 15 * msPerMinute))
  /\ (let now := friday14h + 5 * msPerMinute in
      let attempts := getAttempts noAnswerThenBusy "lead-1" in
      let r := scheduleAttempt noAnswerThenBusy now "lead-1" (Some "US_EAST") (Some now) in
      map attempt_no attempts = [1; 2]
      /\ map outcome attempts = [no_answer; busy]
      /\ map timestamp attempts = [friday14h; friday14h]
      /\ (List.length (getAttemptsThisWeek now attempts) < 3)%nat
      /\ getLastAttempt attempts = nth_error attempts 0
      /\ r = mkResult false (Some (friday14h + 24 * msPerHour + msPerMinute))
                      (Some "INSUFFICIENT_SPACING") (Some 2) None).
Proof.
  split.
  - intros attemptStore clock leadId region currentTime a now attempts
           Hrecent Hbusy Hdiff Hweek _ [Hlow _] Hhigh.
    split.
    + apply scheduleAttempt_busy_retry;
        [apply getLastAttempt_mostRecent; exact Hrecent | assumption ..].
    + unfold validTime, msPerMinute in *. lia.
  - vm_compute. repeat split; try reflexivity; lia.
Qed.

Lemma C6_witness :
  let r := scheduleAttempt (thursdayThenFriday busy) (friday14h + 5 * msPerMinute) "lead-1"
             (Some "US_EAST") (Some (friday14h + 5 * msPerMinute)) in
  eligible r = true
  /\ result_attempt_no r = Some 2
  /\ retry_after_ts r = Some (friday14h + 15 * msPerMinute).
Proof.
  intros r.
  destruct (proj1 C6_busy_short_retry (thursdayThenFriday busy)
              (friday14h + 5 * msPerMinute) "lead-1"
              (Some "US_EAST") (Some (friday14h + 5 * msPerMinute))
              (mkAttempt "00000000-0000-4000-8000-000000000000" "lead-1" 2
                         friday14h busy None None)) as [H _].
  - split; [right; left; reflexivity|].
    intros b Hb. vm_compute in Hb.
    destruct Hb as [<- | [<- | []]]; [right; reflexivity | left; reflexivity].
  - reflexivity.
  - vm_compute. reflexivity.
  - vm_compute. lia.
  - vm_compute. split; discriminate.
  - vm_compute. split; discriminate.
  - vm_compute. discriminate.
  - subst r. rewrite H. repeat split; reflexivity.
Defined.

(** C7, as the claim words it, fails: the attempt was at Friday 14:00 UTC,
    24 hours later is Saturday 14:00 UTC, inside the US_EAST window, and
    the suggested time is Saturday 14:01 UTC. *)
Lemma C7_counterexample :
  let now := friday14h + 30 * msPerMinute in
  let due := friday14h + 24 * msPerHour in
  let r := scheduleAttempt oneNoAnswer now "lead-1" (Some "US_EAST") (Some now) in
  eligible r = false
  /\ block_reason r = Some "INSUFFICIENT_SPACING"
  /\ inWindow (getTimeWindow "US_EAST") (getUTCHours due) = true
  /\ next_attempt_ts r = Some (due + msPerMinute)
  /\ next_attempt_ts r <> Some due.
Proof.
  vm_compute. repeat split; try reflexivity. discriminate.
Qed.

(** The 24-hour block, on the attempt [scheduleAttempt] takes for the last
    one. *)
Lemma scheduleAttempt_spacing_block (attemptStore : AttemptStore) (clock : Z)
    (leadId : string) (region : option string) (currentTime : option Z)
    (a : AttemptRecord) :
  let now := evaluationTime clock currentTime in
  let attempts := getAttempts attemptStore leadId in
  getLastAttempt attempts = Some a ->
  now - timestamp a < 24 * msPerHour ->
  (List.length (getAttemptsThisWeek clock attempts) < 3)%nat ->
  ~ (outcome a = busy /\ now - timestamp a < 15 * msPerMinute) ->
  scheduleAttempt attemptStore clock leadId region currentTime
  = mkResult false
             (Some (getNextTimeInWindow (timestamp a + 24 * msPerHour)
                                        (getTimeWindow (regionOrDefault region))))
             (Some "INSUFFICIENT_SPACING") (Some (getNextAttemptNo attempts)) None.
Proof.
  intros now attempts Hlast Hdiff Hweek Hnobusy.
  unfold scheduleAttempt.
  fold (evaluationTime clock currentTime). fold now. fold attempts.
  fold (regionOrDefault region).
  destruct (Z.leb_spec 3 (Z.of_nat (List.length (getAttemptsThisWeek clock attempts))))
    as [Hge | _]; [lia|].
  rewrite Hlast.
  assert (Hretry : match getBusyRetryTime a now with
                   | Some t => if now <? t then Some (a, t) else None
                   | None => None
                   end = None
                   /\ (Outcome_eqb (outcome a) busy
                       && isSome (getBusyRetryTime a now))%bool = false).
  { destruct (outcome a) eqn:Ho;
      try (rewrite getBusyRetryTime_not_busy by congruence; split; reflexivity).
    rewrite (getBusyRetryTime_busy a now Ho).
    destruct (Z.ltb_spec (now - timestamp a) (15 * msPerMinute)) as [Hlt | _].
    - exfalso. apply Hnobusy. split; [reflexivity | exact Hlt].
    - split; reflexivity. }
  destruct Hretry as [Hr1 Hr2]. rewrite Hr1, Hr2.
  unfold has24HourSpacing.
  destruct (Z.leb_spec (24 * msPerHour) (now - timestamp a)) as [? | _]; [lia|].
  simpl. rewrite add_24_hours. reflexivity.
Qed.

(** C7, amended. For a region that is not a name inherited from
    [Object.prototype], when one attempt is strictly later than every other
    recorded attempt, it is less than 24 hours old, the evaluation time
    and the 48 hours after the attempt are in the range of [Date], and
    neither the weekly cap nor the busy short-retry applies,
    [scheduleAttempt] returns [eligible: false] with block reason
    INSUFFICIENT_SPACING; with [due] the instant 24 hours after that
    attempt, [next_attempt_ts] is a valid instant: the start of the minute
    that follows [due] when [due] falls inside the region's window, and the
    first opening of the window after [due] when it falls outside. *)
Theorem C7_minimum_spacing (attemptStore : AttemptStore) (clock : Z)
    (leadId : string) (region : option string) (currentTime : option Z)
    (a : AttemptRecord) :
  let now := evaluationTime clock currentTime in
  let attempts := getAttempts attemptStore leadId in
  inheritedName (regionOrDefault region) = false ->
  mostRecent a attempts ->
  now - timestamp a < 24 * msPerHour ->
  (List.length (getAttemptsThisWeek clock attempts) < 3)%nat ->
  ~ (outcome a = busy /\ now - timestamp a < 15 * msPerMinute) ->
  validTime now ->
  validTime (timestamp a) ->
  timestamp a + 48 * msPerHour <= maxTime ->
  let due := timestamp a + 24 * msPerHour in
  let window := getTimeWindow (regionOrDefault region) in
  let ts := getNextTimeInWindow due window in
  scheduleAttempt attemptStore clock leadId region currentTime
  = mkResult false (Some ts) (Some "INSUFFICIENT_SPACING")
             (Some (getNextAttemptNo attempts)) None
  /\ (inWindow window (getUTCHours due) = true ->
      ts = due - due mod msPerMinute + msPerMinute
      /\ due < ts <= due + msPerMinute)
  /\ (inWindow window (getUTCHours due) = false ->
      due < ts <= due + msPerDay
      /\ ts mod msPerDay = window_start window * msPerHour)
  /\ validTime ts.
Proof.
  intros now attempts _ Hrecent Hdiff Hweek Hnobusy _ [Hlow _] Hhigh due window ts.
  assert (Hinside : inWindow window (getUTCHours due) = true ->
                    ts = due - due mod msPerMinute + msPerMinute
                    /\ due < ts <= due + msPerMinute).
  { intros Hin. subst ts.
    rewrite (getNextTimeInWindow_inside due window Hin).
    split; [reflexivity | euclid]. }
  assert (Houtside : inWindow window (getUTCHours due) = false ->
                     due < ts <= due + msPerDay
                     /\ ts mod msPerDay = window_start window * msPerHour).
  { intros Hout. subst ts window.
    apply getNextTimeInWindow_outside; [apply table_window_start | exact Hout]. }
  split.
  { apply scheduleAttempt_spacing_block;
      [apply getLastAttempt_mostRecent; exact Hrecent | assumption ..]. }
  split; [exact Hinside|]. split; [exact Houtside|].
  unfold validTime.
  destruct (inWindow window (getUTCHours due)).
  - destruct (Hinside eq_refl) as [_ Hb].
    subst due. unfold msPerHour, msPerMinute in *. lia.
  - destruct (Houtside eq_refl) as [Hb _].
    subst due. unfold msPerHour, msPerDay in *. lia.
Qed.

Lemma C7_witness :
  let now := friday14h + 30 * msPerMinute in
  let r := scheduleAttempt (thursdayThenFriday no_answer) now "lead-1" (Some "EU")
             (Some now) in
  eligible r = false
  /\ block_reason r = Some "INSUFFICIENT_SPACING"
  /\ result_attempt_no r = Some 3.
Proof.
  intros now r.
  destruct (C7_minimum_spacing (thursdayThenFriday no_answer) now "lead-1" (Some "EU")
              (Some now)
              (mkAttempt "00000000-0000-4000-8000-000000000000" "lead-1" 2
                         friday14h no_answer None None)) as [Hr _].
  - reflexivity.
  - split; [right; left; reflexivity|].
    intros b Hb. vm_compute in Hb.
    destruct Hb as [<- | [<- | []]]; [right; reflexivity | left; reflexivity].
  - vm_compute. reflexivity.
  - vm_compute. lia.
  - intros [Hb _]. discriminate Hb.
  - vm_compute. split; discriminate.
  - vm_compute. split; discriminate.
  - vm_compute. discriminate.
  - subst r. rewrite Hr. repeat split; reflexivity.
Defined.

(** On equal timestamps the rule is not reached: five minutes after a busy
    attempt 1 and an unanswered attempt 2 recorded in the same millisecond,
    the earlier record is taken for the last attempt and the busy retry is
    granted. *)
Example spacing_rule_on_equal_timestamps :
  let now := friday14h + 5 * msPerMinute in
  let attempts := getAttempts busyThenNoAnswer "lead-1" in
  map outcome attempts = [busy; no_answer]
  /\ map timestamp attempts = [friday14h; friday14h]
  /\ scheduleAttempt busyThenNoAnswer now "lead-1" (Some "US_EAST") (Some now)
     = mkResult true (Some (friday14h + 15 * msPerMinute)) None (Some 1)
                (Some (friday14h + 15 * msPerMinute)).
Proof. vm_compute. repeat split; reflexivity. Qed.

(** ** Voicemail gate *)

(** C10. What the code does: with no recorded attempt the voicemail check
    is false and after one attempt numbered 1 it is true, but after two
    attempts numbered 1 and 2 that carry the same timestamp the last
    attempt is taken to be the first one, the next attempt number is 2
    again, and the check is still true. *)
Theorem C10_voicemail_gate_on_equal_timestamps :
  isVoicemailAllowedForLead [] "lead-1" = false
  /\ isVoicemailAllowedForLead oneNoAnswer "lead-1" = true
  /\ numberedFrom 1 (getAttempts twoAtOnce "lead-1")
  /\ List.length (getAttempts twoAtOnce "lead-1") = 2%nat
  /\ getNextAttemptNo (getAttempts twoAtOnce "lead-1") = 2
  /\ isVoicemailAllowedForLead twoAtOnce "lead-1" = true.
Proof.
  vm_compute. repeat split; reflexivity.
Qed.

End AttemptsProps.

(** * Properties of the calendar reservation engine *)

Module CalendarProps.
Import Js Contracts Calendar.

(** ** Lazy expiry *)

Lemma cleanupLoop_no_expired (now : Z) (entries : list (string * HoldCacheEntry)) :
  forall st,
    Forall (fun kv => now < expires_at (snd kv)) entries ->
    cleanupLoop now entries st = st.
Proof.
  induction entries as [|[k v] rest IH]; intros st Hall; [reflexivity|].
  inversion Hall as [|? ? Hv Hrest]; subst. simpl in *.
  destruct (Z.leb_spec (expires_at v) now); [lia|].
  apply IH. exact Hrest.
Qed.

Lemma cleanupLoop_events (now : Z) (entries : list (string * HoldCacheEntry)) :
  forall st,
    managerEvents (cleanupLoop now entries st) = managerEvents st
    /\ eventStore (cleanupLoop now entries st) = eventStore st.
Proof.
  induction entries as [|[k v] rest IH]; intros st; [split; reflexivity|].
  simpl.
  match goal with
  | |- context [cleanupLoop now rest ?st'] => destruct (IH st') as [H1 H2]
  end.
  rewrite H1, H2. destruct (expires_at v <=? now); split; reflexivity.
Qed.

Lemma filter_filter {A : Type} (p q : A -> bool) (l : list A) :
  filter p (filter q l) = filter (fun x => (q x && p x)%bool) l.
Proof.
  induction l as [|x l IH]; [reflexivity|].
  simpl. destruct (q x); simpl; [destruct (p x)|]; rewrite IH; reflexivity.
Qed.

(** The purge removes from [holdStore] exactly the keys of expired
    entries. *)
Lemma cleanupLoop_holdStore (now : Z) (entries : list (string * HoldCacheEntry)) :
  forall st,
    holdStore (cleanupLoop now entries st)
    = filter (fun kv => negb (expiredKey now entries (fst kv))) (holdStore st).
Proof.
  induction entries as [|[k v] rest IH]; intros st.
  - simpl. induction (holdStore st) as [|x l IHl]; [reflexivity|].
    simpl. rewrite <- IHl. reflexivity.
  - simpl. rewrite IH.
    destruct (expires_at v <=? now); simpl.
    + unfold JsMap.delete. rewrite filter_filter.
      apply filter_ext. intros [k' v']. simpl.
      rewrite andb_true_r, negb_orb, (String.eqb_sym k' k). reflexivity.
    + apply filter_ext. intros [k' v']. simpl.
      rewrite andb_false_r. reflexivity.
Qed.

Lemma cleanup_leaves_live (now : Z) (st : Stores) :
  Forall (fun kv => now < expires_at (snd kv)) (holdStore (cleanupExpiredHolds now st)).
Proof.
  unfold cleanupExpiredHolds. rewrite cleanupLoop_holdStore.
  apply Forall_forall. intros [k v] Hin.
  apply filter_In in Hin. destruct Hin as [Hin Hkey]. simpl in *.
  destruct (Z.leb_spec (expires_at v) now) as [Hexp | Hlive]; [|exact Hlive].
  exfalso. apply negb_true_iff in Hkey.
  assert (Ht : expiredKey now (holdStore st) k = true).
  { unfold expiredKey. apply existsb_exists. exists (k, v). split; [exact Hin|].
    simpl. rewrite String.eqb_refl. simpl. apply Z.leb_le. exact Hexp. }
  congruence.
Qed.

(** Purging twice at the same instant is purging once. *)
Lemma cleanup_idempotent (now : Z) (st : Stores) :
  cleanupExpiredHolds now (cleanupExpiredHolds now st) = cleanupExpiredHolds now st.
Proof.
  unfold cleanupExpiredHolds at 1.
  apply cleanupLoop_no_expired. apply cleanup_leaves_live.
Qed.

Lemma cleanup_events (now : Z) (st : Stores) :
  managerEvents (cleanupExpiredHolds now st) = managerEvents st.
Proof. unfold cleanupExpiredHolds. apply cleanupLoop_events. Qed.

Lemma existsb_map {A B : Type} (f : B -> bool) (g : A -> B) (l : list A) :
  existsb f (map g l) = existsb (fun x => f (g x)) l.
Proof.
  induction l as [|x l IH]; [reflexivity|]. simpl. rewrite IH. reflexivity.
Qed.

Section Service.

Variable getTime : string -> option Z.
Variable sha256Hex : string -> string.
Variable uuidString : string -> bool.
Variable emailString : string -> bool.
Variable urlString : string -> bool.

(** ** The overlap test *)

(** On a purged store [hasOverlap] is the overlap test run over the
    manager's reservations. *)
Lemma hasOverlap_reservations (now : Z) (st : Stores) (managerId startUtc endUtc : string) :
  hasOverlap getTime now (cleanupExpiredHolds now st) managerId startUtc endUtc None
  = (existsb (conflictsWith getTime startUtc endUtc) (reservations now st managerId),
     cleanupExpiredHolds now st).
Proof.
  unfold hasOverlap, reservations.
  rewrite cleanup_idempotent, cleanup_events, existsb_app, !existsb_map.
  unfold conflictsWith. simpl.
  destruct (existsb _ (JsMap.getList (managerEvents st) managerId)); reflexivity.
Qed.

Lemma placeHold_overlap (now : Z) (uuid : string) (st : Stores)
    (managerId startUtc endUtc : string) (ttl : Z) :
  300 <= ttl <= 1800 ->
  existsb (conflictsWith getTime startUtc endUtc) (reservations now st managerId) = true ->
  fst (placeHold getTime uuidString now uuid st managerId startUtc endUtc ttl)
  = mkPlaceHoldResult false None (Some OVERLAP_ERROR).
Proof.
  intros Httl Hex. unfold placeHold.
  destruct (Z.ltb_spec ttl 300); [lia|].
  destruct (Z.ltb_spec 1800 ttl); [lia|]. simpl.
  rewrite hasOverlap_reservations, Hex. reflexivity.
Qed.

Lemma placeHold_accepted (now : Z) (uuid : string) (st : Stores)
    (managerId startUtc endUtc : string) (ttl : Z) :
  300 <= ttl <= 1800 ->
  existsb (conflictsWith getTime startUtc endUtc) (reservations now st managerId) = false ->
  CalendarHoldSchema uuidString (mkHold uuid managerId startUtc endUtc "system" ttl) = true ->
  fst (placeHold getTime uuidString now uuid st managerId startUtc endUtc ttl)
  = mkPlaceHoldResult true (Some uuid) None.
Proof.
  intros Httl Hex Hschema. unfold placeHold.
  destruct (Z.ltb_spec ttl 300); [lia|].
  destruct (Z.ltb_spec 1800 ttl); [lia|]. simpl.
  rewrite hasOverlap_reservations, Hex, Hschema. reflexivity.
Qed.

(** The test on instants: both disjuncts of the source say the same. *)
Lemma overlapsBuffered_iff (a b s2 e2 : Z) :
  overlapsBuffered (Some (a - BUFFER_MS)) (Some (b + BUFFER_MS)) (Some s2) (Some e2) = true
  <-> a - BUFFER_MS < e2 /\ b + BUFFER_MS > s2.
Proof.
  unfold overlapsBuffered, ltNum.
  destruct (Z.ltb_spec (a - BUFFER_MS) e2), (Z.ltb_spec s2 (b + BUFFER_MS)); simpl;
    split; try discriminate; try lia; intros _; reflexivity.
Qed.

Lemma conflictsWith_instants (startUtc endUtc sUtc eUtc : string) (a b s e : Z) :
  getTime startUtc = Some a ->
  getTime endUtc = Some b ->
  getTime sUtc = Some s ->
  getTime eUtc = Some e ->
  conflictsWith getTime startUtc endUtc (sUtc, eUtc) = true
  <-> a - BUFFER_MS < e /\ b + BUFFER_MS > s.
Proof.
  intros Ha Hb Hs He. unfold conflictsWith. simpl.
  rewrite Ha, Hb, Hs, He. simpl.
  replace (a + - BUFFER_MS) with (a - BUFFER_MS) by lia.
  apply overlapsBuffered_iff.
Qed.

(** C8. For a manager whose timeline holds exactly one reservation [s, e],
    [placeHold] with a valid TTL rejects [s - 9min, e - 9min] and
    [s + 9min, e + 9min] as overlapping and accepts a well-formed interval
    that starts at or after [e + 11min].  The conflict test of a candidate
    [a, b] against [s2, e2] holds iff [a - buffer < e2] and
    [b + buffer > s2]; it is symmetric in the two intervals. *)
Theorem C8_buffer_symmetry :
  (forall (now : Z) (uuid : string) (st : Stores) (managerId sUtc eUtc : string)
          (s e ttl : Z),
      reservations now st managerId = [(sUtc, eUtc)] ->
      getTime sUtc = Some s ->
      getTime eUtc = Some e ->
      s <= e ->
      300 <= ttl <= 1800 ->
      (forall cs ce,
          getTime cs = Some (s - 9 * MINUTE) ->
          getTime ce = Some (e - 9 * MINUTE) ->
          fst (placeHold getTime uuidString now uuid st managerId cs ce ttl)
          = mkPlaceHoldResult false None (Some OVERLAP_ERROR))
      /\ (forall cs ce,
             getTime cs = Some (s + 9 * MINUTE) ->
             getTime ce = Some (e + 9 * MINUTE) ->
             fst (placeHold getTime uuidString now uuid st managerId cs ce ttl)
             = mkPlaceHoldResult false None (Some OVERLAP_ERROR))
      /\ (forall cs ce c,
             getTime cs = Some c ->
             e + 11 * MINUTE <= c ->
             CalendarHoldSchema uuidString
               (mkHold uuid managerId cs ce "system" ttl) = true ->
             fst (placeHold getTime uuidString now uuid st managerId cs ce ttl)
             = mkPlaceHoldResult true (Some uuid) None))
  /\ (forall a b s2 e2 : Z,
         overlapsBuffered (Some (a - BUFFER_MS)) (Some (b + BUFFER_MS)) (Some s2) (Some e2)
         = true
         <-> a - BUFFER_MS < e2 /\ b + BUFFER_MS > s2)
  /\ (forall a b s2 e2 : Z,
         overlapsBuffered (Some (a - BUFFER_MS)) (Some (b + BUFFER_MS)) (Some s2) (Some e2)
         = overlapsBuffered (Some (s2 - BUFFER_MS)) (Some (e2 + BUFFER_MS)) (Some a) (Some b)).
Proof.
  split; [|split].
  - intros now uuid st managerId sUtc eUtc s e ttl Hres Hs He Hse Httl.
    split; [|split].
    + intros cs ce Hcs Hce. apply placeHold_overlap; [exact Httl|].
      rewrite Hres. simpl. rewrite orb_false_r.
      apply (conflictsWith_instants cs ce sUtc eUtc _ _ s e Hcs Hce Hs He).
      unfold BUFFER_MS, MINUTE. lia.
    + intros cs ce Hcs Hce. apply placeHold_overlap; [exact Httl|].
      rewrite Hres. simpl. rewrite orb_false_r.
      apply (conflictsWith_instants cs ce sUtc eUtc _ _ s e Hcs Hce Hs He).
      unfold BUFFER_MS, MINUTE. lia.
    + intros cs ce c Hcs Hc Hschema. apply placeHold_accepted; [exact Httl | | exact Hschema].
      rewrite Hres. simpl. rewrite orb_false_r.
      assert (Hfar : ltNum (addNum (getTime cs) (- BUFFER_MS)) (getTime eUtc) = false).
      { rewrite Hcs, He. simpl. apply Z.ltb_ge. unfold BUFFER_MS, MINUTE in *. lia. }
      unfold conflictsWith, overlapsBuffered. cbn [fst snd]. rewrite Hfar.
      rewrite andb_false_r. reflexivity.
  - apply overlapsBuffered_iff.
  - intros a b s2 e2.
    destruct (overlapsBuffered (Some (a - BUFFER_MS)) (Some (b + BUFFER_MS))
                (Some s2) (Some e2)) eqn:H1;
      destruct (overlapsBuffered (Some (s2 - BUFFER_MS)) (Some (e2 + BUFFER_MS))
                  (Some a) (Some b)) eqn:H2; try reflexivity.
    + apply overlapsBuffered_iff in H1.
      assert (H3 : s2 - BUFFER_MS < b /\ e2 + BUFFER_MS > a) by lia.
      apply overlapsBuffered_iff in H3. congruence.
    + apply overlapsBuffered_iff in H2.
      assert (H3 : a - BUFFER_MS < e2 /\ b + BUFFER_MS > s2) by lia.
      apply overlapsBuffered_iff in H3. congruence.
Qed.

(** ** The derived iCal UID *)

(** An event submitted without a UID leaves [createEvent] carrying the UID
    derived from its meeting identifier and start timestamp, and a UID that
    is returned is that one, whatever the stores hold and whatever the
    other fields. *)
Lemma createEvent_uid_derived (now : Z) (st : Stores) (event : CalendarEvent) :
  truthyStr (iCal_uid event) = false ->
  let uid := generateICalUid sha256Hex (meeting_id event) (start_utc event) in
  let out := createEvent getTime sha256Hex uuidString emailString urlString now st event in
  iCal_uid (event_left out) = Some uid
  /\ (ce_success (returned out) = true -> ce_iCal_uid (returned out) = Some uid)
  /\ (ce_success (returned out) = false -> ce_iCal_uid (returned out) = None).
Proof.
  intros Hno uid out. subst out uid. unfold createEvent. rewrite Hno. cbn [negb].
  destruct (preWriteGate _ _ _ _); cbn [negb];
    [|repeat split; try reflexivity; discriminate].
  destruct (hasOverlap _ _ _ _ _ _ _) as [overlap st'].
  destruct overlap; [repeat split; try reflexivity; discriminate|].
  destruct (CalendarEventSchema _ _ _ _); cbn [negb];
    repeat split; try reflexivity; discriminate.
Qed.

Lemma createEvent_on_empty (now : Z) (event : CalendarEvent) :
  truthyStr (iCal_uid event) = false ->
  let uid := generateICalUid sha256Hex (meeting_id event) (start_utc event) in
  preWriteGate uuidString emailString urlString (withICalUid event uid) = true ->
  returned (createEvent getTime sha256Hex uuidString emailString urlString
              now emptyStores event)
  = mkCreateEventResult true
      (Some ("https://meet.example.com/" ++ meeting_id event)%string) (Some uid) None.
Proof.
  intros Hno uid Hgate. unfold createEvent. rewrite Hno. cbn [negb].
  fold uid. rewrite Hgate. cbn [negb].
  unfold preWriteGate in Hgate.
  apply andb_prop in Hgate. destruct Hgate as [Hgate _].
  apply andb_prop in Hgate. destruct Hgate as [Hgate _].
  apply andb_prop in Hgate. destruct Hgate as [_ Hschema].
  cbn. rewrite Hschema. reflexivity.
Qed.

(** C3. Two events that share a meeting identifier and a start timestamp
    and supply no iCal UID, each created on an empty store and each valid
    once the UID is filled in, are both created with the same UID: the one
    derived from the meeting identifier and the start timestamp.  On any
    store (the one a first call has left, say) the event is given that same
    derived UID, and it is the UID returned whenever the call succeeds. *)
Theorem C3_idempotent_uid :
  (forall (now1 now2 : Z) (ev1 ev2 : CalendarEvent),
      meeting_id ev1 = meeting_id ev2 ->
      start_utc ev1 = start_utc ev2 ->
      truthyStr (iCal_uid ev1) = false ->
      truthyStr (iCal_uid ev2) = false ->
      let uid := generateICalUid sha256Hex (meeting_id ev1) (start_utc ev1) in
      preWriteGate uuidString emailString urlString (withICalUid ev1 uid) = true ->
      preWriteGate uuidString emailString urlString (withICalUid ev2 uid) = true ->
      let r1 := returned (createEvent getTime sha256Hex uuidString emailString urlString
                            now1 emptyStores ev1) in
      let r2 := returned (createEvent getTime sha256Hex uuidString emailString urlString
                            now2 emptyStores ev2) in
      ce_success r1 = true
      /\ ce_success r2 = true
      /\ ce_iCal_uid r1 = Some uid
      /\ ce_iCal_uid r2 = ce_iCal_uid r1)
  /\ (forall (now1 now2 : Z) (st1 st2 : Stores) (ev1 ev2 : CalendarEvent),
         meeting_id ev1 = meeting_id ev2 ->
         start_utc ev1 = start_utc ev2 ->
         truthyStr (iCal_uid ev1) = false ->
         truthyStr (iCal_uid ev2) = false ->
         let uid := generateICalUid sha256Hex (meeting_id ev1) (start_utc ev1) in
         let out1 := createEvent getTime sha256Hex uuidString emailString urlString
                       now1 st1 ev1 in
         let out2 := createEvent getTime sha256Hex uuidString emailString urlString
                       now2 st2 ev2 in
         iCal_uid (event_left out1) = Some uid
         /\ iCal_uid (event_left out2) = Some uid
         /\ (ce_success (returned out1) = true -> ce_iCal_uid (returned out1) = Some uid)
         /\ (ce_success (returned out2) = true -> ce_iCal_uid (returned out2) = Some uid)).
Proof.
  split.
  - intros now1 now2 ev1 ev2 Hid Hstart Hno1 Hno2 uid Hg1 Hg2 r1 r2.
    subst r1 r2.
    rewrite (createEvent_on_empty now1 ev1 Hno1 Hg1).
    assert (Hg2' : preWriteGate uuidString emailString urlString
                     (withICalUid ev2
                        (generateICalUid sha256Hex (meeting_id ev2) (start_utc ev2))) = true).
    { rewrite <- Hid, <- Hstart. exact Hg2. }
    rewrite (createEvent_on_empty now2 ev2 Hno2 Hg2').
    cbn. rewrite <- Hid, <- Hstart. repeat split; reflexivity.
  - intros now1 now2 st1 st2 ev1 ev2 Hid Hstart Hno1 Hno2 uid out1 out2.
    destruct (createEvent_uid_derived now1 st1 ev1 Hno1) as (Ha1 & Hb1 & _).
    destruct (createEvent_uid_derived now2 st2 ev2 Hno2) as (Ha2 & Hb2 & _).
    rewrite <- Hid, <- Hstart in Ha2, Hb2.
    repeat split; assumption.
Qed.

End Service.

(** Two calls in a row for the same manager and slot: the second one is
    refused, because the slot overlaps the event the first one stored, and
    still leaves the event with the same derived UID. *)
Example createEvent_twice_in_a_row :
  let ev := testEvent "550e8400-e29b-41d4-a716-446655440000" in
  let first := createEvent testGetTime testDigest anyString anyString anyString
                 0 emptyStores ev in
  let second := createEvent testGetTime testDigest anyString anyString anyString
                  5000 (stores_left first) ev in
  ce_success (returned first) = true
  /\ returned second = mkCreateEventResult false None None (Some OVERLAP_ERROR)
  /\ iCal_uid (event_left second) = ce_iCal_uid (returned first).
Proof.
  vm_compute. repeat split; reflexivity.
Qed.

Lemma C3_witness :
  let ev1 := testEvent "550e8400-e29b-41d4-a716-446655440000" in
  let ev2 := retitled ev1 in
  let r1 := returned (createEvent testGetTime testDigest anyString anyString anyString
                        0 emptyStores ev1) in
  let r2 := returned (createEvent testGetTime testDigest anyString anyString anyString
                        5000 emptyStores ev2) in
  ce_success r1 = true
  /\ ce_success r2 = true
  /\ ce_iCal_uid r1 = Some "9f86d081-884c-7d65-9a2f-eaa0c55ad015"
  /\ ce_iCal_uid r2 = ce_iCal_uid r1.
Proof.
  intros ev1 ev2.
  apply (proj1 (C3_idempotent_uid testGetTime testDigest anyString anyString anyString)
           0 5000 ev1 ev2); reflexivity.
Defined.

Lemma C8_witness :
  fst (placeHold testGetTime anyString 1000 "22222222-2222-4222-8222-222222222222"
         oneHold testManager "2024-03-15T13:51:00.000Z" "2024-03-15T14:21:00.000Z" 1800)
  = mkPlaceHoldResult false None (Some OVERLAP_ERROR).
Proof.
  refine (proj1 (proj1 (C8_buffer_symmetry testGetTime anyString)
                   1000 "22222222-2222-4222-8222-222222222222" oneHold testManager
                   "2024-03-15T14:00:00.000Z" "2024-03-15T14:30:00.000Z"
                   1710511200000 1710513000000 1800 _ _ _ _ _)
                "2024-03-15T13:51:00.000Z" "2024-03-15T14:21:00.000Z" _ _).
  - reflexivity.
  - reflexivity.
  - reflexivity.
  - lia.
  - lia.
  - reflexivity.
  - reflexivity.
Defined.

End CalendarProps.

(** * Further properties of the conversation state machine *)

Module StateMachineMore.
Import Js StateMachine StateMachineVocabulary.

Ltac case_ifs :=
  repeat match goal with
         | |- context [if ?c then _ else _] => destruct c eqn:?; simpl
         end.

(** ** Terminal states *)

Lemma checkMandatoryLines_late (s : StateMachineState) (i : StateMachineInput) :
  current s <> IdentifyContact ->
  current s <> ConsentGate ->
  current s <> Qualify ->
  checkMandatoryLines s i = mandatory_lines s.
Proof.
  intros H1 H2 H3. unfold checkMandatoryLines.
  destruct (current s); try congruence; simpl;
    rewrite ?andb_false_r; reflexivity.
Qed.

Lemma terminal_step (s : StateMachineState) (i : StateMachineInput) :
  isTerminalState (current s) = true ->
  nextState s i
  = mkState (current s) (updateSlots (slots s) i) (mandatory_lines s) (context s)
            (booking_intent s) (history s).
Proof.
  intros Ht. unfold nextState.
  rewrite checkMandatoryLines_late by (destruct (current s); discriminate).
  destruct (current s); try discriminate; reflexivity.
Qed.

Lemma terminal_many (inputs : list StateMachineInput) :
  forall s,
    isTerminalState (current s) = true ->
    transitions s inputs
    = mkState (current s) (fold_left updateSlots inputs (slots s)) (mandatory_lines s)
              (context s) (booking_intent s) (history s).
Proof.
  induction inputs as [|i rest IH]; intros s Ht.
  - destruct s; reflexivity.
  - unfold transitions in *. simpl. rewrite (terminal_step s i Ht).
    rewrite IH by exact Ht. reflexivity.
Qed.

(** X1. Once the machine is in [OptOut], [Transfer], [Voicemail] or [End],
    no sequence of inputs changes the state tag, the booking intent, the
    history, the mandatory lines or the context; only the slots keep
    absorbing what the inputs carry. *)
Theorem X1_terminal_states_absorb (s : StateMachineState) (inputs : list StateMachineInput) :
  isTerminalState (current s) = true ->
  let s' := transitions s inputs in
  current s' = current s
  /\ booking_intent s' = booking_intent s
  /\ history s' = history s
  /\ mandatory_lines s' = mandatory_lines s
  /\ context s' = context s
  /\ slots s' = fold_left updateSlots inputs (slots s).
Proof.
  intros Ht s'. subst s'. rewrite (terminal_many inputs s Ht).
  repeat split; reflexivity.
Qed.

Lemma X1_witness :
  let s := stateAt OptOut emptySlots in
  let s' := transitions s [confirmsTime "2024-03-15T19:00:00.000Z"; confirmsExplicitly;
                           textOnly "We need this urgently"] in
  current s' = OptOut
  /\ booking_intent s' = None
  /\ timing (slots s') = Some this_quarter.
Proof.
  intros s s'.
  pose proof (X1_terminal_states_absorb s
                [confirmsTime "2024-03-15T19:00:00.000Z"; confirmsExplicitly;
                 textOnly "We need this urgently"] eq_refl) as H.
  cbv zeta in H. destruct H as (Hc & Hb & _ & _ & _ & Hs).
  fold s' in Hc, Hb, Hs. rewrite Hc, Hb, Hs. repeat split; reflexivity.
Defined.

(** ** The transition graph *)

(** X2. One call of [nextState] moves along an edge of the state graph: it
    never skips a state of the success path and never returns to an
    earlier one. *)
Theorem X2_one_step_successors (s : StateMachineState) (i : StateMachineInput) :
  In (current (nextState s i)) (successors (current s)).
Proof.
  unfold nextState. destruct (current s); simpl; case_ifs; simpl; tauto.
Qed.

(** X3. The exits need their intent: a step that enters [OptOut] carries an
    opt_out intent, one that enters [Transfer] a transfer intent, one that
    enters [Voicemail] a voicemail intent and starts in [IdentifyContact];
    a step that enters [End] starts in [Qualify] with a disqualify intent
    or in [Confirm] with an explicit confirmation. *)
Theorem X3_exits_need_their_intent (s : StateMachineState) (i : StateMachineInput) :
  current (nextState s i) <> current s ->
  (current (nextState s i) = OptOut -> intent i = Some opt_out)
  /\ (current (nextState s i) = Transfer -> intent i = Some transfer)
  /\ (current (nextState s i) = Voicemail ->
      intent i = Some voicemail /\ current s = IdentifyContact)
  /\ (current (nextState s i) = End ->
      (current s = Qualify /\ intent i = Some disqualify)
      \/ (current s = Confirm /\ explicit_confirmation i = Some true)).
Proof.
  unfold nextState.
  destruct (current s) eqn:Hc; simpl; case_ifs; simpl; intros Hne;
    try (exfalso; apply Hne; reflexivity);
    repeat match goal with
           | H : intentIs _ _ = true |- _ => apply StateMachineProps.intentIs_true in H
           | H : (_ && _)%bool = true |- _ => apply andb_prop in H; destruct H
           | H : truthy _ = true |- _ => apply StateMachineProps.truthy_true in H
           end;
    (split; [|split; [|split]]); intros Heq; try discriminate Heq;
    try assumption; try (split; [assumption | reflexivity]);
    try (left; split; [reflexivity | assumption]);
    try (right; split; [reflexivity | assumption]).
Qed.

Lemma X3_witness :
  let s := stateAt Qualify emptySlots in
  let i := intentOnly disqualify in
  (current (nextState s i) = OptOut -> intent i = Some opt_out)
  /\ (current (nextState s i) = Transfer -> intent i = Some transfer)
  /\ (current (nextState s i) = Voicemail ->
      intent i = Some voicemail /\ current s = IdentifyContact)
  /\ (current (nextState s i) = End ->
      (current s = Qualify /\ intent i = Some disqualify)
      \/ (current s = Confirm /\ explicit_confirmation i = Some true)).
Proof.
  intros s i. apply X3_exits_need_their_intent. discriminate.
Defined.

(** ** History *)

Lemma history_step (s : StateMachineState) (i : StateMachineInput) :
  (current (nextState s i) = current s /\ history (nextState s i) = history s)
  \/ (current (nextState s i) <> current s
      /\ history (nextState s i) = history s ++ [current (nextState s i)]).
Proof.
  unfold nextState.
  destruct (current s); simpl; case_ifs; simpl;
    try (left; split; reflexivity); right; split; try reflexivity; discriminate.
Qed.

Lemma history_many (inputs : list StateMachineInput) :
  forall s,
    (exists visited, history (transitions s inputs) = history s ++ visited)
    /\ (historyTracksCurrent s -> historyTracksCurrent (transitions s inputs)).
Proof.
  induction inputs as [|i rest IH]; intros s.
  - split; [exists []; rewrite app_nil_r; reflexivity | auto].
  - destruct (IH (nextState s i)) as [[visited Hv] Htr].
    unfold transitions in *. simpl. split.
    + destruct (history_step s i) as [[_ Hh] | [_ Hh]]; rewrite Hh in Hv.
      * exists visited. exact Hv.
      * exists (current (nextState s i) :: visited).
        rewrite Hv, <- app_assoc. reflexivity.
    + intros Hs. apply Htr. unfold historyTracksCurrent in *.
      destruct (history_step s i) as [[Hc Hh] | [_ Hh]]; rewrite Hh.
      * rewrite Hc. exact Hs.
      * exists (history s). reflexivity.
Qed.

(** X4. The history is append-only: a step appends the new state exactly
    when the state changes and otherwise leaves the history alone, so the
    history after any inputs extends the one before; and when the history
    ends with the current state, as in the initial state, it still does
    after any inputs. *)
Theorem X4_history_append_only :
  (forall (s : StateMachineState) (i : StateMachineInput),
      (current (nextState s i) = current s /\ history (nextState s i) = history s)
      \/ (current (nextState s i) <> current s
          /\ history (nextState s i) = history s ++ [current (nextState s i)]))
  /\ (forall (s : StateMachineState) (inputs : list StateMachineInput),
         exists visited, history (transitions s inputs) = history s ++ visited)
  /\ (forall ctx : ConversationContext, historyTracksCurrent (initialState ctx))
  /\ (forall (s : StateMachineState) (inputs : list StateMachineInput),
         historyTracksCurrent s -> historyTracksCurrent (transitions s inputs)).
Proof.
  split; [exact history_step|].
  split; [intros s inputs; apply (history_many inputs s)|].
  split; [intros ctx; exists []; reflexivity|].
  intros s inputs. apply (history_many inputs s).
Qed.

Lemma X4_witness :
  historyTracksCurrent
    (transitions (stateAt ProposeTime emptySlots)
       [confirmsTime "2024-03-15T19:00:00.000Z"; confirmsExplicitly]).
Proof.
  apply (proj2 (proj2 (proj2 X4_history_append_only))).
  exists [IdentifyContact]. reflexivity.
Defined.

(** ** Mandatory lines and slots *)

Lemma keptLines_refl (l : MandatoryLines) : keptLines l l.
Proof. unfold keptLines. tauto. Qed.

Lemma keptLines_trans (a b c : MandatoryLines) :
  keptLines a b -> keptLines b c -> keptLines a c.
Proof. unfold keptLines. tauto. Qed.

Lemma keptLines_step (s : StateMachineState) (i : StateMachineInput) :
  keptLines (mandatory_lines s) (mandatory_lines (nextState s i)).
Proof.
  unfold nextState. simpl. unfold checkMandatoryLines, keptLines.
  case_ifs; simpl; tauto.
Qed.

(** X5. Mandatory lines are set once: a line that is satisfied stays
    satisfied through any sequence of inputs. *)
Theorem X5_mandatory_lines_monotone (s : StateMachineState)
    (inputs : list StateMachineInput) :
  keptLines (mandatory_lines s) (mandatory_lines (transitions s inputs)).
Proof.
  revert s. induction inputs as [|i rest IH]; intros s.
  - apply keptLines_refl.
  - eapply keptLines_trans; [apply (keptLines_step s i) | apply IH].
Qed.

Lemma keptSlots_refl (sl : ConversationSlots) : keptSlots sl sl.
Proof. unfold keptSlots. tauto. Qed.

Lemma keptSlots_trans (a b c : ConversationSlots) :
  keptSlots a b -> keptSlots b c -> keptSlots a c.
Proof. unfold keptSlots. tauto. Qed.

Lemma override_defined {A : Type} (v target : option A) :
  defined target -> defined (override v target).
Proof. unfold defined. destruct v; simpl; [discriminate | auto]. Qed.

Lemma keptSlots_updateSlots (sl : ConversationSlots) (i : StateMachineInput) :
  keptSlots sl (updateSlots sl i).
Proof.
  unfold updateSlots, keptSlots.
  destruct (in_slots i) as [x|]; case_ifs; simpl;
    repeat split; intros H; try apply override_defined; try exact H; discriminate.
Qed.

Lemma keptSlots_step (s : StateMachineState) (i : StateMachineInput) :
  keptSlots (slots s) (slots (nextState s i)).
Proof.
  pose proof (keptSlots_updateSlots (slots s) i) as Hu.
  unfold nextState.
  destruct (current s); simpl; case_ifs; simpl; try exact Hu.
  (* ProposeTime -> Confirm rewrites the two confirmed slots *)
  unfold keptSlots in *. simpl.
  destruct Hu as (H1 & H2 & H3 & H4 & _ & _ & H7).
  repeat match goal with
         | H : (_ && _)%bool = true |- _ => apply andb_prop in H; destruct H
         end.
  assert (Hsel : defined (selected_time i)).
  { unfold defined. destruct (selected_time i); [discriminate | discriminate]. }
  repeat split; auto.
Qed.

(** X6. Slots never lose information: a slot that is filled stays filled
    (possibly with a newer value) through any sequence of inputs. *)
Theorem X6_slots_keep_information (s : StateMachineState)
    (inputs : list StateMachineInput) :
  keptSlots (slots s) (slots (transitions s inputs)).
Proof.
  revert s. induction inputs as [|i rest IH]; intros s.
  - apply keptSlots_refl.
  - eapply keptSlots_trans; [apply (keptSlots_step s i) | apply IH].
Qed.

Lemma startsWith_prefix (p q : string) :
  forall s, startsWith s (p ++ q) = true -> startsWith s p = true.
Proof.
  induction p as [|a p IH]; intros s H.
  - destruct s; reflexivity.
  - destruct s as [|b s]; [discriminate H|].
    change (Ascii.eqb a b && startsWith s (p ++ q) = true)%bool in H.
    change (Ascii.eqb a b && startsWith s p = true)%bool.
    apply andb_prop in H. destruct H as [H1 H2].
    rewrite H1, (IH s H2). reflexivity.
Qed.

Lemma includes_prefix (p q : string) :
  forall s, includes s (p ++ q) = true -> includes s p = true.
Proof.
  induction s as [|c s IH]; intros H.
  - change (startsWith "" (p ++ q) || false = true)%bool in H.
    rewrite orb_false_r in H.
    change (startsWith "" p || false = true)%bool.
    rewrite (startsWith_prefix p q _ H). reflexivity.
  - change (startsWith (String c s) (p ++ q) || includes s (p ++ q) = true)%bool in H.
    change (startsWith (String c s) p || includes s p = true)%bool.
    apply orb_prop in H. destruct H as [H | H].
    + rewrite (startsWith_prefix p q _ H). reflexivity.
    + rewrite (IH H). apply orb_true_r.
Qed.

Lemma includes_decision_maker (t : string) :
  includes t "decision maker" = true -> includes t "decision" = true.
Proof. apply (includes_prefix "decision" " maker"). Qed.

(** X7. In [updateSlots] the text is read after the supplied slots, so for
    authority and timing a keyword in the text wins over a value supplied
    in the same input: a text that speaks of a decision or of authority
    makes authority [true], and a text that names the next quarter makes
    the timing [next_quarter] even when it also says urgent.  The slots the
    text is not searched for (need, budget indicator, pain stated) take the
    supplied value, or keep the old one when none is supplied. *)
Theorem X7_text_wins_over_supplied_slots (cur : ConversationSlots) (i : StateMachineInput) :
  let out := updateSlots cur i in
  authority out = (if saysAuthority i then Some true
                   else override (supplied authority i) (authority cur))
  /\ timing out = (if saysNextQuarter i then Some next_quarter
                   else if saysUrgent i then Some this_quarter
                   else override (supplied timing i) (timing cur))
  /\ need out = override (supplied need i) (need cur)
  /\ budget_indicator out = override (supplied budget_indicator i) (budget_indicator cur)
  /\ pain_stated out = override (supplied pain_stated i) (pain_stated cur).
Proof.
  unfold updateSlots, saysAuthority, saysNextQuarter, saysUrgent, supplied, heard.
  destruct (includes (toLowerCase (orEmpty (text i))) "decision maker") eqn:Hdm.
  - rewrite (includes_decision_maker _ Hdm).
    destruct (in_slots i); simpl; case_ifs; simpl; repeat split; reflexivity.
  - rewrite orb_false_r.
    destruct (in_slots i); simpl; case_ifs; simpl; repeat split; reflexivity.
Qed.

Example text_overrides_supplied_slots :
  authority (updateSlots emptySlots contradictoryInput) = Some true
  /\ timing (updateSlots emptySlots contradictoryInput) = Some this_quarter.
Proof. split; reflexivity. Qed.

(** ** The consent gate *)

(** X8. [ConsentGate] is left exactly when, once the input has been read,
    consent to proceed is recorded and, where the context requires
    recording consent, that is recorded too; until then the state stays
    [ConsentGate] whatever the intent. *)
Theorem X8_consent_gate (s : StateMachineState) (i : StateMachineInput) :
  current s = ConsentGate ->
  (current (nextState s i) <> ConsentGate <-> consentGiven s (checkMandatoryLines s i))
  /\ (current (nextState s i) = ConsentGate
      \/ consentGiven s (mandatory_lines (nextState s i))).
Proof.
  intros Hc. unfold consentGiven.
  assert (Hl : mandatory_lines (nextState s i) = checkMandatoryLines s i) by reflexivity.
  rewrite Hl. unfold nextState. rewrite Hc. simpl.
  rewrite <- !StateMachineProps.truthy_true.
  destruct (truthy (consent_to_proceed (checkMandatoryLines s i)));
    destruct (truthy (recording_required (context s)));
    destruct (truthy (recording_consent (checkMandatoryLines s i)));
    simpl; case_ifs; simpl; split;
      try (left; reflexivity);
      try (right; split; [reflexivity | intros; (reflexivity || discriminate)]);
      split; try (intros [? ?]; intuition (discriminate || congruence));
      try (intros H; exfalso; apply H; reflexivity);
      try (intros _; discriminate);
      try (intros _; split; [reflexivity | intros; (reflexivity || discriminate)]).
Qed.

Lemma X8_witness :
  let s := stateAt ConsentGate emptySlots in
  current (nextState s (intentOnly opt_out)) = ConsentGate
  \/ consentGiven s (mandatory_lines (nextState s (intentOnly opt_out))).
Proof.
  intros s. apply (proj2 (X8_consent_gate s (intentOnly opt_out) eq_refl)).
Defined.

(** ** From a proposed time to the booking intent *)

Lemma updateSlots_confirmed (cur : ConversationSlots) (i : StateMachineInput) :
  confirmed_date (updateSlots cur i)
  = override (supplied confirmed_date i) (confirmed_date cur)
  /\ confirmed_time (updateSlots cur i)
     = override (supplied confirmed_time i) (confirmed_time cur).
Proof.
  unfold updateSlots, supplied.
  destruct (in_slots i); simpl; case_ifs; simpl; split; reflexivity.
Qed.

Lemma Confirm_to_End (s : StateMachineState) (i : StateMachineInput) (d t : string) :
  current s = Confirm ->
  explicit_confirmation i = Some true ->
  confirmed_date (updateSlots (slots s) i) = Some d ->
  confirmed_time (updateSlots (slots s) i) = Some t ->
  d <> EmptyString ->
  t <> EmptyString ->
  nextState s i
  = mkState End (updateSlots (slots s) i) (checkMandatoryLines s i) (context s)
            (Some {| booking_id := ("booking-" ++ call_id (context s))%string;
                     bi_lead_id := lead_id (context s);
                     bi_confirmed_date := d;
                     bi_confirmed_time := t;
                     qualification_flags := updateSlots (slots s) i;
                     bi_explicit_confirmation := true |})
            (history s ++ [End]).
Proof.
  intros Hc He Hd Ht Hdne Htne. unfold nextState. rewrite Hc, He, Hd, Ht.
  destruct d; [congruence|]. destruct t; [congruence|]. reflexivity.
Qed.

(** X9. The two-step confirmation.  In [ProposeTime], a confirm intent with
    a selected time [t] and an explicit confirmation moves to [Confirm],
    writes [t] into both confirmed slots and produces no intent yet.  A
    following input with an explicit confirmation that does not itself
    supply the confirmed slots moves to [End] and produces the booking
    intent: its identifier is the call identifier prefixed with
    [booking-], its lead is the lead of the context, its date and time are
    [t], its qualification flags are the slots of the final state, and its
    explicit-confirmation flag is set. *)
Theorem X9_two_step_confirmation (s : StateMachineState) (i1 i2 : StateMachineInput)
    (t : string) :
  current s = ProposeTime ->
  intent i1 = Some confirm ->
  selected_time i1 = Some t ->
  t <> EmptyString ->
  explicit_confirmation i1 = Some true ->
  explicit_confirmation i2 = Some true ->
  suppliesNoConfirmedTime i2 ->
  let s1 := nextState s i1 in
  let s2 := nextState s1 i2 in
  current s1 = Confirm
  /\ confirmed_date (slots s1) = Some t
  /\ confirmed_time (slots s1) = Some t
  /\ booking_intent s1 = booking_intent s
  /\ current s2 = End
  /\ booking_intent s2
     = Some {| booking_id := ("booking-" ++ call_id (context s))%string;
               bi_lead_id := lead_id (context s);
               bi_confirmed_date := t;
               bi_confirmed_time := t;
               qualification_flags := slots s2;
               bi_explicit_confirmation := true |}.
Proof.
  intros Hc Hi Hsel Ht He1 He2 [Hd2 Ht2] s1 s2.
  assert (Hs1 : s1 = mkState Confirm
                  (mkSlots (authority (updateSlots (slots s) i1))
                     (need (updateSlots (slots s) i1))
                     (timing (updateSlots (slots s) i1))
                     (budget_indicator (updateSlots (slots s) i1))
                     (Some t) (Some t)
                     (pain_stated (updateSlots (slots s) i1)))
                  (checkMandatoryLines s i1) (context s) (booking_intent s)
                  (history s ++ [Confirm])).
  { subst s1. unfold nextState. rewrite Hc. unfold intentIs. rewrite Hi, Hsel, He1.
    simpl. destruct t; [congruence|]. reflexivity. }
  assert (Htime : confirmed_date (updateSlots (slots s1) i2) = Some t
                  /\ confirmed_time (updateSlots (slots s1) i2) = Some t).
  { destruct (updateSlots_confirmed (slots s1) i2) as [Ha Hb].
    rewrite Ha, Hb, Hd2, Ht2, Hs1. split; reflexivity. }
  destruct Htime as [Hdate Htime].
  assert (Hs2 : s2 = mkState End (updateSlots (slots s1) i2)
                       (checkMandatoryLines s1 i2) (context s1)
                       (Some {| booking_id := ("booking-" ++ call_id (context s1))%string;
                                bi_lead_id := lead_id (context s1);
                                bi_confirmed_date := t;
                                bi_confirmed_time := t;
                                qualification_flags := updateSlots (slots s1) i2;
                                bi_explicit_confirmation := true |})
                       (history s1 ++ [End])).
  { subst s2. apply Confirm_to_End; try assumption. rewrite Hs1. reflexivity. }
  rewrite Hs2. rewrite Hs1 at 1 2 3 4. simpl.
  repeat split; reflexivity.
Qed.

Lemma X9_witness :
  let s := stateAt ProposeTime (boundarySlots true) in
  let s2 := nextState (nextState s (confirmsTime "2024-03-15T19:00:00.000Z"))
              confirmsExplicitly in
  current s2 = End
  /\ option_map bi_confirmed_time (booking_intent s2) = Some "2024-03-15T19:00:00.000Z"
  /\ option_map booking_id (booking_intent s2)
     = Some "booking-550e8400-e29b-41d4-a716-446655440000".
Proof.
  intros s s2.
  pose proof (X9_two_step_confirmation s (confirmsTime "2024-03-15T19:00:00.000Z")
                confirmsExplicitly "2024-03-15T19:00:00.000Z") as H.
  cbv zeta in H. fold s2 in H.
  destruct H as (_ & _ & _ & _ & Hend & Hint); try reflexivity.
  - discriminate.
  - split; reflexivity.
  - rewrite Hend, Hint. repeat split; reflexivity.
Defined.

End StateMachineMore.

(** * Facts about [Map] *)

Module JsMapFacts.

Lemma get_set_same {V : Type} (m : JsMap.t V) (k : string) (v : V) :
  JsMap.get (JsMap.set m k v) k = Some v.
Proof.
  induction m as [|[k' v'] m IH]; simpl.
  - rewrite String.eqb_refl. reflexivity.
  - destruct (String.eqb k' k) eqn:E; simpl; rewrite E; [reflexivity | exact IH].
Qed.

Lemma get_set_other {V : Type} (m : JsMap.t V) (k k' : string) (v : V) :
  k <> k' -> JsMap.get (JsMap.set m k v) k' = JsMap.get m k'.
Proof.
  intros Hne. induction m as [|[k0 v0] m IH]; simpl.
  - apply String.eqb_neq in Hne. rewrite Hne. reflexivity.
  - destruct (String.eqb k0 k) eqn:E; simpl.
    + apply String.eqb_eq in E. subst k0.
      apply String.eqb_neq in Hne. rewrite Hne. reflexivity.
    + destruct (String.eqb k0 k'); [reflexivity | exact IH].
Qed.

Lemma get_delete_same {V : Type} (m : JsMap.t V) (k : string) :
  JsMap.get (JsMap.delete m k) k = None.
Proof.
  unfold JsMap.delete. induction m as [|[k0 v0] m IH]; simpl; [reflexivity|].
  destruct (String.eqb k0 k) eqn:E; simpl; [exact IH|].
  rewrite E. exact IH.
Qed.

Lemma get_delete_other {V : Type} (m : JsMap.t V) (k k' : string) :
  k <> k' -> JsMap.get (JsMap.delete m k) k' = JsMap.get m k'.
Proof.
  intros Hne. unfold JsMap.delete. induction m as [|[k0 v0] m IH]; simpl; [reflexivity|].
  destruct (String.eqb k0 k) eqn:E; simpl.
  - apply String.eqb_eq in E. subst k0.
    apply String.eqb_neq in Hne. rewrite Hne. exact IH.
  - destruct (String.eqb k0 k'); [reflexivity | exact IH].
Qed.

Lemma getList_set {V : Type} (m : JsMap.t (list V)) (k k' : string) (v : list V) :
  JsMap.getList (JsMap.set m k v) k'
  = if String.eqb k k' then v else JsMap.getList m k'.
Proof.
  unfold JsMap.getList. destruct (String.eqb_spec k k') as [-> | Hne].
  - rewrite get_set_same. reflexivity.
  - rewrite get_set_other by exact Hne. reflexivity.
Qed.

Lemma getList_delete {V : Type} (m : JsMap.t (list V)) (k k' : string) :
  JsMap.getList (JsMap.delete m k) k'
  = if String.eqb k k' then [] else JsMap.getList m k'.
Proof.
  unfold JsMap.getList. destruct (String.eqb_spec k k') as [-> | Hne].
  - rewrite get_delete_same. reflexivity.
  - rewrite get_delete_other by exact Hne. reflexivity.
Qed.

End JsMapFacts.

(** * Further properties of the attempt scheduler *)

Module AttemptsMore.
Import JsDate Attempts AttemptsVocabulary.

Ltac euclid := AttemptsProps.euclid.

(** ** The store *)

(** X10. [recordAttempt] appends: the lead's list is the old list followed
    by the new record, which carries the drawn identifier and the fields
    given; the lists of all other leads are untouched. *)
Theorem X10_recordAttempt_appends (attemptStore : AttemptStore) (uuid leadId : string)
    (attemptNo ts : Z) (oc : Outcome) (rg cid : option string) (other : string) :
  let recorded := recordAttempt attemptStore uuid leadId attemptNo ts oc rg cid in
  fst recorded = mkAttempt uuid leadId attemptNo ts oc rg cid
  /\ getAttempts (snd recorded) other
     = if String.eqb leadId other
       then getAttempts attemptStore leadId ++ [fst recorded]
       else getAttempts attemptStore other.
Proof.
  unfold recordAttempt, getAttempts. simpl. split; [reflexivity|].
  apply JsMapFacts.getList_set.
Qed.

(** X11. [clearAttempts] forgets one lead and no other: that lead is back
    to attempt number 1 with no voicemail allowed, the other leads keep
    their lists. *)
Theorem X11_clearAttempts_resets (attemptStore : AttemptStore) (leadId other : string) :
  let cleared := clearAttempts attemptStore leadId in
  getAttempts cleared other
  = (if String.eqb leadId other then [] else getAttempts attemptStore other)
  /\ getNextAttemptNo (getAttempts cleared leadId) = 1
  /\ isVoicemailAllowedForLead cleared leadId = false.
Proof.
  unfold clearAttempts, isVoicemailAllowedForLead, getAttempts. simpl.
  rewrite !JsMapFacts.getList_delete, String.eqb_refl. repeat split; reflexivity.
Qed.

(** ** The weekly window *)

Lemma getAttemptsInWindow_In (l : list AttemptRecord) (lo hi : Z) (a : AttemptRecord) :
  In a (getAttemptsInWindow l lo hi) <-> In a l /\ lo <= timestamp a < hi.
Proof.
  unfold getAttemptsInWindow. rewrite filter_In.
  rewrite andb_true_iff, Z.leb_le, Z.ltb_lt. tauto.
Qed.

(** X12. [getAttemptsThisWeek] keeps, in recording order, exactly the
    attempts timestamped from the Monday 00:00 UTC at or before the wall
    clock (inclusive) to the Monday after (exclusive). *)
Theorem X12_attempts_this_week (clock : Z) (attempts : list AttemptRecord) :
  let monday := weekStart clock in
  (forall a, In a (getAttemptsThisWeek clock attempts)
             <-> In a attempts /\ monday <= timestamp a < monday + 7 * msPerDay)
  /\ getAttemptsThisWeek clock attempts
     = filter (fun a => (monday <=? timestamp a) && (timestamp a <? monday + 7 * msPerDay))%bool
              attempts
  /\ getUTCDay monday = 1
  /\ monday mod msPerDay = 0
  /\ monday <= clock < monday + 7 * msPerDay.
Proof.
  intros monday. subst monday.
  pose proof (AttemptsProps.weekStart_spec clock) as (Hb & Hm & Hd).
  rewrite AttemptsProps.getAttemptsThisWeek_eq.
  split; [intros a; apply getAttemptsInWindow_In|].
  repeat split; try assumption; try apply Hb.
Qed.

(** ** The last attempt *)

Lemma insert_head (a : AttemptRecord) (sorted : list AttemptRecord) :
  hd_error (insertByTimestampDesc a sorted)
  = match hd_error sorted with
    | None => Some a
    | Some b => if timestamp b - timestamp a <=? 0 then Some a else Some b
    end.
Proof.
  destruct sorted as [|b rest]; simpl; [reflexivity|].
  destruct (timestamp b - timestamp a <=? 0); reflexivity.
Qed.

(** X13. [getLastAttempt] is undefined exactly on the empty list.
    Otherwise it returns a recorded attempt that no attempt is later than,
    and among attempts with that same latest timestamp the one recorded
    first: everything recorded before it is strictly earlier. *)
Theorem X13_getLastAttempt_latest_first_recorded (attempts : list AttemptRecord) :
  (getLastAttempt attempts = None <-> attempts = [])
  /\ (forall a, getLastAttempt attempts = Some a ->
                 exists before after,
                   attempts = before ++ a :: after
                   /\ Forall (fun b => timestamp b < timestamp a) before
                   /\ Forall (fun b => timestamp b <= timestamp a) after).
Proof.
  split.
  - unfold getLastAttempt. destruct attempts as [|x l]; [tauto|].
    change (Z.of_nat (List.length (x :: l)) =? 0) with false.
    split; [|discriminate].
    intros H. destruct (sortByTimestampDesc (x :: l)) eqn:Hs; [|discriminate H].
    apply AttemptsProps.sort_nil in Hs. discriminate.
  - unfold getLastAttempt.
    destruct (Z.of_nat (List.length attempts) =? 0); [discriminate|].
    induction attempts as [|x l IH]; intros a Ha; [discriminate|].
    simpl in Ha. rewrite insert_head in Ha.
    destruct (hd_error (sortByTimestampDesc l)) as [b|] eqn:Hb.
    + destruct (IH b eq_refl) as (before & after & Hl & Hbefore & Hafter).
      destruct (Z.leb_spec (timestamp b - timestamp x) 0) as [Hle | Hgt];
        inversion Ha; subst a.
      * exists [], l. split; [reflexivity|]. split; [constructor|].
        rewrite Hl. apply Forall_app. split.
        -- eapply Forall_impl; [|exact Hbefore]. simpl. intros; lia.
        -- constructor; [lia|]. eapply Forall_impl; [|exact Hafter]. simpl. intros; lia.
      * exists (x :: before), after. rewrite Hl. split; [reflexivity|].
        split; [constructor; [lia | exact Hbefore] | exact Hafter].
    + inversion Ha; subst a.
      destruct (sortByTimestampDesc l) eqn:Hs; [|discriminate Hb].
      apply AttemptsProps.sort_nil in Hs. subst l.
      exists [], []. repeat split; constructor.
Qed.

Lemma X13_witness :
  exists before after,
    getAttempts twoAtOnce "lead-1"
    = before
      ++ mkAttempt "00000000-0000-4000-8000-000000000000" "lead-1" 1 friday14h
           no_answer None None
      :: after
    /\ Forall (fun b => timestamp b < friday14h) before
    /\ Forall (fun b => timestamp b <= friday14h) after.
Proof.
  apply (proj2 (X13_getLastAttempt_latest_first_recorded (getAttempts twoAtOnce "lead-1"))
           (mkAttempt "00000000-0000-4000-8000-000000000000" "lead-1" 1 friday14h
              no_answer None None)).
  reflexivity.
Defined.

(** ** The time-window rule *)




(** ** The shape of a result *)

(** X15. Every result of [scheduleAttempt] carries a next-attempt
    timestamp; it is eligible exactly when it carries no block reason; a
    block reason is one of the three; the attempt number is missing exactly
    for the weekly-cap block; and [retry_after_ts], when present, comes
    with [eligible: true] and repeats the next-attempt timestamp. *)
Theorem X15_result_shape (attemptStore : AttemptStore) (clock : Z)
    (leadId : string) (region : option string) (currentTime : option Z) :
  wellShaped (scheduleAttempt attemptStore clock leadId region currentTime).
Proof.
  unfold scheduleAttempt, wellShaped, blockReasons.
  repeat match goal with
         | |- context [if ?c then _ else _] => destruct c
         | |- context [match ?x with Some _ => _ | None => _ end] => destruct x
         | |- context [let (_, _) := ?p in _] => destruct p
         end;
    simpl;
    repeat split; try discriminate; try (intros; reflexivity);
    try (left; reflexivity); try (right; split; reflexivity);
    try (right; eexists; split; [reflexivity | simpl; tauto]);
    try (intros H; discriminate H).
Qed.

(** ** The next time in a window *)

Lemma next_minute_hour (t : Z) :
  let r := t - t mod msPerMinute + msPerMinute in
  t < r <= t + msPerMinute
  /\ (getUTCHours r = getUTCHours t
      \/ (getUTCHours r = (getUTCHours t + 1) mod 24
          /\ r mod msPerDay = getUTCHours r * msPerHour)).
Proof.
  intros r. subst r. unfold getUTCHours.
  split; [euclid|].
  destruct (Z_lt_dec (t mod msPerHour) (msPerHour - msPerMinute)) as [Hlt | Hge].
  - left. revert Hlt. euclid.
  - right. revert Hge. split; euclid.
Qed.

Ltac decide_tests :=
  repeat match goal with
         | |- context [?a <=? ?b] => destruct (Z.leb_spec a b)
         | |- context [?a <? ?b] => destruct (Z.ltb_spec a b)
         | H : context [?a <=? ?b] |- _ => destruct (Z.leb_spec a b)
         | H : context [?a <? ?b] |- _ => destruct (Z.ltb_spec a b)
         end.

(** X16. For every region that is not a name inherited from
    [Object.prototype], and every valid instant at least a day before the
    end of the range of [Date], the time [getNextTimeInWindow] suggests is
    a valid instant, strictly later than the given one and at most a day
    later.  It lies inside the region's window, with one exception: from
    the final minute of the window it is the instant at which the window
    closes. *)
Theorem X16_next_time_in_window (now : Z) (region : string) :
  let window := getTimeWindow region in
  let ts := getNextTimeInWindow now window in
  inheritedName region = false ->
  validTime now ->
  now + msPerDay <= maxTime ->
  (now < ts <= now + msPerDay /\ validTime ts)
  /\ (inWindow window (getUTCHours ts) = true
      \/ (inWindow window (getUTCHours now) = true
          /\ ts mod msPerDay = window_end window * msPerHour
          /\ ts - now <= msPerMinute)).
Proof.
  intros window ts _ [Hlow _] Hhigh. subst ts.
  assert (Hvalid : forall t, now < t <= now + msPerDay ->
                             now < t <= now + msPerDay /\ validTime t)
    by (intros t Ht; split; [exact Ht | unfold validTime; lia]).
  pose proof (AttemptsProps.table_window_start region) as Hstart. fold window in Hstart.
  destruct (inWindow window (getUTCHours now)) eqn:Hin.
  - rewrite (AttemptsProps.getNextTimeInWindow_inside now window Hin).
    pose proof (next_minute_hour now) as Hn. cbv zeta in Hn.
    set (r := now - now mod msPerMinute + msPerMinute) in *.
    destruct Hn as [Hr Hh].
    split; [apply Hvalid; unfold msPerMinute, msPerDay in *; lia|].
    clear Hvalid.
    destruct Hh as [Hsame | [Hnext Hmod]].
    + left. rewrite Hsame. exact Hin.
    + assert (Hb : 0 <= getUTCHours now < 24) by (unfold getUTCHours; euclid).
      set (h := getUTCHours now) in *. set (hr := getUTCHours r) in *.
      assert (Hcase : (h < 23 /\ hr = h + 1) \/ (h = 23 /\ hr = 0)).
      { destruct (Z_lt_dec h 23); [left | right]; split; try lia;
          rewrite Hnext; Z.to_euclidean_division_equations; lia. }
      clear Hnext.
      destruct (AttemptsProps.getTimeWindow_cases region) as [H | [H | [H | H]]];
        fold window in H; rewrite H in *; unfold inWindow in *; simpl in *;
        decide_tests; simpl in *; try discriminate;
        try (left; reflexivity);
        try (right; split; [reflexivity | split; [|unfold msPerMinute in *; lia]];
             rewrite Hmod; unfold msPerHour; lia);
        exfalso; lia.
  - destruct (AttemptsProps.getNextTimeInWindow_outside now window Hstart Hin)
      as [Hr Hmod].
    split; [apply Hvalid; exact Hr|]. left.
    assert (Hh : getUTCHours (getNextTimeInWindow now window) = window_start window).
    { unfold getUTCHours. rewrite Hmod. revert Hstart. euclid. }
    rewrite Hh.
    destruct (AttemptsProps.getTimeWindow_cases region) as [H | [H | [H | H]]];
      fold window in H; rewrite H; reflexivity.
Qed.

Lemma X16_witness :
  let ts := getNextTimeInWindow friday2059 (getTimeWindow "US_EAST") in
  (friday2059 < ts <= friday2059 + msPerDay /\ validTime ts)
  /\ (inWindow (getTimeWindow "US_EAST") (getUTCHours ts) = true
      \/ (inWindow (getTimeWindow "US_EAST") (getUTCHours friday2059) = true
          /\ ts mod msPerDay = window_end (getTimeWindow "US_EAST") * msPerHour
          /\ ts - friday2059 <= msPerMinute)).
Proof.
  apply (X16_next_time_in_window friday2059 "US_EAST").
  - reflexivity.
  - vm_compute. split; discriminate.
  - vm_compute. discriminate.
Defined.

(** At 20:59:30 UTC, inside the US_EAST window, the suggested time is
    21:00:00 UTC, the instant the window closes. *)
Example next_time_from_the_final_minute :
  getNextTimeInWindow friday2059 (getTimeWindow "US_EAST") = 1710536400000
  /\ inWindow (getTimeWindow "US_EAST") (getUTCHours 1710536400000) = false.
Proof. vm_compute. split; reflexivity. Qed.

End AttemptsMore.

(** * Further properties of the calendar reservation engine *)

Module CalendarMore.
Import Js Contracts Calendar CalendarMoreOps.

(** ** Lookups in filtered maps *)

Lemma get_filter_key {V : Type} (p : string -> bool) (m : JsMap.t V) (k : string) :
  JsMap.get (filter (fun kv => p (fst kv)) m) k
  = if p k then JsMap.get m k else None.
Proof.
  induction m as [|[k0 v0] m IH]; simpl.
  - destruct (p k); reflexivity.
  - destruct (p k0) eqn:Hp0; simpl.
    + destruct (String.eqb_spec k0 k) as [-> | Hne].
      * rewrite Hp0. reflexivity.
      * exact IH.
    + destruct (String.eqb_spec k0 k) as [-> | Hne].
      * rewrite IH, Hp0. reflexivity.
      * exact IH.
Qed.

Lemma get_none_no_key {V : Type} (m : JsMap.t V) (k : string) :
  JsMap.get m k = None -> forall kv, In kv m -> fst kv <> k.
Proof.
  induction m as [|[k0 v0] m IH]; intros H kv Hin; [contradiction|].
  simpl in H. destruct (String.eqb_spec k0 k) as [-> | Hne]; [discriminate|].
  destruct Hin as [<- | Hin]; [exact Hne | apply IH; assumption].
Qed.

Lemma set_fresh {V : Type} (m : JsMap.t V) (k : string) (v : V) :
  JsMap.get m k = None -> JsMap.set m k v = m ++ [(k, v)].
Proof.
  induction m as [|[k0 v0] m IH]; intros H; [reflexivity|].
  simpl in *. destruct (String.eqb k0 k); [discriminate|].
  rewrite (IH H). reflexivity.
Qed.

(** ** What the purge does to a manager's holds *)

Lemma removeHold_getList (id managerId m : string)
    (mh : JsMap.t (list HoldCacheEntry)) :
  JsMap.getList (removeHold id managerId mh (JsMap.getList mh managerId)) m
  = if String.eqb managerId m
    then filter (fun h => negb (String.eqb (tentative_id (hold h)) id))
                (JsMap.getList mh managerId)
    else JsMap.getList mh m.
Proof.
  unfold removeHold.
  destruct (filter _ (JsMap.getList mh managerId)) as [|h rest] eqn:Hf; simpl.
  - rewrite JsMapFacts.getList_delete. reflexivity.
  - rewrite JsMapFacts.getList_set. reflexivity.
Qed.

Lemma cleanupLoop_managerHolds (now : Z) (entries : list (string * HoldCacheEntry))
    (m : string) :
  forall st,
    JsMap.getList (managerHolds (cleanupLoop now entries st)) m
    = filter (fun h => negb (purged now entries m (tentative_id (hold h))))
             (JsMap.getList (managerHolds st) m).
Proof.
  induction entries as [|[id e] rest IH]; intros st.
  - simpl. symmetry. apply forallb_filter_id. apply forallb_forall. reflexivity.
  - simpl. rewrite IH.
    destruct (expires_at e <=? now); simpl.
    + rewrite removeHold_getList.
      destruct (String.eqb_spec (hold_manager_id (hold e)) m) as [-> | Hne].
      * rewrite CalendarProps.filter_filter. apply filter_ext. intros h.
        rewrite negb_orb, (String.eqb_sym id). reflexivity.
      * apply filter_ext. intros h. reflexivity.
    + apply filter_ext. intros h. reflexivity.
Qed.

Lemma cleanup_managerHolds (now : Z) (st : Stores) (m : string) :
  JsMap.getList (managerHolds (cleanupExpiredHolds now st)) m
  = filter (fun h => negb (purged now (holdStore st) m (tentative_id (hold h))))
           (JsMap.getList (managerHolds st) m).
Proof. apply cleanupLoop_managerHolds. Qed.

Lemma cleanup_holdStore (now : Z) (st : Stores) :
  holdStore (cleanupExpiredHolds now st)
  = filter (fun kv => negb (expiredKey now (holdStore st) (fst kv))) (holdStore st).
Proof. apply CalendarProps.cleanupLoop_holdStore. Qed.

Lemma cleanup_eventStore (now : Z) (st : Stores) :
  eventStore (cleanupExpiredHolds now st) = eventStore st.
Proof. unfold cleanupExpiredHolds. apply CalendarProps.cleanupLoop_events. Qed.

Lemma get_some_in {V : Type} (m : JsMap.t V) (k : string) (v : V) :
  JsMap.get m k = Some v -> In (k, v) m.
Proof.
  induction m as [|[k0 v0] m IH]; intros H; [discriminate|].
  simpl in H. destruct (String.eqb_spec k0 k) as [-> | Hne].
  - inversion H. left. reflexivity.
  - right. apply IH. exact H.
Qed.

Lemma getHold_value (now : Z) (st : Stores) (tentativeId : string) :
  fst (getHold now st tentativeId)
  = if expiredKey now (holdStore st) tentativeId then None
    else option_map hold (JsMap.get (holdStore st) tentativeId).
Proof.
  unfold getHold. simpl. rewrite cleanup_holdStore.
  rewrite (get_filter_key (fun k => negb (expiredKey now (holdStore st) k))).
  destruct (expiredKey now (holdStore st) tentativeId); reflexivity.
Qed.

Lemma expiredKey_of_entry (now : Z) (m : JsMap.t HoldCacheEntry) (k : string)
    (e : HoldCacheEntry) :
  JsMap.get m k = Some e -> expires_at e <= now -> expiredKey now m k = true.
Proof.
  intros He Hexp. unfold expiredKey. apply existsb_exists. exists (k, e).
  split; [apply get_some_in; exact He|]. simpl.
  rewrite String.eqb_refl. apply Z.leb_le. exact Hexp.
Qed.

(** X17. Lazy expiry as [getHold] shows it: a hold whose expiry instant has
    been reached is never returned, a hold that has not expired is
    returned as stored; the purge leaves no expired entry in [holdStore],
    touches no event, and purging again at the same instant changes
    nothing. *)
Theorem X17_getHold_lazy_expiry (now : Z) (st : Stores) (tentativeId : string) :
  fst (getHold now st tentativeId)
  = (if expiredKey now (holdStore st) tentativeId then None
     else option_map hold (JsMap.get (holdStore st) tentativeId))
  /\ (forall e, JsMap.get (holdStore st) tentativeId = Some e ->
                 expires_at e <= now ->
                 fst (getHold now st tentativeId) = None)
  /\ Forall (fun kv => now < expires_at (snd kv)) (holdStore (snd (getHold now st tentativeId)))
  /\ eventStore (snd (getHold now st tentativeId)) = eventStore st
  /\ managerEvents (snd (getHold now st tentativeId)) = managerEvents st
  /\ getHold now (snd (getHold now st tentativeId)) tentativeId = getHold now st tentativeId.
Proof.
  split; [apply getHold_value|].
  split.
  - intros e He Hexp.
    rewrite getHold_value, (expiredKey_of_entry now _ _ e He Hexp). reflexivity.
  - unfold getHold. cbn [fst snd].
    rewrite CalendarProps.cleanup_idempotent.
    split; [apply CalendarProps.cleanup_leaves_live|].
    split; [apply cleanup_eventStore|].
    split; [apply CalendarProps.cleanup_events | reflexivity].
Qed.

Lemma X17_witness :
  fst (getHold 1800000 oneHold testHoldId) = None.
Proof.
  refine (proj1 (proj2 (X17_getHold_lazy_expiry 1800000 oneHold testHoldId)) _ _ _).
  - reflexivity.
  - simpl. lia.
Defined.

Section Operations.

Variable getTime : string -> option Z.
Variable sha256Hex : string -> string.
Variable uuidString : string -> bool.
Variable emailString : string -> bool.
Variable urlString : string -> bool.

(** ** [placeHold], case by case *)

Lemma placeHold_cases (now : Z) (uuid : string) (st : Stores)
    (managerId startUtc endUtc : string) (ttl : Z) :
  300 <= ttl <= 1800 ->
  let st1 := cleanupExpiredHolds now st in
  let h := mkHold uuid managerId startUtc endUtc "system" ttl in
  placeHold getTime uuidString now uuid st managerId startUtc endUtc ttl
  = if existsb (conflictsWith getTime startUtc endUtc) (reservations now st managerId)
    then (mkPlaceHoldResult false None (Some OVERLAP_ERROR), st1)
    else if CalendarHoldSchema uuidString h
         then (mkPlaceHoldResult true (Some uuid) None,
               withHold st1 (mkEntry h (now + ttl * 1000)))
         else (mkPlaceHoldResult false None (Some "Validation failed: "), st1).
Proof.
  intros Httl st1 h. unfold placeHold.
  destruct (Z.ltb_spec ttl 300); [lia|].
  destruct (Z.ltb_spec 1800 ttl); [lia|]. cbn [orb].
  rewrite CalendarProps.hasOverlap_reservations.
  destruct (existsb _ (reservations now st managerId)); [reflexivity|].
  fold h. destruct (CalendarHoldSchema uuidString h); reflexivity.
Qed.

Lemma placeHold_ttl_rejected (now : Z) (uuid : string) (st : Stores)
    (managerId startUtc endUtc : string) (ttl : Z) :
  ttl < 300 \/ 1800 < ttl ->
  placeHold getTime uuidString now uuid st managerId startUtc endUtc ttl
  = (mkPlaceHoldResult false None (Some TTL_ERROR), st).
Proof.
  intros Httl. unfold placeHold.
  destruct (Z.ltb_spec ttl 300); destruct (Z.ltb_spec 1800 ttl);
    try reflexivity. lia.
Qed.

Lemma Forall_set {V : Type} (P : string * V -> Prop) (m : JsMap.t V) (k : string) (v : V) :
  Forall P m -> P (k, v) -> (forall k' v', P (k', v') -> String.eqb k' k = true -> P (k', v)) ->
  Forall P (JsMap.set m k v).
Proof.
  intros Hm Hv Hk. induction Hm as [|[k0 v0] m H0 Hm IH]; simpl.
  - constructor; [exact Hv | constructor].
  - destruct (String.eqb k0 k) eqn:E.
    + constructor; [apply (Hk k0 v0 H0 E) | exact Hm].
    + constructor; [exact H0 | exact IH].
Qed.

(** The stores an accepted hold leaves hold nothing that has expired. *)
Lemma withHold_live (now : Z) (st : Stores) (entry : HoldCacheEntry) :
  now < expires_at entry ->
  cleanupExpiredHolds now (withHold (cleanupExpiredHolds now st) entry)
  = withHold (cleanupExpiredHolds now st) entry.
Proof.
  intros Hlive. unfold cleanupExpiredHolds at 1.
  apply CalendarProps.cleanupLoop_no_expired. simpl.
  apply Forall_set.
  - apply CalendarProps.cleanup_leaves_live.
  - exact Hlive.
  - intros k' v' _ _. exact Hlive.
Qed.

Lemma reservations_withHold (now : Z) (st : Stores) (entry : HoldCacheEntry) (m : string) :
  now < expires_at entry ->
  reservations now (withHold (cleanupExpiredHolds now st) entry) m
  = if String.eqb (hold_manager_id (hold entry)) m
    then reservations now st m ++ [holdInterval entry]
    else reservations now st m.
Proof.
  intros Hlive. unfold reservations at 1. rewrite (withHold_live now st entry Hlive).
  unfold withHold. cbn [managerEvents managerHolds].
  rewrite CalendarProps.cleanup_events, JsMapFacts.getList_set.
  unfold reservations.
  destruct (String.eqb_spec (hold_manager_id (hold entry)) m) as [<- | Hne].
  - rewrite map_app, app_assoc. reflexivity.
  - reflexivity.
Qed.

(** X19. What an accepted hold changes.  When [placeHold] succeeds it
    returns the drawn identifier; the manager's reservations are the ones
    before followed by the new interval, which conflicts with none of
    them; the reservations of every other manager and all events are as
    before. *)
Theorem X19_placeHold_success (now : Z) (uuid : string) (st : Stores)
    (managerId startUtc endUtc : string) (ttl : Z) (other : string) :
  let out := placeHold getTime uuidString now uuid st managerId startUtc endUtc ttl in
  ph_success (fst out) = true ->
  fst out = mkPlaceHoldResult true (Some uuid) None
  /\ 300 <= ttl <= 1800
  /\ Forall (fun r => conflictsWith getTime startUtc endUtc r = false)
            (reservations now st managerId)
  /\ reservations now (snd out) other
     = (if String.eqb managerId other
        then reservations now st other ++ [(startUtc, endUtc)]
        else reservations now st other)
  /\ eventStore (snd out) = eventStore st
  /\ managerEvents (snd out) = managerEvents st.
Proof.
  intros out Hok. subst out.
  assert (Httl : 300 <= ttl <= 1800).
  { destruct (Z_lt_dec ttl 300) as [H | H].
    - rewrite placeHold_ttl_rejected in Hok by (left; exact H). discriminate.
    - destruct (Z_lt_dec 1800 ttl) as [H' | H'].
      + rewrite placeHold_ttl_rejected in Hok by (right; exact H'). discriminate.
      + lia. }
  rewrite (placeHold_cases now uuid st managerId startUtc endUtc ttl Httl) in *.
  cbv zeta in *.
  destruct (existsb (conflictsWith getTime startUtc endUtc)
              (reservations now st managerId)) eqn:Hex; [discriminate|].
  destruct (CalendarHoldSchema uuidString _); [|discriminate]. cbn [fst snd].
  assert (Hlive : now < expires_at
                          (mkEntry (mkHold uuid managerId startUtc endUtc "system" ttl)
                                   (now + ttl * 1000))) by (simpl; lia).
  split; [reflexivity|]. split; [exact Httl|].
  split.
  { apply Forall_forall. intros r Hr.
    destruct (conflictsWith getTime startUtc endUtc r) eqn:Hc; [|reflexivity].
    assert (existsb (conflictsWith getTime startUtc endUtc)
              (reservations now st managerId) = true)
      by (apply existsb_exists; exists r; split; assumption).
    congruence. }
  split.
  { rewrite (reservations_withHold now st _ other Hlive). cbn [hold hold_manager_id].
    destruct (String.eqb_spec managerId other) as [<- | _]; reflexivity. }
  split; [apply cleanup_eventStore | apply CalendarProps.cleanup_events].
Qed.

Lemma reservations_after_purge (now : Z) (st : Stores) (m : string) :
  reservations now (cleanupExpiredHolds now st) m = reservations now st m.
Proof.
  unfold reservations.
  rewrite CalendarProps.cleanup_idempotent, CalendarProps.cleanup_events. reflexivity.
Qed.

(** X18. A refused [placeHold] reserves nothing.  A time-to-live below 300
    or above 1800 seconds is refused with the TTL error before anything is
    read or purged, so the stores are exactly as they were; with a
    time-to-live in range the refusal is the overlap error or the
    validation error and the stores are only purged of expired holds.  In
    every case the reservations of every manager and all events are as
    before. *)
Theorem X18_placeHold_refusal (now : Z) (uuid : string) (st : Stores)
    (managerId startUtc endUtc : string) (ttl : Z) :
  let out := placeHold getTime uuidString now uuid st managerId startUtc endUtc ttl in
  ph_success (fst out) = false ->
  ((ttl < 300 \/ 1800 < ttl)
   /\ fst out = mkPlaceHoldResult false None (Some TTL_ERROR)
   /\ snd out = st
   \/ 300 <= ttl <= 1800
      /\ (fst out = mkPlaceHoldResult false None (Some OVERLAP_ERROR)
          \/ fst out = mkPlaceHoldResult false None (Some "Validation failed: "))
      /\ snd out = cleanupExpiredHolds now st)
  /\ (forall m, reservations now (snd out) m = reservations now st m)
  /\ eventStore (snd out) = eventStore st
  /\ managerEvents (snd out) = managerEvents st.
Proof.
  intros out Hfail. subst out.
  destruct (Z_lt_dec ttl 300) as [Hlo | Hlo];
    [| destruct (Z_lt_dec 1800 ttl) as [Hhi | Hhi]].
  - rewrite placeHold_ttl_rejected by (left; exact Hlo). cbn [fst snd].
    split; [left; repeat split; try reflexivity; left; exact Hlo|].
    repeat split; reflexivity.
  - rewrite placeHold_ttl_rejected by (right; exact Hhi). cbn [fst snd].
    split; [left; repeat split; try reflexivity; right; exact Hhi|].
    repeat split; reflexivity.
  - assert (Httl : 300 <= ttl <= 1800) by lia.
    rewrite (placeHold_cases now uuid st managerId startUtc endUtc ttl Httl) in *.
    cbv zeta in *.
    destruct (existsb _ (reservations now st managerId)).
    + cbn [fst snd]. split; [right; repeat split; try lia; left; reflexivity|].
      split; [intros m; apply reservations_after_purge|].
      split; [apply cleanup_eventStore | apply CalendarProps.cleanup_events].
    + destruct (CalendarHoldSchema uuidString _); [discriminate|].
      cbn [fst snd]. split; [right; repeat split; try lia; right; reflexivity|].
      split; [intros m; apply reservations_after_purge|].
      split; [apply cleanup_eventStore | apply CalendarProps.cleanup_events].
Qed.

(** ** The lifetime of a hold *)

Lemma purge_keeps_fresh_key (now : Z) (st : Stores) (uuid : string) :
  JsMap.get (holdStore st) uuid = None ->
  JsMap.get (holdStore (cleanupExpiredHolds now st)) uuid = None.
Proof.
  intros H. rewrite cleanup_holdStore.
  rewrite (get_filter_key (fun k => negb (expiredKey now (holdStore st) k))).
  rewrite H. destruct (negb _); reflexivity.
Qed.

Lemma existsb_false_forall {A : Type} (p : A -> bool) (l : list A) :
  (forall x, In x l -> p x = false) -> existsb p l = false.
Proof.
  intros H. induction l as [|x l IH]; [reflexivity|]. simpl.
  rewrite (H x (or_introl eq_refl)), IH; [reflexivity|].
  intros y Hy. apply H. right. exact Hy.
Qed.

(** A hold stored under a fresh key is the only entry under that key. *)
Lemma fresh_hold_keys (now now' : Z) (st : Stores) (entry : HoldCacheEntry) (m : string) :
  JsMap.get (holdStore st) (tentative_id (hold entry)) = None ->
  now' < expires_at entry ->
  expiredKey now' (holdStore (withHold (cleanupExpiredHolds now st) entry))
    (tentative_id (hold entry)) = false
  /\ purged now' (holdStore (withHold (cleanupExpiredHolds now st) entry)) m
       (tentative_id (hold entry)) = false.
Proof.
  intros Hfresh Hlive.
  pose proof (purge_keeps_fresh_key now st _ Hfresh) as H1.
  unfold withHold. cbn [holdStore]. rewrite (set_fresh _ _ entry H1).
  pose proof (get_none_no_key _ _ H1) as Hkeys.
  unfold expiredKey, purged. rewrite !existsb_app. cbn [existsb fst snd].
  destruct (Z.leb_spec (expires_at entry) now') as [? | _]; [lia|].
  rewrite !andb_false_r, !orb_false_r. cbn [andb].
  split; apply existsb_false_forall; intros kv Hin;
    apply Hkeys in Hin; apply String.eqb_neq in Hin; rewrite Hin;
    rewrite ?andb_false_r; reflexivity.
Qed.

Lemma conflicts_with_itself (startUtc endUtc : string) (s e : Z) :
  getTime startUtc = Some s ->
  getTime endUtc = Some e ->
  s <= e ->
  conflictsWith getTime startUtc endUtc (startUtc, endUtc) = true.
Proof.
  intros Hs He Hse.
  apply (CalendarProps.conflictsWith_instants getTime startUtc endUtc startUtc endUtc
           s e s e Hs He Hs He).
  unfold BUFFER_MS. lia.
Qed.

Lemma accepted_hold_stores (now : Z) (uuid : string) (st : Stores)
    (managerId startUtc endUtc : string) (ttl : Z) :
  ph_success (fst (placeHold getTime uuidString now uuid st managerId startUtc endUtc ttl))
  = true ->
  300 <= ttl <= 1800
  /\ existsb (conflictsWith getTime startUtc endUtc) (reservations now st managerId) = false
  /\ placeHold getTime uuidString now uuid st managerId startUtc endUtc ttl
     = (mkPlaceHoldResult true (Some uuid) None,
        withHold (cleanupExpiredHolds now st)
          (mkEntry (mkHold uuid managerId startUtc endUtc "system" ttl) (now + ttl * 1000))).
Proof.
  intros Hok.
  assert (Httl : 300 <= ttl <= 1800).
  { destruct (Z_lt_dec ttl 300) as [H | H].
    - rewrite placeHold_ttl_rejected in Hok by (left; exact H). discriminate.
    - destruct (Z_lt_dec 1800 ttl) as [H' | H'].
      + rewrite placeHold_ttl_rejected in Hok by (right; exact H'). discriminate.
      + lia. }
  split; [exact Httl|].
  rewrite (placeHold_cases now uuid st managerId startUtc endUtc ttl Httl) in *.
  cbv zeta in *.
  destruct (existsb _ (reservations now st managerId)); [discriminate|].
  split; [reflexivity|].
  destruct (CalendarHoldSchema uuidString _); [reflexivity | discriminate].
Qed.

(** X20. The lifetime of a hold.  A hold accepted at [now] under a fresh
    identifier, for an interval whose ends parse with start no later than
    end, blocks that interval until [now + ttl] seconds: at any earlier
    instant [getHold] returns it and placing the same interval again is
    refused as overlapping.  From that instant on [getHold] no longer
    returns it and, if the manager had no other reservation, the
    manager's timeline is empty again. *)
Theorem X20_hold_lifetime (now : Z) (uuid : string) (st : Stores)
    (managerId startUtc endUtc : string) (ttl s e : Z) :
  let out := placeHold getTime uuidString now uuid st managerId startUtc endUtc ttl in
  let h := mkHold uuid managerId startUtc endUtc "system" ttl in
  ph_success (fst out) = true ->
  JsMap.get (holdStore st) uuid = None ->
  getTime startUtc = Some s ->
  getTime endUtc = Some e ->
  s <= e ->
  (forall (now' : Z) (uuid' : string) (ttl' : Z),
      now' < now + ttl * 1000 ->
      300 <= ttl' <= 1800 ->
      fst (getHold now' (snd out) uuid) = Some h
      /\ fst (placeHold getTime uuidString now' uuid' (snd out) managerId startUtc endUtc ttl')
         = mkPlaceHoldResult false None (Some OVERLAP_ERROR))
  /\ (forall now' : Z,
         now + ttl * 1000 <= now' ->
         fst (getHold now' (snd out) uuid) = None
         /\ (reservations now st managerId = [] ->
             reservations now' (snd out) managerId = [])).
Proof.
  intros out h Hok Hfresh Hs He Hse. subst out.
  destruct (accepted_hold_stores now uuid st managerId startUtc endUtc ttl Hok)
    as (Httl & Hfree & Heq).
  rewrite Heq. cbn [snd]. fold h.
  set (entry := mkEntry h (now + ttl * 1000)).
  set (st' := withHold (cleanupExpiredHolds now st) entry).
  assert (Hget : JsMap.get (holdStore st') uuid = Some entry).
  { unfold st', withHold. cbn [holdStore]. apply JsMapFacts.get_set_same. }
  assert (Hlist : JsMap.getList (managerHolds st') managerId
                  = JsMap.getList (managerHolds (cleanupExpiredHolds now st)) managerId
                    ++ [entry]).
  { unfold st', withHold. cbn [managerHolds entry hold hold_manager_id h].
    rewrite JsMapFacts.getList_set, String.eqb_refl. reflexivity. }
  split.
  - intros now' uuid' ttl' Hbefore Httl'.
    destruct (fresh_hold_keys now now' st entry managerId Hfresh Hbefore) as [Hk Hp].
    fold st' in Hk, Hp. cbn [entry hold tentative_id h] in Hk, Hp.
    split.
    + rewrite getHold_value, Hk, Hget. reflexivity.
    + apply CalendarProps.placeHold_overlap; [exact Httl'|].
      apply existsb_exists. exists (startUtc, endUtc).
      split; [|apply (conflicts_with_itself startUtc endUtc s e Hs He Hse)].
      unfold reservations. apply in_or_app. right.
      rewrite cleanup_managerHolds, Hlist, filter_app. rewrite map_app.
      apply in_or_app. right. cbn [filter entry hold tentative_id h].
      rewrite Hp. left. reflexivity.
  - intros now' Hafter. split.
    + rewrite getHold_value, (expiredKey_of_entry now' _ _ entry Hget Hafter). reflexivity.
    + intros Hempty. unfold reservations in *.
      apply app_eq_nil in Hempty. destruct Hempty as [Hev Hholds].
      apply map_eq_nil in Hholds.
      assert (Hevents : managerEvents st' = managerEvents st).
      { unfold st', withHold. cbn [managerEvents]. apply CalendarProps.cleanup_events. }
      rewrite Hevents, Hev. cbn [app].
      rewrite cleanup_managerHolds, Hlist, Hholds. cbn [app filter entry hold tentative_id h].
      assert (Hp : purged now' (holdStore st') managerId uuid = true).
      { unfold purged. apply existsb_exists. exists (uuid, entry).
        split; [apply get_some_in; exact Hget|].
        cbn [fst snd entry expires_at hold hold_manager_id h].
        rewrite !String.eqb_refl.
        destruct (Z.leb_spec (now + ttl * 1000) now'); [reflexivity | lia]. }
      rewrite Hp. reflexivity.
Qed.

(** ** [createEvent], case by case *)

Lemma existsb_same {A : Type} (p q : A -> bool) (l : list A) :
  (forall x, p x = q x) -> existsb p l = existsb q l.
Proof.
  intros H. induction l as [|x l IH]; [reflexivity|].
  simpl. rewrite H, IH. reflexivity.
Qed.

Lemma hasOverlap_on_purged (now : Z) (st : Stores) (managerId startUtc endUtc : string)
    (exclude : option string) :
  hasOverlap getTime now (cleanupExpiredHolds now st) managerId startUtc endUtc exclude
  = ((existsb (fun e => conflictsWith getTime startUtc endUtc (eventInterval e))
              (JsMap.getList (managerEvents (cleanupExpiredHolds now st)) managerId)
      || existsb (fun h => negb (skipped exclude h)
                           && conflictsWith getTime startUtc endUtc (holdInterval h))
                 (JsMap.getList (managerHolds (cleanupExpiredHolds now st)) managerId))%bool,
     cleanupExpiredHolds now st).
Proof.
  unfold hasOverlap. rewrite CalendarProps.cleanup_idempotent.
  unfold conflictsWith, eventInterval. cbn [fst snd].
  destruct (existsb _ (JsMap.getList (managerEvents (cleanupExpiredHolds now st)) managerId));
    [reflexivity|].
  cbn [orb]. f_equal. apply existsb_same.
  intros h. unfold skipped, holdInterval. cbn [fst snd].
  destruct (truthyStr exclude && _)%bool; reflexivity.
Qed.

Lemma gate_implies_schema (event : CalendarEvent) :
  preWriteGate uuidString emailString urlString event = true ->
  CalendarEventSchema uuidString emailString urlString event = true.
Proof.
  unfold preWriteGate. intros H.
  apply andb_prop in H. destruct H as [H _].
  apply andb_prop in H. destruct H as [H _].
  apply andb_prop in H. destruct H as [_ H]. exact H.
Qed.

Lemma createEvent_cases (now : Z) (st : Stores) (event : CalendarEvent) :
  let ev := filledIn sha256Hex event in
  let st1 := cleanupExpiredHolds now st in
  createEvent getTime sha256Hex uuidString emailString urlString now st event
  = if negb (preWriteGate uuidString emailString urlString ev)
    then mkOutcome (mkCreateEventResult false None None (Some "Validation failed: ")) ev st
    else if clashes getTime st1 ev
         then mkOutcome (mkCreateEventResult false None None (Some OVERLAP_ERROR)) ev st1
         else mkOutcome (mkCreateEventResult true (Some (meetingUrlOf ev)) (iCal_uid ev) None)
                        ev (withEvent getTime st1 ev).
Proof.
  intros ev st1. unfold createEvent. fold (filledIn sha256Hex event). fold ev.
  destruct (preWriteGate uuidString emailString urlString ev) eqn:Hgate;
    cbn [negb]; [|reflexivity].
  rewrite hasOverlap_on_purged. fold st1.
  fold (matchingHold getTime st1 ev). fold (clashes getTime st1 ev).
  destruct (clashes getTime st1 ev); [reflexivity|].
  rewrite (gate_implies_schema ev Hgate). cbn [negb].
  unfold withEvent, meetingUrlOf.
  destruct (matchingHold getTime st1 ev); reflexivity.
Qed.

Lemma filledIn_fields (event : CalendarEvent) :
  meeting_id (filledIn sha256Hex event) = meeting_id event
  /\ manager_id (filledIn sha256Hex event) = manager_id event
  /\ start_utc (filledIn sha256Hex event) = start_utc event
  /\ end_utc (filledIn sha256Hex event) = end_utc event.
Proof.
  unfold filledIn. destruct (negb (truthyStr (iCal_uid event)));
    repeat split; reflexivity.
Qed.

(** X21. The three outcomes of [createEvent].  The call either fails the
    pre-write gate and leaves the stores exactly as they were, or is
    refused as overlapping and leaves them purged of expired holds, or
    succeeds and returns the conferencing URL of the meeting and the UID
    the event carries.  The final schema validation never fails, since the
    gate has already run the same schema.  A failed call adds no event and
    changes no manager's reservations. *)
Theorem X21_createEvent_outcomes (now : Z) (st : Stores) (event : CalendarEvent) :
  let out := createEvent getTime sha256Hex uuidString emailString urlString now st event in
  let ev := filledIn sha256Hex event in
  event_left out = ev
  /\ ((preWriteGate uuidString emailString urlString ev = false
       /\ returned out = mkCreateEventResult false None None (Some "Validation failed: ")
       /\ stores_left out = st)
      \/ (preWriteGate uuidString emailString urlString ev = true
          /\ returned out = mkCreateEventResult false None None (Some OVERLAP_ERROR)
          /\ stores_left out = cleanupExpiredHolds now st)
      \/ (preWriteGate uuidString emailString urlString ev = true
          /\ returned out
             = mkCreateEventResult true (Some (meetingUrlOf ev)) (iCal_uid ev) None
          /\ stores_left out = withEvent getTime (cleanupExpiredHolds now st) ev))
  /\ ce_error (returned out) <> Some "Schema validation failed: "
  /\ (ce_success (returned out) = false ->
      eventStore (stores_left out) = eventStore st
      /\ managerEvents (stores_left out) = managerEvents st
      /\ forall m, reservations now (stores_left out) m = reservations now st m).
Proof.
  intros out ev. subst out. rewrite createEvent_cases. fold ev.
  destruct (preWriteGate uuidString emailString urlString ev) eqn:Hgate; cbn [negb].
  - destruct (clashes getTime (cleanupExpiredHolds now st) ev) eqn:Hclash;
      cbn [event_left returned stores_left ce_error ce_success].
    + split; [reflexivity|].
      split; [right; left; repeat split; reflexivity|].
      split; [discriminate|]. intros _.
      split; [apply cleanup_eventStore|].
      split; [apply CalendarProps.cleanup_events|].
      intros m. apply reservations_after_purge.
    + split; [reflexivity|].
      split; [right; right; repeat split; reflexivity|].
      split; [discriminate | discriminate].
  - cbn [event_left returned stores_left ce_error ce_success].
    split; [reflexivity|].
    split; [left; repeat split; reflexivity|].
    split; [discriminate|]. intros _. repeat split; reflexivity.
Qed.

Lemma withEvent_events (st1 : Stores) (ev : CalendarEvent) :
  eventStore (withEvent getTime st1 ev) = JsMap.set (eventStore st1) (meeting_id ev) ev
  /\ managerEvents (withEvent getTime st1 ev)
     = JsMap.set (managerEvents st1) (manager_id ev)
                 (JsMap.getList (managerEvents st1) (manager_id ev) ++ [ev]).
Proof.
  unfold withEvent. destruct (matchingHold getTime st1 ev); split; reflexivity.
Qed.

(** X22. What an accepted event changes.  When [createEvent] succeeds, the
    event, with its UID filled in, is what [getEvent] returns for its
    meeting identifier and the last of its manager's events; the lists of
    the other managers are untouched; the UID returned is the UID stored,
    and it is present; and the event overlaps none of the manager's
    earlier events under the buffered test. *)
Theorem X22_createEvent_success (now : Z) (st : Stores) (event : CalendarEvent)
    (other : string) :
  let out := createEvent getTime sha256Hex uuidString emailString urlString now st event in
  let ev := filledIn sha256Hex event in
  ce_success (returned out) = true ->
  getEvent (stores_left out) (meeting_id event) = Some ev
  /\ getManagerEvents (stores_left out) other
     = (if String.eqb (manager_id event) other
        then getManagerEvents st other ++ [ev]
        else getManagerEvents st other)
  /\ ce_iCal_uid (returned out) = iCal_uid ev
  /\ truthyStr (iCal_uid ev) = true
  /\ ce_meeting_url (returned out) = Some (meetingUrlOf event)
  /\ Forall (fun e => conflictsWith getTime (start_utc event) (end_utc event)
                         (eventInterval e) = false)
            (getManagerEvents st (manager_id event)).
Proof.
  intros out ev Hok. subst out. rewrite createEvent_cases in *. fold ev in Hok |- *.
  destruct (filledIn_fields event) as (Hid & Hm & Hs & He). fold ev in Hid, Hm, Hs, He.
  destruct (preWriteGate uuidString emailString urlString ev) eqn:Hgate;
    cbn [negb] in *; [|discriminate].
  destruct (clashes getTime (cleanupExpiredHolds now st) ev) eqn:Hclash; [discriminate|].
  cbn [returned stores_left ce_iCal_uid ce_meeting_url].
  destruct (withEvent_events (cleanupExpiredHolds now st) ev) as [Hes Hme].
  unfold getEvent, getManagerEvents. rewrite Hes, Hme.
  rewrite cleanup_eventStore, CalendarProps.cleanup_events, Hid, Hm.
  split; [apply JsMapFacts.get_set_same|].
  split.
  { rewrite JsMapFacts.getList_set.
    destruct (String.eqb_spec (manager_id event) other) as [<- | _]; reflexivity. }
  split; [reflexivity|].
  split.
  { unfold preWriteGate in Hgate.
    apply andb_prop in Hgate. destruct Hgate as [Hgate _].
    apply andb_prop in Hgate. destruct Hgate as [Hgate _].
    apply andb_prop in Hgate. destruct Hgate as [Huid _]. exact Huid. }
  split; [unfold meetingUrlOf; rewrite Hid; reflexivity|].
  unfold clashes in Hclash. apply orb_false_elim in Hclash. destruct Hclash as [Hev _].
  rewrite CalendarProps.cleanup_events, Hm, Hs, He in Hev.
  apply Forall_forall. intros e Hin.
  destruct (conflictsWith getTime (start_utc event) (end_utc event) (eventInterval e))
    eqn:Hc; [|reflexivity].
  assert (existsb (fun e0 => conflictsWith getTime (start_utc event) (end_utc event)
                               (eventInterval e0))
            (JsMap.getList (managerEvents st) (manager_id event)) = true)
    by (apply existsb_exists; exists e; split; assumption).
  congruence.
Qed.

(** ** Promoting a hold *)

(** X23. Promoting a hold.  A manager has no reservation; a hold is
    accepted under a fresh, non-empty identifier; before it expires a
    valid event for the same manager with the same start timestamp (a
    string that parses) is submitted.  Then [createEvent] succeeds, the
    hold is gone ([getHold] returns nothing), and the manager's timeline
    holds exactly the event, which [getEvent] returns. *)
Theorem X23_hold_promotion (now0 now1 : Z) (uuid : string) (st : Stores)
    (ttl s : Z) (endUtc : string) (event : CalendarEvent) :
  let managerId := manager_id event in
  let startUtc := start_utc event in
  let placed := placeHold getTime uuidString now0 uuid st managerId startUtc endUtc ttl in
  let out := createEvent getTime sha256Hex uuidString emailString urlString
               now1 (snd placed) event in
  ph_success (fst placed) = true ->
  reservations now0 st managerId = [] ->
  JsMap.get (holdStore st) uuid = None ->
  uuid <> EmptyString ->
  getTime startUtc = Some s ->
  now1 < now0 + ttl * 1000 ->
  preWriteGate uuidString emailString urlString (filledIn sha256Hex event) = true ->
  ce_success (returned out) = true
  /\ fst (getHold now1 (stores_left out) uuid) = None
  /\ reservations now1 (stores_left out) managerId = [(startUtc, end_utc event)]
  /\ getEvent (stores_left out) (meeting_id event) = Some (filledIn sha256Hex event).
Proof.
  intros managerId startUtc placed out Hok Hfree Hfresh Hne Hs Hbefore Hgate.
  subst out placed.
  destruct (accepted_hold_stores now0 uuid st managerId startUtc endUtc ttl Hok)
    as (Httl & _ & Heq).
  rewrite Heq. cbn [snd].
  set (h := mkHold uuid managerId startUtc endUtc "system" ttl).
  set (entry := mkEntry h (now0 + ttl * 1000)).
  set (st' := withHold (cleanupExpiredHolds now0 st) entry).
  set (ev := filledIn sha256Hex event).
  destruct (filledIn_fields event) as (Hid & Hm & Hst & Hen).
  fold ev in Hid, Hm, Hst, Hen, Hgate. fold managerId in Hm. fold startUtc in Hst.
  (* the manager's record, before and after the purge at [now1] *)
  unfold reservations in Hfree. apply app_eq_nil in Hfree.
  destruct Hfree as [Hev0 Hholds0].
  apply map_eq_nil in Hev0. apply map_eq_nil in Hholds0.
  set (st1 := cleanupExpiredHolds now1 st').
  assert (Hevents : JsMap.getList (managerEvents st1) managerId = []).
  { unfold st1. rewrite CalendarProps.cleanup_events.
    unfold st', withHold. cbn [managerEvents].
    rewrite CalendarProps.cleanup_events. exact Hev0. }
  assert (Hholds : JsMap.getList (managerHolds st1) managerId = [entry]).
  { unfold st1. rewrite cleanup_managerHolds.
    assert (Hl : JsMap.getList (managerHolds st') managerId = [entry]).
    { unfold st', withHold. cbn [managerHolds entry hold hold_manager_id h].
      rewrite JsMapFacts.getList_set, String.eqb_refl, Hholds0. reflexivity. }
    rewrite Hl. cbn [filter].
    destruct (fresh_hold_keys now0 now1 st entry managerId Hfresh Hbefore) as [_ Hp].
    fold st' in Hp. rewrite Hp. reflexivity. }
  assert (Hmatch : matchingHold getTime st1 ev = Some entry).
  { unfold matchingHold. rewrite Hm, Hholds, Hst. cbn [find entry hold hold_start_utc h].
    rewrite Hs. cbn [within1s]. rewrite Z.sub_diag. reflexivity. }
  assert (Hskip : skipped (Some uuid) entry = true).
  { unfold skipped. cbn [truthyStr orEmpty entry hold tentative_id h].
    rewrite String.eqb_refl. destruct uuid; [congruence | reflexivity]. }
  assert (Hclash : clashes getTime st1 ev = false).
  { unfold clashes. rewrite Hmatch, Hm, Hevents, Hholds.
    cbn [existsb option_map entry hold tentative_id h orb].
    fold h. fold entry. rewrite Hskip. reflexivity. }
  rewrite createEvent_cases. fold ev. fold st1. rewrite Hgate, Hclash.
  cbn [negb returned stores_left ce_success].
  assert (Hstores : withEvent getTime st1 ev
                    = mkStores (JsMap.set (eventStore st1) (meeting_id ev) ev)
                               (JsMap.delete (holdStore st1) uuid)
                               (JsMap.set (managerEvents st1) managerId [ev])
                               (JsMap.delete (managerHolds st1) managerId)).
  { unfold withEvent. rewrite Hmatch, Hm, Hevents, Hholds.
    cbn [entry hold tentative_id h app].
    unfold removeHold. cbn [filter entry hold tentative_id h].
    rewrite String.eqb_refl. reflexivity. }
  rewrite Hstores.
  split; [reflexivity|].
  split.
  { rewrite getHold_value. cbn [holdStore].
    rewrite JsMapFacts.get_delete_same.
    destruct (expiredKey now1 _ uuid); reflexivity. }
  split.
  { unfold reservations. rewrite cleanup_managerHolds. cbn [managerEvents managerHolds].
    rewrite JsMapFacts.getList_set, JsMapFacts.getList_delete, !String.eqb_refl.
    cbn [map filter app]. rewrite Hst, Hen. reflexivity. }
  unfold getEvent. cbn [eventStore]. rewrite Hid.
  apply JsMapFacts.get_set_same.
Qed.

(** ** The conflict-free invariant *)












End Operations.

(** ** The properties on the scenarios of the test suite *)

Lemma X18_witness :
  let out := placeHold testGetTime anyString 1000 otherHoldId oneHold testManager
               "2024-03-15T14:00:00.000Z" "2024-03-15T14:30:00.000Z" 1800 in
  ph_success (fst out) = false
  /\ eventStore (snd out) = eventStore oneHold
  /\ managerEvents (snd out) = managerEvents oneHold.
Proof.
  intros out.
  assert (Hfail : ph_success (fst out) = false) by reflexivity.
  split; [exact Hfail|].
  pose proof (X18_placeHold_refusal testGetTime anyString 1000 otherHoldId oneHold
                testManager "2024-03-15T14:00:00.000Z" "2024-03-15T14:30:00.000Z" 1800
                Hfail) as H.
  destruct H as (_ & _ & He & Hm). split; [exact He | exact Hm].
Defined.

Lemma X19_witness :
  let out := placeHold testGetTime anyString 0 testHoldId emptyStores testManager
               "2024-03-15T14:00:00.000Z" "2024-03-15T14:30:00.000Z" 1800 in
  ph_success (fst out) = true
  /\ reservations 0 (snd out) testManager
     = [("2024-03-15T14:00:00.000Z", "2024-03-15T14:30:00.000Z")].
Proof.
  intros out.
  assert (Hok : ph_success (fst out) = true) by reflexivity.
  split; [exact Hok|].
  pose proof (X19_placeHold_success testGetTime anyString 0 testHoldId emptyStores
                testManager "2024-03-15T14:00:00.000Z" "2024-03-15T14:30:00.000Z" 1800
                testManager Hok) as H.
  destruct H as (_ & _ & _ & Hres & _). exact Hres.
Defined.

Lemma X20_witness :
  let out := placeHold testGetTime anyString 0 testHoldId emptyStores testManager
               "2024-03-15T14:00:00.000Z" "2024-03-15T14:30:00.000Z" 1800 in
  fst (getHold 1799999 (snd out) testHoldId)
  = Some (mkHold testHoldId testManager "2024-03-15T14:00:00.000Z"
                 "2024-03-15T14:30:00.000Z" "system" 1800)
  /\ fst (getHold 1800000 (snd out) testHoldId) = None.
Proof.
  intros out.
  assert (H : ph_success (fst out) = true
              /\ JsMap.get (holdStore emptyStores) testHoldId = None
              /\ testGetTime "2024-03-15T14:00:00.000Z" = Some 1710511200000
              /\ testGetTime "2024-03-15T14:30:00.000Z" = Some 1710513000000)
    by (repeat split; reflexivity).
  destruct H as (Hok & Hfresh & Hs & He).
  pose proof (X20_hold_lifetime testGetTime anyString 0 testHoldId emptyStores
                testManager "2024-03-15T14:00:00.000Z" "2024-03-15T14:30:00.000Z" 1800
                1710511200000 1710513000000 Hok Hfresh Hs He ltac:(lia)) as [Hlive Hdead].
  split.
  - apply (Hlive 1799999 otherHoldId 1800); lia.
  - apply (Hdead 1800000). lia.
Defined.

Lemma X21_witness :
  let ev := testEvent "550e8400-e29b-41d4-a716-446655440000" in
  let first := createEvent testGetTime testDigest anyString anyString anyString
                 0 emptyStores ev in
  let second := createEvent testGetTime testDigest anyString anyString anyString
                  5000 (stores_left first) ev in
  ce_success (returned second) = false
  /\ eventStore (stores_left second) = eventStore (stores_left first)
  /\ managerEvents (stores_left second) = managerEvents (stores_left first).
Proof.
  intros ev first second.
  assert (Hfail : ce_success (returned second) = false) by reflexivity.
  split; [exact Hfail|].
  pose proof (X21_createEvent_outcomes testGetTime testDigest anyString anyString anyString
                5000 (stores_left first) ev) as H.
  destruct H as (_ & _ & _ & H).
  destruct (H Hfail) as (He & Hm & _). split; [exact He | exact Hm].
Defined.

Lemma X22_witness :
  let ev := testEvent "550e8400-e29b-41d4-a716-446655440000" in
  let out := createEvent testGetTime testDigest anyString anyString anyString
               0 emptyStores ev in
  ce_success (returned out) = true
  /\ getEvent (stores_left out) "550e8400-e29b-41d4-a716-446655440000"
     = Some (filledIn testDigest ev)
  /\ getManagerEvents (stores_left out) testManager = [filledIn testDigest ev].
Proof.
  intros ev out.
  assert (Hok : ce_success (returned out) = true) by reflexivity.
  split; [exact Hok|].
  pose proof (X22_createEvent_success testGetTime testDigest anyString anyString anyString
                0 emptyStores ev testManager Hok) as H.
  destruct H as (Hget & Hlist & _). split; [exact Hget | exact Hlist].
Defined.

Lemma X23_witness :
  let ev := testEvent "550e8400-e29b-41d4-a716-446655440000" in
  let out := createEvent testGetTime testDigest anyString anyString anyString
               1000 oneHold ev in
  ce_success (returned out) = true
  /\ fst (getHold 1000 (stores_left out) testHoldId) = None
  /\ reservations 1000 (stores_left out) testManager
     = [("2024-03-15T14:00:00.000Z", "2024-03-15T14:30:00.000Z")].
Proof.
  intros ev out.
  pose proof (X23_hold_promotion testGetTime testDigest anyString anyString anyString
                0 1000 testHoldId emptyStores 1800 1710511200000
                "2024-03-15T14:30:00.000Z" ev) as H.
  cbv zeta in H.
  destruct H as (Hok & Hgone & Hres & _).
  - reflexivity.
  - reflexivity.
  - reflexivity.
  - discriminate.
  - reflexivity.
  - lia.
  - reflexivity.
  - split; [exact Hok|]. split; [exact Hgone | exact Hres].
Defined.


End CalendarMore.
(** * Properties of the availability report *)

Module AvailabilityProps.
Import Js Contracts Calendar CalendarMoreOps CalendarAvailability.

Lemma slotCount_done (c t : Z) : t <= c -> slotCount c t = 0%nat.
Proof.
  intros H. unfold slotCount, slotDuration.
  change (30 * 60 * 1000) with 1800000.
  assert ((t - c + 1800000 - 1) / 1800000 <= 0)
    by (Z.to_euclidean_division_equations; lia).
  lia.
Qed.

Lemma slotCount_step (c t : Z) :
  c < t -> slotCount c t = S (slotCount (c + slotDuration) t).
Proof.
  intros H. unfold slotCount, slotDuration.
  change (30 * 60 * 1000) with 1800000.
  replace (t - c + 1800000 - 1) with ((t - (c + 1800000) + 1800000 - 1) + 1 * 1800000)
    by lia.
  rewrite Z.div_add by lia.
  assert (0 <= (t - (c + 1800000) + 1800000 - 1) / 1800000)
    by (Z.to_euclidean_division_equations; lia).
  lia.
Qed.

Lemma loopBound_enough (f t : Z) : (slotCount f t < loopBound f t)%nat.
Proof.
  unfold slotCount, loopBound, slotDuration.
  change (30 * 60 * 1000) with 1800000.
  assert ((t - f + 1800000 - 1) / 1800000 <= (t - f) / 1800000 + 1)
    by (Z.to_euclidean_division_equations; lia).
  lia.
Qed.

Section Availability.

Variable getTime : string -> option Z.
Variable toISOString : Z -> option string.
Variable uuidString : string -> bool.

(** The loop always comes to its end within the bound. *)
Lemma slotLoop_finishes (now : Z) (managerId : string) (t : Z) (n : nat) :
  forall (fuel : nat) (st : Stores) (c : Z) (acc : list AvailabilitySlot),
    slotCount c t = n ->
    (n < fuel)%nat ->
    slotLoop getTime toISOString fuel now st managerId c t acc <> Unfinished.
Proof.
  induction n as [|n IH]; intros fuel st c acc Hn Hfuel;
    (destruct fuel as [|fuel]; [lia|]); cbn [slotLoop];
    destruct (Z.ltb_spec c t) as [Hlt | Hge]; try discriminate.
  - rewrite (slotCount_step c t Hlt) in Hn. discriminate.
  - destruct (toISOString c) as [s0|]; [|discriminate].
    destruct (toISOString (c + slotDuration)) as [s1|]; [|discriminate].
    destruct (hasOverlap getTime now st managerId s0 s1 None) as [overlap st'].
    apply IH; [|lia].
    rewrite (slotCount_step c t Hlt) in Hn. congruence.
Qed.

(** The slots the loop reports on purged stores, when no timestamp is out
    of range. *)
Lemma slotLoop_slots (now : Z) (st : Stores) (managerId : string) (t : Z) (n : nat) :
  forall (fuel : nat) (c : Z) (acc : list AvailabilitySlot),
    slotCount c t = n ->
    (n < fuel)%nat ->
    (forall k, (k <= n)%nat -> toISOString (c + Z.of_nat k * slotDuration) <> None) ->
    slotLoop getTime toISOString fuel now (cleanupExpiredHolds now st) managerId c t acc
    = Returned (acc ++ slotsFrom getTime toISOString n now st managerId c,
                cleanupExpiredHolds now st).
Proof.
  induction n as [|n IH]; intros fuel c acc Hn Hfuel Hiso;
    (destruct fuel as [|fuel]; [lia|]); cbn [slotLoop];
    destruct (Z.ltb_spec c t) as [Hlt | Hge].
  - rewrite (slotCount_step c t Hlt) in Hn. discriminate.
  - cbn [slotsFrom]. rewrite app_nil_r. reflexivity.
  - pose proof (Hiso 0%nat ltac:(lia)) as H0.
    pose proof (Hiso 1%nat ltac:(lia)) as H1.
    replace (c + Z.of_nat 0 * slotDuration) with c in H0 by lia.
    replace (c + Z.of_nat 1 * slotDuration) with (c + slotDuration) in H1 by lia.
    cbn [slotsFrom]. unfold slotAt, isoOrEmpty.
    destruct (toISOString c) as [s0|]; [|congruence].
    destruct (toISOString (c + slotDuration)) as [s1|]; [|congruence].
    rewrite CalendarProps.hasOverlap_reservations.
    rewrite (slotCount_step c t Hlt) in Hn.
    rewrite (IH fuel (c + slotDuration)); [| congruence | lia |].
    + rewrite <- app_assoc. reflexivity.
    + intros k Hk. specialize (Hiso (S k) ltac:(lia)).
      replace (c + slotDuration + Z.of_nat k * slotDuration)
        with (c + Z.of_nat (S k) * slotDuration) by lia.
      exact Hiso.
  - rewrite (slotCount_done c t Hge) in Hn. discriminate.
Qed.

Lemma slotsFrom_length (n : nat) (now : Z) (st : Stores) (managerId : string) :
  forall c, List.length (slotsFrom getTime toISOString n now st managerId c) = n.
Proof.
  induction n as [|n IH]; intros c; [reflexivity|].
  cbn [slotsFrom List.length]. rewrite IH. reflexivity.
Qed.

Lemma slotsFrom_nth (now : Z) (st : Stores) (managerId : string) (n : nat) :
  forall (c : Z) (k : nat),
    (k < n)%nat ->
    nth_error (slotsFrom getTime toISOString n now st managerId c) k
    = Some (slotAt getTime toISOString now st managerId (c + Z.of_nat k * slotDuration)).
Proof.
  induction n as [|n IH]; intros c k Hk; [lia|].
  destruct k as [|k]; cbn [slotsFrom nth_error].
  - replace (c + Z.of_nat 0 * slotDuration) with c by lia. reflexivity.
  - rewrite IH by lia.
    replace (c + slotDuration + Z.of_nat k * slotDuration)
      with (c + Z.of_nat (S k) * slotDuration) by lia.
    reflexivity.
Qed.

Lemma slotsFrom_flag (now : Z) (st : Stores) (managerId : string) (n : nat) :
  forall (c : Z) (slot : AvailabilitySlot),
    In slot (slotsFrom getTime toISOString n now st managerId c) ->
    available slot
    = negb (existsb (conflictsWith getTime (slot_start_utc slot) (slot_end_utc slot))
                    (reservations now st managerId)).
Proof.
  induction n as [|n IH]; intros c slot Hin; [contradiction|].
  destruct Hin as [<- | Hin]; [reflexivity | exact (IH _ _ Hin)].
Qed.

(** [placeHold] on purged stores succeeds exactly when the interval is
    free, the time-to-live in range and the hold well formed. *)
Lemma placeHold_success_iff_free (now : Z) (uuid : string) (st : Stores)
    (managerId startUtc endUtc : string) (ttl : Z) :
  300 <= ttl <= 1800 ->
  CalendarHoldSchema uuidString (mkHold uuid managerId startUtc endUtc "system" ttl) = true ->
  ph_success (fst (placeHold getTime uuidString now uuid (cleanupExpiredHolds now st)
                     managerId startUtc endUtc ttl))
  = negb (existsb (conflictsWith getTime startUtc endUtc) (reservations now st managerId)).
Proof.
  intros Httl Hschema.
  destruct (existsb (conflictsWith getTime startUtc endUtc) (reservations now st managerId))
    eqn:Hex.
  - rewrite CalendarProps.placeHold_overlap;
      [reflexivity | exact Httl | rewrite CalendarMore.reservations_after_purge; exact Hex].
  - rewrite CalendarProps.placeHold_accepted;
      [reflexivity | exact Httl
       | rewrite CalendarMore.reservations_after_purge; exact Hex | exact Hschema].
Qed.

(** X30. The availability report.  [getAvailability] always comes to an
    end.  A window bound that does not parse gives no slot.  Otherwise,
    when no timestamp of the report is out of range, the report is made of
    the half-hour slots that start at [from], [from + 30min], ... as many
    as it takes to cover [from, to) (none when [to <= from]; the last one
    may end after [to]); the stores are purged of expired holds and
    nothing else changes; a slot is reported available exactly when it
    conflicts with no reservation of the manager; and [placeHold] on a
    reported slot, with a time-to-live in range and a well-formed hold,
    succeeds exactly when the slot is reported available. *)
Theorem X30_availability_report (now : Z) (st : Stores) (managerId : string)
    (window : AvailabilityWindow) :
  let out := getAvailability getTime toISOString now st managerId window in
  let st1 := cleanupExpiredHolds now st in
  out <> Unfinished
  /\ (getTime (window_from window) = None \/ getTime (window_to window) = None ->
      out = Returned ([], st1))
  /\ (forall f t,
         getTime (window_from window) = Some f ->
         getTime (window_to window) = Some t ->
         (forall k, (k <= slotCount f t)%nat ->
                    toISOString (f + Z.of_nat k * slotDuration) <> None) ->
         exists slots,
           out = Returned (slots, st1)
           /\ List.length slots = slotCount f t
           /\ (forall k, (k < slotCount f t)%nat ->
                  nth_error slots k
                  = Some (slotAt getTime toISOString now st managerId
                            (f + Z.of_nat k * slotDuration)))
           /\ (forall slot uuid ttl,
                  In slot slots ->
                  300 <= ttl <= 1800 ->
                  CalendarHoldSchema uuidString
                    (mkHold uuid managerId (slot_start_utc slot) (slot_end_utc slot)
                            "system" ttl) = true ->
                  ph_success
                    (fst (placeHold getTime uuidString now uuid st1 managerId
                            (slot_start_utc slot) (slot_end_utc slot) ttl))
                  = available slot)).
Proof.
  intros out st1. subst out. unfold getAvailability. fold st1.
  split.
  { destruct (getTime (window_from window)) as [f|]; [|discriminate].
    destruct (getTime (window_to window)) as [t|]; [|discriminate].
    apply (slotLoop_finishes now managerId t (slotCount f t));
      [reflexivity | apply loopBound_enough]. }
  split.
  { intros [H | H]; rewrite H; [reflexivity|].
    destruct (getTime (window_from window)); reflexivity. }
  intros f t Hf Ht Hiso. rewrite Hf, Ht.
  exists (slotsFrom getTime toISOString (slotCount f t) now st managerId f).
  split.
  { unfold st1.
    rewrite (slotLoop_slots now st managerId t (slotCount f t));
      [reflexivity | reflexivity | apply loopBound_enough | exact Hiso]. }
  split; [apply slotsFrom_length|].
  split; [intros k Hk; apply slotsFrom_nth; exact Hk|].
  intros slot uuid ttl Hin Httl Hschema.
  rewrite (slotsFrom_flag now st managerId _ _ _ Hin).
  apply placeHold_success_iff_free; assumption.
Qed.

End Availability.

Lemma X30_witness :
  getAvailability testGetTime testToISOString 1000 oneHold testManager testWindow
  = Returned ([mkSlot "2024-03-15T14:00:00.000Z" "2024-03-15T14:30:00.000Z" false],
              oneHold).
Proof.
  pose proof (X30_availability_report testGetTime testToISOString anyString
                1000 oneHold testManager testWindow) as H.
  cbv zeta in H. destruct H as (_ & _ & H).
  destruct (H 1710511200000 1710513000000) as (slots & Hout & Hlen & Hnth & _).
  - reflexivity.
  - reflexivity.
  - intros k Hk. change (slotCount 1710511200000 1710513000000) with 1%nat in Hk.
    destruct k as [|[|k]]; [discriminate | discriminate | lia].
  - change (slotCount 1710511200000 1710513000000) with 1%nat in Hlen, Hnth.
    specialize (Hnth 0%nat ltac:(lia)).
    destruct slots as [|slot [|slot' rest]]; try discriminate.
    cbn [nth_error] in Hnth. injection Hnth as Hslot.
    rewrite Hout, Hslot. reflexivity.
Defined.

End AvailabilityProps.
(** * Properties of the call orchestration *)

Module OrchestratorProps.
Import Js JsRegExp StateMachine StateMachineVocabulary Orchestrator.

Ltac break_ifs :=
  repeat match goal with
         | |- context [if ?c then _ else _] => destruct c eqn:?
         end.

Lemma State_eqb_eq (a b : State) : State_eqb a b = true <-> a = b.
Proof. destruct a, b; simpl; split; congruence. Qed.

(** ** Reading a transcript *)

Lemma extractIntent_opt_out (text : string) (st : State) :
  optOutKeyword (toLowerCase text) = true -> extractIntent text st = Some opt_out.
Proof.
  intros H. unfold extractIntent. unfold optOutKeyword in H. rewrite H. reflexivity.
Qed.

Lemma extractIntent_no_keyword (text : string) (st : State) :
  optOutKeyword (toLowerCase text) = false -> extractIntent text st <> Some opt_out.
Proof.
  intros H. unfold extractIntent. unfold optOutKeyword in H. rewrite H.
  break_ifs; discriminate.
Qed.

Lemma extractIntent_range (text : string) (st : State) :
  extractIntent text st = None
  \/ extractIntent text st = Some opt_out
  \/ extractIntent text st = Some consent
  \/ extractIntent text st = Some transfer
  \/ extractIntent text st = Some confirm.
Proof.
  unfold extractIntent. break_ifs; auto.
Qed.

Lemma extractIntent_never (text : string) (st : State) :
  extractIntent text st <> Some identify
  /\ extractIntent text st <> Some qualify
  /\ extractIntent text st <> Some propose
  /\ extractIntent text st <> Some voicemail
  /\ extractIntent text st <> Some disqualify.
Proof.
  destruct (extractIntent_range text st) as [H | [H | [H | [H | H]]]];
    rewrite H; repeat split; discriminate.
Qed.

(** X25. What [extractIntent] can return.  The intent is [opt_out] exactly
    when the lowered text contains one of the six opt-out keywords,
    whatever the state; [consent] is returned only in [ConsentGate] and
    [confirm] only in [Confirm] and [ProposeTime]; the intents [identify],
    [qualify], [propose], [voicemail] and [disqualify] are never
    returned. *)
Theorem X25_extractIntent_gating (text : string) (st : State) :
  (extractIntent text st = Some opt_out <-> optOutKeyword (toLowerCase text) = true)
  /\ (extractIntent text st = Some consent -> st = ConsentGate)
  /\ (extractIntent text st = Some confirm -> st = Confirm \/ st = ProposeTime)
  /\ extractIntent text st <> Some identify
  /\ extractIntent text st <> Some qualify
  /\ extractIntent text st <> Some propose
  /\ extractIntent text st <> Some voicemail
  /\ extractIntent text st <> Some disqualify.
Proof.
  split.
  { split.
    - intros H. destruct (optOutKeyword (toLowerCase text)) eqn:Hk; [reflexivity|].
      exfalso. exact (extractIntent_no_keyword text st Hk H).
    - apply extractIntent_opt_out. }
  split.
  { unfold extractIntent. break_ifs; try discriminate. intros _.
    match goal with
    | H : (_ && State_eqb st ConsentGate)%bool = true |- _ =>
        apply andb_prop in H; destruct H as [_ H]; apply State_eqb_eq in H; exact H
    end. }
  split.
  { unfold extractIntent. break_ifs; try discriminate; intros _;
      try (right; apply State_eqb_eq; assumption).
    left.
    match goal with
    | H : (_ && State_eqb st Confirm)%bool = true |- _ =>
        apply andb_prop in H; destruct H as [_ H]; apply State_eqb_eq in H; exact H
    end. }
  apply extractIntent_never.
Qed.

Lemma X25_witness :
  extractIntent "Yes, but please STOP calling me" ConsentGate = Some opt_out.
Proof.
  apply (proj1 (X25_extractIntent_gating "Yes, but please STOP calling me" ConsentGate)).
  reflexivity.
Defined.

(** ** Selecting a proposed time *)

Lemma secondOrFirst_cases (times : list string) :
  (exists first second rest,
      times = first :: second :: rest /\ second <> EmptyString
      /\ secondOrFirst times = Some second)
  \/ secondOrFirst times = nth_error times 0.
Proof.
  unfold secondOrFirst.
  destruct times as [|first [|second rest]]; simpl; [right; reflexivity ..|].
  destruct second as [|c second']; [right; reflexivity|].
  left. exists first, (String c second'), rest.
  split; [reflexivity|]. split; [discriminate | reflexivity].
Qed.

Lemma selected_time_origin (text : string) (proposedTimes : option (list string))
    (t : string) :
  extractTimeFromTranscript text proposedTimes = Some t ->
  (exists times, proposedTimes = Some times /\ In t times)
  /\ (saysFirst (toLowerCase text) || saysSecond (toLowerCase text)
      || saysAgreed (toLowerCase text))%bool = true.
Proof.
  intros H.
  destruct proposedTimes as [times|]; [|discriminate].
  destruct times as [|first rest]; [discriminate|].
  unfold extractTimeFromTranscript in H.
  destruct (saysFirst (toLowerCase text)) eqn:H1.
  - split; [|reflexivity].
    exists (first :: rest). split; [reflexivity|].
    apply (nth_error_In _ 0%nat H).
  - destruct (saysSecond (toLowerCase text)) eqn:H2.
    + split; [|reflexivity].
      exists (first :: rest). split; [reflexivity|].
      destruct (secondOrFirst_cases (first :: rest))
        as [(f & s & r & Heq & _ & Hsel) | Hsel]; rewrite Hsel in H.
      * inversion H; subst t. rewrite Heq. right. left. reflexivity.
      * apply (nth_error_In _ 0%nat H).
    + destruct (saysAgreed (toLowerCase text)) eqn:H3; [|discriminate].
      split; [|reflexivity].
      exists (first :: rest). split; [reflexivity|].
      apply (nth_error_In _ 0%nat H).
Qed.

(** X26. The time [extractTimeFromTranscript] selects.  Without proposed
    times, or with an empty list, nothing is selected.  A selected time is
    one of the proposed times, and the text then names the first option,
    the second option or an agreement.  A text that names the first option
    (the word "one" is enough) selects the first time whatever else it
    says; a text that names only the second option selects the second
    time when there is one and it is not empty, and the first time
    otherwise. *)
Theorem X26_selected_time_is_proposed (text : string) :
  let lower := toLowerCase text in
  extractTimeFromTranscript text None = None
  /\ extractTimeFromTranscript text (Some []) = None
  /\ (forall proposedTimes t,
         extractTimeFromTranscript text proposedTimes = Some t ->
         (exists times, proposedTimes = Some times /\ In t times)
         /\ (saysFirst lower || saysSecond lower || saysAgreed lower)%bool = true)
  /\ (forall first rest,
         saysFirst lower = true ->
         extractTimeFromTranscript text (Some (first :: rest)) = Some first)
  /\ (forall first second rest,
         saysFirst lower = false ->
         saysSecond lower = true ->
         extractTimeFromTranscript text (Some (first :: second :: rest))
         = Some (if truthyStr (Some second) then second else first))
  /\ (forall first,
         saysFirst lower = false ->
         saysSecond lower = true ->
         extractTimeFromTranscript text (Some [first]) = Some first).
Proof.
  intros lower.
  split; [reflexivity|]. split; [reflexivity|].
  split.
  { intros proposedTimes t H. exact (selected_time_origin text proposedTimes t H). }
  split.
  { intros first rest H1. unfold extractTimeFromTranscript. fold lower.
    rewrite H1. reflexivity. }
  split.
  { intros first second rest H1 H2. unfold extractTimeFromTranscript. fold lower.
    rewrite H1, H2. unfold secondOrFirst. cbn [nth_error].
    destruct (truthyStr (Some second)); reflexivity. }
  intros first H1 H2. unfold extractTimeFromTranscript. fold lower.
  rewrite H1, H2. reflexivity.
Qed.

Lemma X26_witness :
  extractTimeFromTranscript "Yes, the second one" (Some twoTimes)
  = Some "2024-03-15T19:00:00.000Z".
Proof.
  apply (proj1 (proj2 (proj2 (proj2
           (X26_selected_time_is_proposed "Yes, the second one"))))
           "2024-03-15T19:00:00.000Z" ["2024-03-15T20:00:00.000Z"]).
  reflexivity.
Defined.

(** ** One transcript through the state machine *)

Lemma selected_time_input (text : string) (st : State) (proposedTimes : option (list string)) :
  selected_time (transcriptInput text st proposedTimes)
  = extractTimeFromTranscript text proposedTimes.
Proof. destruct proposedTimes; reflexivity. Qed.

Lemma explicit_confirmation_input (text : string) (st : State)
    (proposedTimes : option (list string)) :
  explicit_confirmation (transcriptInput text st proposedTimes) = Some true
  <-> extractIntent text st = Some confirm
      /\ exists t, extractTimeFromTranscript text proposedTimes = Some t.
Proof.
  unfold transcriptInput. cbn [explicit_confirmation].
  replace (match proposedTimes with
           | Some _ => extractTimeFromTranscript text proposedTimes
           | None => None
           end)
    with (extractTimeFromTranscript text proposedTimes)
    by (destruct proposedTimes; reflexivity).
  destruct (extractIntent text st) as [[]|];
    destruct (extractTimeFromTranscript text proposedTimes) as [t|];
    split; try discriminate;
      try (intros [H _]; discriminate);
      try (intros [_ [t' H]]; discriminate).
  - intros _. split; [reflexivity | exists t; reflexivity].
  - intros _. reflexivity.
Qed.

(** The transcript supplies no confirmed date or time of its own. *)
Lemma confirmed_slots_input (sl : ConversationSlots) (text : string) (st : State)
    (proposedTimes : option (list string)) :
  confirmed_date (updateSlots sl (transcriptInput text st proposedTimes)) = confirmed_date sl
  /\ confirmed_time (updateSlots sl (transcriptInput text st proposedTimes))
     = confirmed_time sl.
Proof.
  destruct (StateMachineMore.updateSlots_confirmed sl
              (transcriptInput text st proposedTimes)) as [Hd Ht].
  rewrite Hd, Ht. split; reflexivity.
Qed.

(** The booking intent a call of [nextState] leaves in [Confirm]. *)
Lemma Confirm_booking (s : StateMachineState) (i : StateMachineInput) :
  current s = Confirm ->
  let sl := updateSlots (slots s) i in
  booking_intent (nextState s i)
  = if (truthy (explicit_confirmation i) && truthyStr (confirmed_time sl)
        && truthyStr (confirmed_date sl))%bool
    then Some {| booking_id := ("booking-" ++ call_id (context s))%string;
                 bi_lead_id := lead_id (context s);
                 bi_confirmed_date := orEmpty (confirmed_date sl);
                 bi_confirmed_time := orEmpty (confirmed_time sl);
                 qualification_flags := sl;
                 bi_explicit_confirmation := true |}
    else booking_intent s.
Proof.
  intros Hc sl. unfold nextState. rewrite Hc. fold sl.
  cbn [booking_intent step_intent].
  destruct (truthy (explicit_confirmation i) && truthyStr (confirmed_time sl)
            && truthyStr (confirmed_date sl))%bool; [reflexivity|].
  break_ifs; reflexivity.
Qed.

(** How a call of [nextState] can end in [Confirm]. *)
Lemma enters_Confirm (s : StateMachineState) (i : StateMachineInput) :
  current (nextState s i) = Confirm ->
  current s = Confirm
  \/ (current s = ProposeTime
      /\ explicit_confirmation i = Some true
      /\ truthyStr (selected_time i) = true
      /\ confirmed_date (slots (nextState s i)) = selected_time i
      /\ confirmed_time (slots (nextState s i)) = selected_time i).
Proof.
  unfold nextState. destruct (current s) eqn:Hc; cbn [current slots step_next step_slots];
    break_ifs; cbn [goto step_next step_slots]; intros H; try discriminate;
      try (left; reflexivity).
  right.
  match goal with
  | Hcond : (_ && _ && _)%bool = true |- _ =>
      apply andb_prop in Hcond; destruct Hcond as [Hcond He];
      apply andb_prop in Hcond; destruct Hcond as [_ Hsel]
  end.
  apply StateMachineProps.truthy_true in He.
  repeat split; try reflexivity; assumption.
Qed.

Lemma processTranscript_cases (w : World) (callId text : string)
    (proposedTimes : option (list string)) (s : CallSession) :
  getCallSession w callId = Some s ->
  is_active s = true ->
  let sm := nextState (state_machine s)
                      (transcriptInput text (current (state_machine s)) proposedTimes) in
  let optedOut := State_eqb (current sm) OptOut in
  processTranscript w callId text proposedTimes
  = Some (mkResult sm (booking_intent sm)
                   (negb (State_eqb (current sm) (current (state_machine s)))),
          mkWorld (JsMap.set (callSessions w) callId
                     (mkSession (session_call_id s) (session_lead_id s)
                                (session_manager_id s) sm (negb optedOut)))
                  (if optedOut
                   then optOutsEmitted w ++ [(session_lead_id s, callId)]
                   else optOutsEmitted w)).
Proof.
  intros Hs Ha sm optedOut. unfold processTranscript.
  unfold getCallSession in Hs. rewrite Hs, Ha. cbn [negb].
  fold sm. fold optedOut. destruct optedOut; reflexivity.
Qed.

Lemma processTranscript_throws (w : World) (callId text : string)
    (proposedTimes : option (list string)) :
  processTranscript w callId text proposedTimes = None
  <-> getCallSession w callId = None
      \/ exists s, getCallSession w callId = Some s /\ is_active s = false.
Proof.
  unfold processTranscript, getCallSession.
  destruct (JsMap.get (callSessions w) callId) as [s|].
  - destruct (is_active s) eqn:Ha; cbn [negb].
    + split; [discriminate|].
      intros [H | [s' [H Hf]]]; [discriminate|]. inversion H; subst. congruence.
    + split; [|reflexivity]. intros _. right. exists s. split; [reflexivity | exact Ha].
  - split; [intros _; left|]; reflexivity.
Qed.

Lemma processTranscript_returns (w : World) (callId text : string)
    (proposedTimes : option (list string)) (s : CallSession) (r : TranscriptResult)
    (w' : World) :
  getCallSession w callId = Some s ->
  processTranscript w callId text proposedTimes = Some (r, w') ->
  is_active s = true.
Proof.
  intros Hs H. destruct (is_active s) eqn:Ha; [reflexivity|].
  assert (processTranscript w callId text proposedTimes = None)
    by (apply processTranscript_throws; right; exists s; split; assumption).
  congruence.
Qed.

Lemma processTranscript_result (w : World) (callId text : string)
    (proposedTimes : option (list string)) (s : CallSession) (r : TranscriptResult)
    (w' : World) :
  getCallSession w callId = Some s ->
  processTranscript w callId text proposedTimes = Some (r, w') ->
  let sm := nextState (state_machine s)
                      (transcriptInput text (current (state_machine s)) proposedTimes) in
  state r = sm
  /\ tr_intent r = booking_intent sm
  /\ should_speak r = negb (State_eqb (current sm) (current (state_machine s)))
  /\ callSessions w'
     = JsMap.set (callSessions w) callId
         (mkSession (session_call_id s) (session_lead_id s) (session_manager_id s) sm
                    (negb (State_eqb (current sm) OptOut)))
  /\ optOutsEmitted w'
     = (if State_eqb (current sm) OptOut
        then optOutsEmitted w ++ [(session_lead_id s, callId)]
        else optOutsEmitted w).
Proof.
  intros Hs Hret sm.
  pose proof (processTranscript_returns _ _ _ _ _ _ _ Hs Hret) as Ha.
  rewrite (processTranscript_cases w callId text proposedTimes s Hs Ha) in Hret.
  cbv zeta in Hret. fold sm in Hret.
  injection Hret as Hr Hw. subst r w'. repeat split; reflexivity.
Qed.

(** X27. No booking without a selected time.  Take a call of
    [processTranscript] that returns.  If no proposed time is selected from
    the text (in particular when no times are proposed), the booking intent
    is the one the session already had and the session does not enter
    [Confirm].  A step from [ProposeTime] to [Confirm] stores one of the
    proposed times, not empty, as the confirmed date and time.  A booking
    intent that changes is produced in [Confirm], ends the call in [End],
    takes a confirming text together with a selected time, and carries the
    date and time the session had stored, not the one selected in this
    turn. *)
Theorem X27_booking_needs_a_selected_time (w : World) (callId text : string)
    (proposedTimes : option (list string)) (s : CallSession) (r : TranscriptResult)
    (w' : World) :
  getCallSession w callId = Some s ->
  processTranscript w callId text proposedTimes = Some (r, w') ->
  let before := state_machine s in
  (extractTimeFromTranscript text proposedTimes = None ->
   tr_intent r = booking_intent before
   /\ (current (state r) = Confirm -> current before = Confirm))
  /\ (current before = ProposeTime ->
      current (state r) = Confirm ->
      exists t times,
        proposedTimes = Some times /\ In t times /\ t <> EmptyString
        /\ confirmed_date (slots (state r)) = Some t
        /\ confirmed_time (slots (state r)) = Some t)
  /\ (tr_intent r <> booking_intent before ->
      current before = Confirm
      /\ current (state r) = End
      /\ extractIntent text Confirm = Some confirm
      /\ (exists t, extractTimeFromTranscript text proposedTimes = Some t)
      /\ exists b, tr_intent r = Some b
                   /\ bi_explicit_confirmation b = true
                   /\ bi_confirmed_date b = orEmpty (confirmed_date (slots before))
                   /\ bi_confirmed_time b = orEmpty (confirmed_time (slots before))).
Proof.
  intros Hs Hret before.
  destruct (processTranscript_result _ _ _ _ _ _ _ Hs Hret) as (Hst & Hti & _).
  rewrite Hst, Hti. clear Hst Hti. fold before.
  set (i := transcriptInput text (current before) proposedTimes).
  split.
  { intros Hnone.
    assert (He : explicit_confirmation i <> Some true).
    { intros He. apply explicit_confirmation_input in He.
      destruct He as [_ [t Ht]]. congruence. }
    split.
    - destruct (StateMachineProps.booking_intent_origin before i)
        as [Hsame | (_ & He' & _)]; [exact Hsame | contradiction].
    - intros Hc. destruct (enters_Confirm before i Hc) as [H | (_ & He' & _)];
        [exact H | contradiction]. }
  split.
  { intros Hp Hc.
    destruct (enters_Confirm before i Hc) as [H | (_ & _ & Htr & Hd & Ht)];
      [congruence|].
    unfold i in Htr, Hd, Ht. rewrite selected_time_input in Htr, Hd, Ht. fold i in Hd, Ht.
    destruct (extractTimeFromTranscript text proposedTimes) as [t|] eqn:Hsel;
      [|discriminate].
    destruct (selected_time_origin text proposedTimes t Hsel) as [(times & Hp' & Hin) _].
    exists t, times. repeat split; try assumption.
    intros ->. discriminate. }
  intros Hnew.
  destruct (StateMachineProps.booking_intent_origin before i)
    as [Hsame | (Hc & He & Hend & b & Hb & Hex)]; [contradiction|].
  apply explicit_confirmation_input in He. destruct He as [Hi Ht].
  rewrite Hc in Hi.
  split; [exact Hc|]. split; [exact Hend|]. split; [exact Hi|]. split; [exact Ht|].
  exists b. split; [exact Hb|]. split; [exact Hex|].
  destruct (confirmed_slots_input (slots before) text (current before) proposedTimes)
    as [Hd' Ht'].
  fold i in Hd', Ht'.
  rewrite (Confirm_booking before i Hc) in Hb, Hnew. cbv zeta in Hb, Hnew.
  destruct (truthy (explicit_confirmation i)
            && truthyStr (confirmed_time (updateSlots (slots before) i))
            && truthyStr (confirmed_date (updateSlots (slots before) i)))%bool;
    [|contradiction].
  inversion Hb as [Hb']. cbn [bi_confirmed_date bi_confirmed_time].
  rewrite Hd', Ht'. split; reflexivity.
Qed.

Lemma X27_witness :
  option_map (fun out => tr_intent (fst out))
             (processTranscript (worldAt Confirm confirmedSlots) (call_id baseContext)
                                "yes" None)
  = Some None.
Proof.
  destruct (processTranscript (worldAt Confirm confirmedSlots) (call_id baseContext)
                              "yes" None) as [[r w']|] eqn:Hret;
    [|vm_compute in Hret; discriminate].
  cbn [option_map fst]. f_equal.
  refine (proj1 (proj1 (X27_booking_needs_a_selected_time
                          (worldAt Confirm confirmedSlots) (call_id baseContext) "yes" None
                          (mkSession (call_id baseContext) (lead_id baseContext) None
                                     (stateAt Confirm confirmedSlots) true)
                          r w' _ Hret) _)).
  - reflexivity.
  - reflexivity.
Defined.

(** ** Opting out and ending a session *)

Lemma opt_out_honoured (s : StateMachineState) (i : StateMachineInput) :
  intent i = Some opt_out ->
  explicit_confirmation i <> Some true ->
  current s = Qualify \/ current s = ProposeTime \/ current s = Confirm ->
  current (nextState s i) = OptOut.
Proof.
  intros Hi He Hc.
  apply StateMachineProps.intentIs_true in Hi.
  apply StateMachineProps.truthy_false in He.
  unfold nextState. destruct Hc as [Hc | [Hc | Hc]]; rewrite Hc;
    cbn [current step_next]; rewrite ?Hi, ?He; reflexivity.
Qed.

Lemma IdentifyContact_successors (s : StateMachineState) (i : StateMachineInput) :
  current s = IdentifyContact ->
  current (nextState s i) = IdentifyContact
  \/ current (nextState s i) = ConsentGate
  \/ current (nextState s i) = Transfer
  \/ (current (nextState s i) = Voicemail /\ intent i = Some voicemail).
Proof.
  intros Hc. unfold nextState. rewrite Hc. cbn [current step_next].
  destruct (truthy _ && truthy _)%bool; [right; left; reflexivity|].
  destruct (intentIs i transfer); [right; right; left; reflexivity|].
  destruct (intentIs i voicemail) eqn:Hv.
  - right. right. right. split; [reflexivity|].
    apply StateMachineProps.intentIs_true. exact Hv.
  - left. reflexivity.
Qed.

Lemma endCallSession_throws (w : World) (callId text : string)
    (proposedTimes : option (list string)) :
  processTranscript (endCallSession w callId) callId text proposedTimes = None.
Proof.
  apply processTranscript_throws. unfold endCallSession, getCallSession.
  destruct (JsMap.get (callSessions w) callId) as [s|] eqn:Hs.
  - right. cbn [callSessions]. rewrite JsMapFacts.get_set_same.
    eexists. split; reflexivity.
  - left. exact Hs.
Qed.

(** X28. Opting out and ending a session.  Take a call of
    [processTranscript] that returns: the session was active; the other
    sessions are untouched; the session is stored with the new state of
    the machine.  If that state is [OptOut], the session is deactivated,
    exactly one call [emitOptOut(lead_id, callId)] is made, and every
    further [processTranscript] on the call throws; otherwise the session
    stays active and nothing is emitted.  A text with an opt-out keyword
    leads to [OptOut] from [Qualify], [ProposeTime] and [Confirm]; from
    [IdentifyContact] no text does.  After [endCallSession], too,
    [processTranscript] throws. *)
Theorem X28_opt_out_ends_the_session (w : World) (callId text : string)
    (proposedTimes : option (list string)) (s : CallSession) (r : TranscriptResult)
    (w' : World) :
  getCallSession w callId = Some s ->
  processTranscript w callId text proposedTimes = Some (r, w') ->
  is_active s = true
  /\ (forall other, other <> callId -> getCallSession w' other = getCallSession w other)
  /\ getCallSession w' callId
     = Some (mkSession (session_call_id s) (session_lead_id s) (session_manager_id s)
                       (state r) (negb (State_eqb (current (state r)) OptOut)))
  /\ (current (state r) = OptOut ->
      optOutsEmitted w' = optOutsEmitted w ++ [(session_lead_id s, callId)]
      /\ forall text' proposedTimes',
           processTranscript w' callId text' proposedTimes' = None)
  /\ (current (state r) <> OptOut -> optOutsEmitted w' = optOutsEmitted w)
  /\ (optOutKeyword (toLowerCase text) = true ->
      current (state_machine s) = Qualify \/ current (state_machine s) = ProposeTime
      \/ current (state_machine s) = Confirm ->
      current (state r) = OptOut)
  /\ (current (state_machine s) = IdentifyContact -> current (state r) <> OptOut)
  /\ (forall text' proposedTimes',
         processTranscript (endCallSession w' callId) callId text' proposedTimes' = None).
Proof.
  intros Hs Hret.
  pose proof (processTranscript_returns _ _ _ _ _ _ _ Hs Hret) as Ha.
  destruct (processTranscript_result _ _ _ _ _ _ _ Hs Hret)
    as (Hst & _ & _ & Hsessions & Hemitted).
  cbv zeta in Hst, Hsessions, Hemitted. rewrite <- Hst in Hsessions, Hemitted.
  assert (Hstored : getCallSession w' callId
                    = Some (mkSession (session_call_id s) (session_lead_id s)
                                      (session_manager_id s) (state r)
                                      (negb (State_eqb (current (state r)) OptOut)))).
  { unfold getCallSession. rewrite Hsessions. apply JsMapFacts.get_set_same. }
  split; [exact Ha|].
  split.
  { intros other Hne. unfold getCallSession. rewrite Hsessions.
    apply JsMapFacts.get_set_other. congruence. }
  split; [exact Hstored|].
  split.
  { intros Hout. rewrite Hout in Hemitted, Hstored. cbn [State_eqb negb] in *.
    split; [exact Hemitted|].
    intros text' proposedTimes'. apply processTranscript_throws.
    right. eexists. split; [exact Hstored | reflexivity]. }
  split.
  { intros Hout. destruct (State_eqb (current (state r)) OptOut) eqn:E;
      [apply State_eqb_eq in E; contradiction | exact Hemitted]. }
  split.
  { intros Hkey Hc. rewrite Hst. apply opt_out_honoured; [| |exact Hc].
    - apply extractIntent_opt_out. exact Hkey.
    - intros He. apply explicit_confirmation_input in He. destruct He as [He _].
      rewrite (extractIntent_opt_out _ _ Hkey) in He. discriminate. }
  split.
  { intros Hc. rewrite Hst.
    destruct (IdentifyContact_successors (state_machine s)
                (transcriptInput text (current (state_machine s)) proposedTimes) Hc)
      as [H | [H | [H | [H _]]]]; rewrite H; discriminate. }
  intros text' proposedTimes'. apply endCallSession_throws.
Qed.

Lemma X28_witness :
  option_map (fun out => (current (state (fst out)), optOutsEmitted (snd out)))
             (processTranscript (worldAt Qualify emptySlots) (call_id baseContext)
                                "Please stop calling" None)
  = Some (OptOut, [(lead_id baseContext, call_id baseContext)]).
Proof.
  destruct (processTranscript (worldAt Qualify emptySlots) (call_id baseContext)
                              "Please stop calling" None) as [[r w']|] eqn:Hret;
    [|vm_compute in Hret; discriminate].
  cbn [option_map fst snd].
  pose proof (X28_opt_out_ends_the_session
                (worldAt Qualify emptySlots) (call_id baseContext) "Please stop calling"
                None
                (mkSession (call_id baseContext) (lead_id baseContext) None
                           (stateAt Qualify emptySlots) true)
                r w' eq_refl Hret) as (_ & _ & _ & Hout & _ & Hkey & _).
  assert (Hc : current (state r) = OptOut).
  { apply Hkey; [reflexivity | left; reflexivity]. }
  destruct (Hout Hc) as [Hemitted _].
  rewrite Hc, Hemitted. reflexivity.
Defined.

(** ** A call driven from its creation *)

Lemma confined_step (w : World) (callId text : string)
    (proposedTimes : option (list string)) :
  confined w callId ->
  exists r w',
    processTranscript w callId text proposedTimes = Some (r, w')
    /\ confined w' callId
    /\ optOutsEmitted w' = optOutsEmitted w
    /\ (current (state r) = IdentifyContact \/ current (state r) = Transfer)
    /\ purpose (mandatory_lines (state r)) = None
    /\ tr_intent r = None.
Proof.
  intros (s & Hs & Ha & Hp & Hc & Hb).
  pose proof (processTranscript_cases w callId text proposedTimes s Hs Ha) as Hcases.
  cbv zeta in Hcases.
  set (i := transcriptInput text (current (state_machine s)) proposedTimes) in *.
  set (sm := nextState (state_machine s) i) in *.
  assert (Hstuck : stuck (state_machine s)).
  { split; [exact Hp|]. destruct Hc as [Hc | Hc]; [left | right; left]; exact Hc. }
  destruct (StateMachineProps.stuck_step (state_machine s) i Hstuck) as [Hp' Hc'].
  fold sm in Hp', Hc'.
  assert (Hc'' : current sm = IdentifyContact \/ current sm = Transfer).
  { destruct Hc as [Hc | Hc].
    - destruct (IdentifyContact_successors (state_machine s) i Hc)
        as [H | [H | [H | [_ H]]]]; fold sm in H.
      + left. exact H.
      + destruct Hc' as [Hc' | [Hc' | Hc']]; congruence.
      + right. exact H.
      + exfalso.
        assert (Hi : intent i = extractIntent text (current (state_machine s)))
          by reflexivity.
        rewrite Hi in H.
        destruct (extractIntent_never text (current (state_machine s)))
          as (_ & _ & _ & Hnever & _).
        exact (Hnever H).
    - right. unfold sm.
      rewrite StateMachineMore.terminal_step by (rewrite Hc; reflexivity).
      exact Hc. }
  assert (Hb' : booking_intent sm = None).
  { destruct (StateMachineProps.booking_intent_origin (state_machine s) i)
      as [Hsame | (Hconf & _)].
    - exact (eq_trans Hsame Hb).
    - destruct Hc as [Hc | Hc]; congruence. }
  assert (Hout : State_eqb (current sm) OptOut = false).
  { destruct Hc'' as [H | H]; rewrite H; reflexivity. }
  rewrite Hout in Hcases. cbn [negb] in Hcases.
  eexists. eexists. split; [exact Hcases|].
  cbn [state tr_intent optOutsEmitted].
  split.
  { eexists. split; [unfold getCallSession; cbn [callSessions];
                     apply JsMapFacts.get_set_same|].
    cbn [is_active state_machine]. repeat split; assumption. }
  repeat split; assumption.
Qed.

Lemma confined_run (callId : string) (turns : list Turn) :
  forall w,
    confined w callId ->
    exists rs w',
      processAll w callId turns = Some (rs, w')
      /\ List.length rs = List.length turns
      /\ Forall (fun r => (current (state r) = IdentifyContact
                           \/ current (state r) = Transfer)
                          /\ purpose (mandatory_lines (state r)) = None
                          /\ tr_intent r = None) rs
      /\ optOutsEmitted w' = optOutsEmitted w
      /\ confined w' callId.
Proof.
  induction turns as [|[text proposedTimes] rest IH]; intros w Hw.
  - exists [], w. repeat split; [constructor | exact Hw].
  - destruct (confined_step w callId text proposedTimes Hw)
      as (r & w1 & Hret & Hw1 & He1 & Hc & Hp & Hi).
    destruct (IH w1 Hw1) as (rs & w' & Hrun & Hlen & Hall & He & Hw').
    exists (r :: rs), w'. cbn [processAll]. rewrite Hret, Hrun.
    split; [reflexivity|].
    split; [cbn [List.length]; rewrite Hlen; reflexivity|].
    split; [constructor; [repeat split; assumption | exact Hall]|].
    split; [rewrite He; exact He1 | exact Hw'].
Qed.

(** X29. A call driven from its creation.  After [createCallSession],
    whatever texts and proposed times are fed to [processTranscript] on the
    call, no call throws; every result leaves the machine in
    [IdentifyContact] or [Transfer] with the purpose line unrecorded and
    carries no booking intent; no opt-out is emitted; and the session is
    still active at the end. *)
Theorem X29_orchestrated_call_is_confined (w : World) (callId leadId : string)
    (managerId : option string) (turns : list Turn) :
  let w1 := snd (createCallSession w callId leadId managerId) in
  exists rs w',
    processAll w1 callId turns = Some (rs, w')
    /\ List.length rs = List.length turns
    /\ Forall (fun r => (current (state r) = IdentifyContact
                         \/ current (state r) = Transfer)
                        /\ purpose (mandatory_lines (state r)) = None
                        /\ tr_intent r = None) rs
    /\ optOutsEmitted w' = optOutsEmitted w
    /\ exists s', getCallSession w' callId = Some s' /\ is_active s' = true.
Proof.
  intros w1.
  assert (Hconfined : confined w1 callId).
  { eexists. split; [unfold w1, createCallSession, getCallSession; cbn [snd callSessions];
                     apply JsMapFacts.get_set_same|].
    cbn. repeat split; try reflexivity. left. reflexivity. }
  destruct (confined_run callId turns w1 Hconfined)
    as (rs & w' & Hrun & Hlen & Hall & He & (s' & Hs' & Ha' & _)).
  exists rs, w'. split; [exact Hrun|]. split; [exact Hlen|]. split; [exact Hall|].
  split; [exact He|]. exists s'. split; assumption.
Qed.

Example opening_line_goes_nowhere :
  let w1 := snd (createCallSession emptyWorld (call_id baseContext) (lead_id baseContext)
                   None) in
  option_map (fun out => map (fun r => (current (state r), should_speak r)) (fst out))
             (processAll w1 (call_id baseContext)
                [("Hello, this is Alex from Acme. I am calling to schedule a discovery meeting.",
                  None);
                 ("Yes, sure", None);
                 ("Please stop calling me", None)])
  = Some [(IdentifyContact, false); (IdentifyContact, false); (IdentifyContact, false)].
Proof. vm_compute. reflexivity. Qed.

End OrchestratorProps.
